(** * i2c_eeprom_util: the EEPROM transactor, address codec, image codec
      and flashing routine of [src/i2c_eeprom_util/i2c_eeprom_util.py]

    The Python functions [zl_eeprom_image_parse], [i2c_protocol_parse],
    [eeprom_page_write], [eeprom_write], [eeprom_read],
    [byte_address_parse], [eeprom_i2c_config], [file_mode], [manual_mode]
    and [parse_options] are embedded as Rocq functions of the same names;
    [main] and [get_version] are not.

    - [bytes] and [bytearray] values are lists of [byte], integers are [Z],
      text is [string], with characters of code points below 256;
    - exceptions are values of [exn], and a function that can raise returns
      a [result];
    - code that talks to the I2C port runs in a state-and-exception monad
      [M] over a port that keeps the list of the calls made on it;
    - the builtins that the program calls ([int], [bytes.fromhex],
      [str.strip], [os.path.splitext], ...) are written out after CPython
      3.11. *)

From Stdlib Require Import Strings.String Strings.Ascii Strings.Byte.
From Stdlib Require Import DecimalString.
From Stdlib Require Import ZArith List Bool Lia.
Import ListNotations.
Open Scope Z_scope.

(** ** Python values *)

Definition bytes := list byte.

Definition byte_val (b : byte) : Z := Z.of_N (Byte.to_N b).

Definition byte_of_Z (z : Z) : byte :=
  match Byte.of_N (Z.to_N z) with
  | Some b => b
  | None => x00
  end.

(** The exceptions that the program raises or lets through, each with the
    text Python shows for it. *)
Inductive exn : Type :=
| ValueError (msg : string)
| TypeError (msg : string)
| OverflowError (msg : string)
| KeyError (key : string)
| FileNotFoundError (msg : string)
| PermissionError (msg : string)
| OSError (msg : string)
| I2cNackError (msg : string)
| I2cIOError (msg : string).

Inductive result (A : Type) : Type :=
| Ok (a : A)
| Raise (e : exn).
Arguments Ok {A} a.
Arguments Raise {A} e.

(** [int.from_bytes(bs, "big")] *)
Definition int_from_bytes (bs : bytes) : Z :=
  fold_left (fun acc b => acc * 256 + byte_val b) bs 0.

(** The [len] low base-256 digits of [n], most significant first. *)
Fixpoint be_digits (len : nat) (n : Z) : bytes :=
  match len with
  | O => []
  | S k => be_digits k (n / 256) ++ [byte_of_Z (n mod 256)]
  end.

(** [n.to_bytes(len, "big")]: Python refuses a negative [n] and an [n] that
    does not fit in [len] bytes. *)
Definition int_to_bytes (n : Z) (len : nat) : result bytes :=
  if n <? 0 then Raise (OverflowError "can't convert negative int to unsigned")
  else if 256 ^ Z.of_nat len <=? n then Raise (OverflowError "int too big to convert")
  else Ok (be_digits len n).

(** [command or b''] for an [Optional[bytes]] *)
Definition or_empty (command : option bytes) : bytes :=
  match command with
  | Some c => c
  | None => []
  end.

(** ** The I2C port

    [pyftdi]'s [I2cPort] is outside the program.  A port is modelled by what
    it answers to a call given all the calls made before, together with the
    list of those calls; a call that the slave does not acknowledge raises
    the exception the port chooses (normally [I2cNackError]).  A failed call
    is recorded as well, so the history counts attempts. *)

Inductive event : Type :=
| EvWrite (out : bytes)
| EvRead (readlen : Z).

Record I2cPort : Type := mkPort {
  on_write : list event -> bytes -> option exn;
  on_read : list event -> Z -> result bytes;
  history : list event
}.

Definition record (ev : event) (p : I2cPort) : I2cPort :=
  mkPort (on_write p) (on_read p) (history p ++ [ev]).

(** Computations on the port. *)
Definition M (A : Type) : Type := I2cPort -> result A * I2cPort.

Definition ret {A} (a : A) : M A := fun p => (Ok a, p).

Definition bind {A B} (c : M A) (k : A -> M B) : M B :=
  fun p =>
    match c p with
    | (Ok a, p') => k a p'
    | (Raise e, p') => (Raise e, p')
    end.

Definition lift {A} (r : result A) : M A := fun p => (r, p).

Notation "x <- c ;; k" := (bind c (fun x => k))
  (at level 61, c at next level, right associativity).
Notation "c ;;; k" := (bind c (fun _ => k))
  (at level 61, right associativity).

(** [eeprom.write(out)] *)
Definition port_write (out : bytes) : M unit :=
  fun p =>
    match on_write p (history p) out with
    | None => (Ok tt, record (EvWrite out) p)
    | Some e => (Raise e, record (EvWrite out) p)
    end.

(** [eeprom.read(readlen)] *)
Definition port_read (readlen : Z) : M bytes :=
  fun p => (on_read p (history p) readlen, record (EvRead readlen) p).

(** ** The transactor

    The argument [eeprom] of the three functions is the port that [M]
    carries. *)

Definition eeprom_page_write (address : bytes) (data : bytes)
    (command : option bytes) (write_enable : bool * bytes) : M (bytes * bytes) :=
  (if fst write_enable then port_write (snd write_enable) else ret tt) ;;;
  port_write (or_empty command ++ address ++ data) ;;;
  next <- lift (int_to_bytes (int_from_bytes address + Z.of_nat (length data))
                             (length address)) ;;
  ret (data, next).

Definition eeprom_write (address : bytes) (data : bytes)
    (command : option bytes) : M (bytes * bytes) :=
  port_write (or_empty command ++ address ++ data) ;;;
  next <- lift (int_to_bytes (int_from_bytes address + 1) (length address)) ;;
  ret (data, next).

Definition eeprom_read (address : bytes) (n : Z)
    (command : option bytes) : M (bytes * bytes) :=
  port_write (or_empty command ++ address) ;;;
  got <- port_read n ;;
  next <- lift (int_to_bytes (int_from_bytes address + n) (length address)) ;;
  ret (got, next).

(** ** Python text

    A [str] is a [string]; its characters are code points below 256. *)

Definition code (c : ascii) : Z := Z.of_N (N_of_ascii c).

Definition chr (z : Z) : ascii := ascii_of_N (Z.to_N z).

Definition between (lo hi z : Z) : bool := (lo <=? z) && (z <=? hi).

(** [c.isspace()], the characters that [str.strip()] removes. *)
Definition py_isspace (c : ascii) : bool :=
  let n := code c in
  between 9 13 n || between 28 32 n || (n =? 133) || (n =? 160).

(** C's [Py_ISSPACE], the characters that [bytes.fromhex] skips. *)
Definition c_isspace (c : ascii) : bool :=
  let n := code c in
  between 9 13 n || (n =? 32).

(** One character of [str.lower()]. *)
Definition lower_char (c : ascii) : ascii :=
  let n := code c in
  if between 65 90 n then chr (n + 32)
  else if between 192 222 n && negb (n =? 215) then chr (n + 32)
  else c.

(** The value of a hexadecimal digit. *)
Definition hex_digit (c : ascii) : option Z :=
  let n := code c in
  if between 48 57 n then Some (n - 48)
  else if between 97 102 n then Some (n - 87)
  else if between 65 70 n then Some (n - 55)
  else None.

Definition is_hex (c : ascii) : bool :=
  match hex_digit c with Some _ => true | None => false end.

Fixpoint drop_while {A} (f : A -> bool) (l : list A) : list A :=
  match l with
  | [] => []
  | x :: r => if f x then drop_while f r else l
  end.

Definition lstrip (s : list ascii) : list ascii := drop_while py_isspace s.

Definition rstrip (s : list ascii) : list ascii := rev (drop_while py_isspace (rev s)).

(** [s.strip()] *)
Definition strip (s : list ascii) : list ascii := rstrip (lstrip s).

(** [s.lower()] *)
Definition lower (s : list ascii) : list ascii := map lower_char s.

(** [s.startswith(p)] *)
Fixpoint startswith (p s : list ascii) : bool :=
  match p, s with
  | [], _ => true
  | _ :: _, [] => false
  | a :: p', b :: s' => Ascii.eqb a b && startswith p' s'
  end.

Definition decimal (n : nat) : string := NilEmpty.string_of_uint (Nat.to_uint n).

Definition fromhex_msg (pos : nat) : string :=
  ("non-hexadecimal number found in fromhex() arg at position " ++ decimal pos)%string.

(** Index of the first character of [s] that is not ASCII. *)
Fixpoint first_non_ascii (pos : nat) (s : list ascii) : option nat :=
  match s with
  | [] => None
  | c :: r => if 128 <=? code c then Some pos else first_non_ascii (S pos) r
  end.

(** The scan of [bytes.fromhex]: white space is skipped between bytes, and
    every byte is two adjacent hexadecimal digits. *)
Fixpoint fromhex_at (pos : nat) (s : list ascii) : result bytes :=
  match s with
  | [] => Ok []
  | c :: r =>
      if c_isspace c then fromhex_at (S pos) r
      else
        match hex_digit c with
        | None => Raise (ValueError (fromhex_msg pos))
        | Some top =>
            match r with
            | [] => Raise (ValueError (fromhex_msg (S pos)))
            | d :: r' =>
                match hex_digit d with
                | None => Raise (ValueError (fromhex_msg (S pos)))
                | Some bot =>
                    match fromhex_at (S (S pos)) r' with
                    | Ok bs => Ok (byte_of_Z (16 * top + bot) :: bs)
                    | Raise e => Raise e
                    end
                end
            end
        end
  end.

(** [bytes.fromhex(s)] *)
Definition bytes_fromhex (s : list ascii) : result bytes :=
  match first_non_ascii 0 s with
  | Some pos => Raise (ValueError (fromhex_msg pos))
  | None => fromhex_at 0 s
  end.

(** ** The address codec *)

(** The text that [byte_address_parse] hands to [bytes.fromhex]: stripped,
    lower-cased, and without a leading ["0x"]. *)
Definition address_digits (byte_str : list ascii) : list ascii :=
  let byte_str := lower (strip byte_str) in
  if startswith (list_ascii_of_string "0x") byte_str then skipn 2 byte_str
  else byte_str.

Definition range_msg : string := "byte_str larger than max_size".

Definition byte_address_parse (byte_str : string) (max_size : option Z)
    : result bytes :=
  match bytes_fromhex (address_digits (list_ascii_of_string byte_str)) with
  | Raise e => Raise e
  | Ok byte =>
      match max_size with
      | Some m =>
          if int_from_bytes byte >=? m then Raise (ValueError range_msg)
          else Ok byte
      | None => Ok byte
      end
  end.

(** ** The device table *)

(** The function that a menu entry of [manual_mode] calls, with the
    arguments its closure fixes; the address and the data are read from the
    terminal when the entry is chosen. *)
Inductive action : Type :=
| PageWriteAction (command : option bytes) (write_enable : bool * bytes)
| SingleWriteAction (command : option bytes)
| ReadAction (command : option bytes).

(** The dictionary that [i2c_protocol_parse] returns; ["commands"] keeps
    its keys in insertion order. *)
Record DeviceProtocol : Type := mkProtocol {
  device : string;
  address_size : Z;
  page_size : Z;
  write_enable : bool * bytes;
  commands : list (string * (action * option bytes))
}.

Definition i2c_protocol_parse (device : string) : result DeviceProtocol :=
  if String.eqb device "24LC32" then
    Ok (mkProtocol device 12 32 (false, [])
          [ ("Page Write"%string, (PageWriteAction None (false, []), None));
            ("Single Write"%string, (SingleWriteAction None, None));
            ("Read"%string, (ReadAction None, None)) ])
  else if String.eqb device "ZL30267" then
    Ok (mkProtocol device 12 32 (true, [x06])
          [ ("Page Write"%string,
              (PageWriteAction (Some [x02]) (true, [x06]), Some [x02]));
            ("Read"%string, (ReadAction (Some [x03]), Some [x03])) ])
  else Raise (ValueError "Invalid Device").

(** [commands[key]] *)
Fixpoint getitem {V} (d : list (string * V)) (key : string) : result V :=
  match d with
  | [] => Raise (KeyError key)
  | (k, v) :: r => if String.eqb k key then Ok v else getitem r key
  end.

(** ** The image codec *)

(** [s.rfind(c)], from position [i] on, [best] being the last index found. *)
Fixpoint rfind_from (c : ascii) (i best : Z) (s : list ascii) : Z :=
  match s with
  | [] => best
  | x :: r => rfind_from c (i + 1) (if Ascii.eqb x c then i else best) r
  end.

Definition rfind (c : ascii) (s : list ascii) : Z := rfind_from c 0 (-1) s.

(** [l[lo:hi]] *)
Definition py_slice {A} (l : list A) (lo hi : Z) : list A :=
  let len := Z.of_nat (length l) in
  let clamp x := if x <? 0 then Z.max (x + len) 0 else Z.min x len in
  firstn (Z.to_nat (clamp hi - clamp lo)) (skipn (Z.to_nat (clamp lo)) l).

(** [os.path.splitext(p)[1]] on a POSIX system: the extension starts at the
    last dot of the last path component, unless that component has only
    dots before it. *)
Definition splitext_ext (p : list ascii) : list ascii :=
  let sepIndex := rfind "/" p in
  let dotIndex := rfind "." p in
  if sepIndex <? dotIndex then
    if existsb (fun c => negb (Ascii.eqb c "."))
               (py_slice p (sepIndex + 1) dotIndex)
    then skipn (Z.to_nat dotIndex) p
    else []
  else [].

(** What [open(file_name, "r")] and the reading of the file do.  The
    opening fails with one of three kinds of [OSError], or it is refused
    with any other exception (a [ValueError] for a path with a NUL
    character in it); or the file gives its lines, each with its line end:
    all of them, or some of them before the reading breaks with an
    exception (a [UnicodeDecodeError], which is a [ValueError], for bytes
    that are no text, an [OSError] for a device that fails).  The text of
    a line has characters below code point 256 only. *)
Inductive opened : Type :=
| NotFound (msg : string)
| Denied (msg : string)
| IOFailure (msg : string)
| Lines (lines : list string)
| Refused (e : exn)
| Broken (lines : list string) (e : exn).

Definition filesystem := string -> opened.

Definition hex2 (n : Z) : string :=
  let d k := chr (if k <? 10 then 48 + k else 87 + k) in
  String (d (n / 16)) (String (d (n mod 16)) EmptyString).

Definition backslash : ascii := chr 92.

Definition dquote : ascii := chr 34.

(** [repr(s)] of a [str] *)
Definition py_repr (s : list ascii) : string :=
  let has c := existsb (Ascii.eqb c) s in
  let quote : ascii := if has "'"%char && negb (has dquote) then dquote else "'"%char in
  let esc (c : ascii) : string :=
    let n := code c in
    if Ascii.eqb c backslash || Ascii.eqb c quote
    then String backslash (String c EmptyString)
    else if n =? 9 then String backslash "t"
    else if n =? 10 then String backslash "n"
    else if n =? 13 then String backslash "r"
    else if (n <? 32) || between 127 160 n || (n =? 173)
    then String backslash (String "x" (hex2 n))
    else String c EmptyString in
  (String quote (String.concat EmptyString (map esc s))
   ++ String quote EmptyString)%string.

(** [str(e)] *)
Definition exn_str (e : exn) : string :=
  match e with
  | KeyError key => py_repr (list_ascii_of_string key)
  | ValueError m | TypeError m | OverflowError m
  | FileNotFoundError m | PermissionError m | OSError m
  | I2cNackError m | I2cIOError m => m
  end.

(** White space for [int()]: [Py_ISSPACE], and the two other spaces below
    256, which [int()] turns into blanks first. *)
Definition int_isspace (c : ascii) : bool :=
  c_isspace c || (code c =? 133) || (code c =? 160).

(** The digits of [int(s, 16)]: hexadecimal digits, any two groups of them
    separated by one underscore.  [prev_us] says that the character before
    was an underscore, [seen] that at least one character was taken; the
    result is the value and the text left over. *)
Fixpoint scan_digits (prev_us seen : bool) (acc : Z) (s : list ascii)
    : option (Z * bool * list ascii) :=
  match s with
  | [] => if prev_us then None else Some (acc, seen, [])
  | c :: r =>
      if Ascii.eqb c "_" then
        if prev_us then None else scan_digits true true acc r
      else
        match hex_digit c with
        | Some d => scan_digits false true (16 * acc + d) r
        | None => if prev_us then None else Some (acc, seen, s)
        end
  end.

(** [int(s, 16)] *)
Definition py_int16 (s : list ascii) : result Z :=
  let bad := Raise (ValueError
    ("invalid literal for int() with base 16: " ++ py_repr s)%string) in
  let s1 := drop_while int_isspace s in
  let '(sign, s2) :=
    match s1 with
    | "+"%char :: r => (1, r)
    | "-"%char :: r => (-1, r)
    | _ => (1, s1)
    end in
  let s3 :=
    match s2 with
    | "0"%char :: x :: r =>
        if Ascii.eqb x "x" || Ascii.eqb x "X" then
          match r with
          | "_"%char :: r' => r'
          | _ => r
          end
        else s2
    | _ => s2
    end in
  match s3 with
  | "_"%char :: _ => bad
  | _ =>
      match scan_digits false false 0 s3 with
      | Some (v, true, rest) =>
          match drop_while int_isspace rest with
          | [] => Ok (sign * v)
          | _ :: _ => bad
          end
      | _ => bad
      end
  end.

(** The loop over the lines of the file. *)
Fixpoint image_lines (lines : list string) (out : bytes) : result bytes :=
  match lines with
  | [] => Ok out
  | line :: r =>
      let line := list_ascii_of_string line in
      if existsb (Ascii.eqb ";") line then image_lines r out
      else
        match py_int16 line with
        | Raise e => Raise e
        | Ok v =>
            match int_to_bytes v 1 with
            | Raise e => Raise e
            | Ok b => image_lines r (out ++ b)
            end
        end
  end.

(** [os.path.splitext(file_name)[1]] *)
Definition extension (file_name : string) : string :=
  string_of_list_ascii (splitext_ext (list_ascii_of_string file_name)).

(** The body of the [try] statement, together with the paths it opened. *)
Definition image_parse_try (fs : filesystem) (file_name : string)
    : result bytes * list string :=
  if negb (String.eqb (extension file_name) ".txt")
  then (Raise (ValueError "Invalid file extension"), [])
  else
    (match fs file_name with
     | NotFound m => Raise (FileNotFoundError m)
     | Denied m => Raise (PermissionError m)
     | IOFailure m => Raise (OSError m)
     | Lines lines => image_lines lines []
     | Refused e => Raise e
     | Broken lines e =>
         match image_lines lines [] with
         | Ok _ => Raise e
         | Raise e' => Raise e'
         end
     end, [file_name]).

(** The [except] clauses, in their order; the exceptions of [pyftdi] are
    subclasses of [IOError]. *)
Definition image_parse_except (file_name : string) (e : exn) : exn :=
  match e with
  | FileNotFoundError _ =>
      ValueError ("Error: The file '" ++ file_name ++ "' was not found.")
  | PermissionError _ =>
      ValueError ("Error: You do not have permission to access '"
                  ++ file_name ++ "'.")
  | OSError m | I2cNackError m | I2cIOError m =>
      ValueError ("Error: An I/O error occurred while opening '"
                  ++ file_name ++ "': " ++ m)
  | _ => TypeError ("An unexpected error occurred: " ++ exn_str e)
  end%string.

Definition zl_eeprom_image_parse (fs : filesystem) (file_name : string)
    : result bytes * list string :=
  match image_parse_try fs file_name with
  | (Ok image, opens) => (Ok image, opens)
  | (Raise e, opens) => (Raise (image_parse_except file_name e), opens)
  end.

(** ** Flashing an image *)

(** [range(start, stop, step)] *)
Definition py_range (start stop step : Z) : result (list Z) :=
  if step =? 0 then Raise (ValueError "range() arg 3 must not be zero")
  else
    let count :=
      if 0 <? step then (stop - start + step - 1) / step
      else (start - stop - step - 1) / (- step) in
    Ok (map (fun k => start + Z.of_nat k * step) (seq 0 (Z.to_nat count))).

Definition bytes_eqb (a b : bytes) : bool :=
  if list_eq_dec Byte.byte_eq_dec a b then true else false.

Definition eeprom_i2c_config (device : string) : M unit :=
  if String.eqb device "ZL30267" then
    eeprom_write [x00; x00] [x80] (Some [x02]) ;;; ret tt
  else ret tt.

(** The fields of the [argparse.Namespace] that [file_mode] reads. *)
Record Namespace : Type := mkArgs {
  args_device : DeviceProtocol;
  args_image : option bytes
}.

(** The body of the [for] loop of [file_mode], once for every [i]. *)
Fixpoint write_pages (args : Namespace) (image : bytes) (cur_address : bytes)
    (indices : list Z) : M bytes :=
  match indices with
  | [] => ret cur_address
  | i :: rest =>
      let page_size := page_size (args_device args) in
      page_write <- lift (getitem (commands (args_device args)) "Page Write") ;;
      out <- eeprom_page_write cur_address
               (py_slice image i (i + page_size))
               (snd page_write)
               (write_enable (args_device args)) ;;
      write_pages args image (snd out) rest
  end.

Definition success_msg : string := "Successful eeprom flash".

Definition mismatch_msg : string := "Unseccessful eeprom flash".

(** The read-back and the comparison that end [file_mode]. *)
Definition verify (args : Namespace) (image : bytes) : M string :=
  read <- lift (getitem (commands (args_device args)) "Read") ;;
  out <- eeprom_read [x00; x00] (Z.of_nat (length image)) (snd read) ;;
  let cur_eeprom_data := fst out in
  if bytes_eqb cur_eeprom_data image then ret success_msg
  else ret mismatch_msg.

(** The first part of [file_mode], up to the end of the [for] loop: the
    device is configured, the image is taken from the arguments or parsed
    from the file at the path [typed] by the user, and the pages are
    written.  [fs] is the file system; what is printed is left out, and so
    is the pause after a page. *)
Definition writing (fs : filesystem) (typed : string) (args : Namespace)
    : M bytes :=
  eeprom_i2c_config (device (args_device args)) ;;;
  let page_size := page_size (args_device args) in
  let cur_address := [x00; x00] in
  image <- match args_image args with
           | None => lift (fst (zl_eeprom_image_parse fs typed))
           | Some image => ret image
           end ;;
  indices <- lift (py_range 0 (Z.of_nat (length image)) page_size) ;;
  write_pages args image cur_address indices ;;;
  ret image.

(** [file_mode(eeprom, args)] *)
Definition file_mode (fs : filesystem) (typed : string) (args : Namespace)
    : M string :=
  image <- writing fs typed args ;;
  verify args image.

(** * Vocabulary of the properties *)

(** The port [p] after the calls [evs]. *)
Definition after (p : I2cPort) (evs : list event) : I2cPort :=
  mkPort (on_write p) (on_read p) (history p ++ evs).

(** The port acknowledges the write of [out] in its present state. *)
Definition acks (p : I2cPort) (out : bytes) : Prop :=
  on_write p (history p) out = None.

(** The port acknowledges every write, whatever came before. *)
Definition acks_all (p : I2cPort) : Prop :=
  forall h out, on_write p h out = None.

(** The calls that the write-enable setting adds before a write. *)
Definition enable_events (write_enable : bool * bytes) : list event :=
  if fst write_enable then [EvWrite (snd write_enable)] else [].

(** A port that acknowledges every write and answers every read with
    [reply]. *)
Definition ideal_port (reply : bytes) : I2cPort :=
  mkPort (fun _ _ => None) (fun _ _ => Ok reply) [].

Definition nack : exn := I2cNackError "NACK from slave".

(** A port that acknowledges its first [k] calls and none after them. *)
Definition deaf_after (k : nat) : I2cPort :=
  mkPort (fun h _ => if (length h <? k)%nat then None else Some nack)
         (fun h _ => if (length h <? k)%nat then Ok [] else Raise nack)
         [].

(** The number that a sequence of hexadecimal digits denotes. *)
Definition digit_value (c : ascii) : Z :=
  match hex_digit c with Some v => v | None => 0 end.

Definition hex_value (ds : list ascii) : Z :=
  fold_left (fun acc c => 16 * acc + digit_value c) ds 0.

(** How many hexadecimal digits a text has. *)
Definition count_hex (s : list ascii) : nat := length (filter is_hex s).

(** The least number of bytes in which [n] can be written. *)
Definition min_width (n : Z) : nat :=
  if n <=? 0 then 0%nat else Z.to_nat (Z.log2 n / 8 + 1).

(** The prefixes that the parser removes: none, or ["0x"] in either case. *)
Definition hex_prefix (pre : list ascii) : Prop :=
  pre = [] \/ pre = list_ascii_of_string "0x" \/ pre = list_ascii_of_string "0X".

(** A line that the image parser skips has a semicolon somewhere. *)
Definition is_comment (line : string) : bool :=
  existsb (Ascii.eqb ";") (list_ascii_of_string line).

(** The line [line] reads as the byte [b]. *)
Definition byte_line (line : string) (b : byte) : Prop :=
  py_int16 (list_ascii_of_string line) = Ok (byte_val b).

Definition newline : ascii := chr 10.

(** The text of one or two characters, with or without a line end. *)
Definition text1 (c : ascii) (nl : bool) : string :=
  String c (if nl then String newline EmptyString else EmptyString).

Definition text2 (c d : ascii) (nl : bool) : string :=
  String c (text1 d nl).

Definition extension_msg : string :=
  "An unexpected error occurred: Invalid file extension".

(** The lines of the example of the specification. *)
Definition example_lines : list string :=
  ["02"; "; comment"; "0A"; "FF"]%string.

(** The call that [eeprom_i2c_config] makes. *)
Definition config_events (proto : DeviceProtocol) : list event :=
  if String.eqb (device proto) "ZL30267" then [EvWrite [x02; x00; x00; x80]]
  else [].

(** The pages of an image: for page [k], its offset and its bytes.  There
    are len / page_size of them, rounded up. *)
Definition page_count (page_size : Z) (image : bytes) : nat :=
  Z.to_nat ((Z.of_nat (length image) + page_size - 1) / page_size).

Definition nth_page (page_size : Z) (image : bytes) (k : nat) : Z * bytes :=
  (Z.of_nat k * page_size,
   firstn (Z.to_nat page_size) (skipn (k * Z.to_nat page_size) image)).

Definition pages (page_size : Z) (image : bytes) : list (Z * bytes) :=
  map (nth_page page_size image) (seq 0 (page_count page_size image)).

(** The calls of one page write of the device [proto]: the write-enable
    sequence if the device has one, then opcode, two-byte address, data. *)
Definition page_events (proto : DeviceProtocol) (command : option bytes)
    (page : Z * bytes) : list event :=
  enable_events (write_enable proto)
  ++ [EvWrite (or_empty command ++ be_digits 2 (fst page) ++ snd page)].

(** The image that [file_mode] flashes. *)
Definition image_of (fs : filesystem) (typed : string) (args : Namespace)
    (image : bytes) : Prop :=
  match args_image args with
  | Some given => given = image
  | None => fst (zl_eeprom_image_parse fs typed) = Ok image
  end.

(** The descriptor of a device of the table. *)
Definition descriptor (name : string) : DeviceProtocol :=
  match i2c_protocol_parse name with
  | Ok proto => proto
  | Raise _ => mkProtocol name 0 0 (false, []) []
  end.

(** A file system without files. *)
Definition no_files : filesystem :=
  fun _ => NotFound "No such file or directory".

(** The number of pages that start below 65536, the end of the range of a
    two-byte address. *)
Definition reachable_pages (page_size : Z) : nat :=
  Z.to_nat ((65536 + page_size - 1) / page_size).

(** * More of the program *)

(** ** Hexadecimal text of bytes *)

Definition hex_char (k : Z) : ascii := chr (if k <? 10 then 48 + k else 87 + k).

Definition byte_hex (b : byte) : list ascii :=
  [hex_char (byte_val b / 16); hex_char (byte_val b mod 16)].

(** [bs.hex()] when [sep] is [None], [bs.hex(sep)] otherwise: two digits
    for a byte, the separator between two bytes. *)
Fixpoint bytes_hex (sep : option ascii) (bs : bytes) : list ascii :=
  match bs with
  | [] => []
  | b :: r =>
      match r with
      | [] => byte_hex b
      | _ :: _ =>
          byte_hex b
          ++ match sep with Some c => [c] | None => [] end
          ++ bytes_hex sep r
      end
  end.

(** ** The steps of [int(s, 16)], named *)

(** The sign that [int()] takes off, and the text after it. *)
Definition int_sign (s1 : list ascii) : Z * list ascii :=
  match s1 with
  | "+"%char :: r => (1, r)
  | "-"%char :: r => (-1, r)
  | _ => (1, s1)
  end.

(** The text after the ["0x"] that [int(s, 16)] allows, and after one
    underscore behind it. *)
Definition int_prefix (s2 : list ascii) : list ascii :=
  match s2 with
  | "0"%char :: x :: r =>
      if Ascii.eqb x "x" || Ascii.eqb x "X" then
        match r with
        | "_"%char :: r' => r'
        | _ => r
        end
      else s2
  | _ => s2
  end.

(** The characters below code point 256 that a text read by [int(s, 16)]
    can have. *)
Definition int_alphabet (c : ascii) : bool :=
  is_hex c || int_isspace c
  || existsb (Ascii.eqb c) (list_ascii_of_string "+-_xX").

(** A line of the image file made of the digits [ds], with or without its
    line end. *)
Definition digit_line (ds : list ascii) (nl : bool) : string :=
  string_of_list_ascii (ds ++ if nl then [newline] else []).

(** The directory part of a path: nothing, or a text that ends with a
    slash. *)
Definition dir_part (dir : list ascii) : Prop :=
  dir = [] \/ exists d, dir = d ++ ["/"%char].

(** The path made of a directory part, a stem and the ending [.txt]. *)
Definition txt_path (dir stem : list ascii) : string :=
  string_of_list_ascii (dir ++ stem ++ list_ascii_of_string ".txt").

(** The port acknowledges the writes made while fewer than [n] further
    calls are in its history, and refuses with [e] the write made when
    there are exactly [n]. *)
Definition fails_at (p : I2cPort) (n : nat) (e : exn) : Prop :=
  (forall h out,
     (length h < length (history p) + n)%nat -> on_write p h out = None)
  /\ (forall h out,
        length h = (length (history p) + n)%nat -> on_write p h out = Some e).

(** All the writes of the first part of [file_mode], in order. *)
Definition flash_writes (proto : DeviceProtocol) (command : option bytes)
    (image : bytes) : list event :=
  config_events proto
  ++ flat_map (page_events proto command) (pages (page_size proto) image).

(** ** The menus

    What the user types is a list of lines, read one by one by [input()];
    [input()] raises [EOFError] when the list is used up.  What is printed
    is left out. *)

(** [c.isnumeric()] for a character below 256: the digits, the superscripts
    one to three and the three fractions. *)
Definition isnumeric_char (c : ascii) : bool :=
  let n := code c in
  between 48 57 n || (n =? 178) || (n =? 179) || (n =? 185) || between 188 190 n.

(** [s.isnumeric()] *)
Definition py_isnumeric (s : list ascii) : bool :=
  match s with
  | [] => false
  | _ :: _ => forallb isnumeric_char s
  end.

Definition dec_digit (c : ascii) : option Z :=
  let n := code c in
  if between 48 57 n then Some (n - 48) else None.

(** The digits of [int(s)]: decimal digits, any two groups of them separated
    by one underscore; [count] counts the digits. *)
Fixpoint scan_decimal (prev_us : bool) (count : nat) (acc : Z)
    (s : list ascii) : option (Z * nat * list ascii) :=
  match s with
  | [] => if prev_us then None else Some (acc, count, [])
  | c :: r =>
      if Ascii.eqb c "_" then
        if prev_us then None else scan_decimal true count acc r
      else
        match dec_digit c with
        | Some d => scan_decimal false (S count) (10 * acc + d) r
        | None => if prev_us then None else Some (acc, count, s)
        end
  end.

(** [sys.int_info.default_max_str_digits] *)
Definition max_str_digits : nat := 4300.

Definition limit_msg (count : nat) : string :=
  ("Exceeds the limit (4300 digits) for integer string conversion: value has "
   ++ decimal count
   ++ " digits; use sys.set_int_max_str_digits() to increase the limit")%string.

Definition starts_with_underscore (s : list ascii) : bool :=
  match s with
  | c :: _ => Ascii.eqb c "_"
  | [] => false
  end.

(** [int(s)] *)
Definition py_int10 (s : list ascii) : result Z :=
  let bad := Raise (ValueError
    ("invalid literal for int() with base 10: " ++ py_repr s)%string) in
  let '(sign, s2) := int_sign (drop_while int_isspace s) in
  if starts_with_underscore s2 then bad
  else
    match scan_decimal false 0 0 s2 with
    | Some (v, count, rest) =>
        if (count =? 0)%nat then bad
        else if (max_str_digits <? count)%nat
        then Raise (ValueError (limit_msg count))
        else
          match drop_while int_isspace rest with
          | [] => Ok (sign * v)
          | _ :: _ => bad
          end
    | None => bad
    end.

(** How a function that reads from the terminal ends: it returns, it
    raises, it lets the [EOFError] of [input()] through, or it never
    returns. *)
Inductive outcome (A : Type) : Type :=
| Returns (a : A)
| Raises (e : exn)
| EndOfInput
| Hangs.
Arguments Returns {A} a.
Arguments Raises {A} e.
Arguments EndOfInput {A}.
Arguments Hangs {A}.

(** [opts[numopt]] for an index inside the list *)
Definition item (opts : list string) (numopt : Z) : string :=
  nth (Z.to_nat numopt) opts EmptyString.

(** [parse_options(choice, opts)], with the lines typed and the lines left.
    Every exception inside the loop is caught and the question is asked
    again; that holds for the [EOFError] of [input()] too, so at the end of
    the input the loop never ends. *)
Fixpoint parse_options (choice : string) (opts : list string)
    (stdin : list string) : outcome string * list string :=
  match stdin with
  | [] => (Hangs, [])
  | opt :: rest =>
      if py_isnumeric (list_ascii_of_string opt) then
        match py_int10 (list_ascii_of_string opt) with
        | Ok n =>
            let numopt := n - 1 in
            if (0 <=? numopt) && (numopt <? Z.of_nat (length opts))
            then (Returns (item opts numopt), rest)
            else parse_options choice opts rest
        | Raise _ => parse_options choice opts rest
        end
      else (Returns "q"%string, rest)
  end.

(** Computations on the terminal and the port. *)
Definition IO (A : Type) : Type :=
  list string -> I2cPort -> outcome A * list string * I2cPort.

Definition io_ret {A} (a : A) : IO A := fun stdin p => (Returns a, stdin, p).

Definition io_bind {A B} (c : IO A) (k : A -> IO B) : IO B :=
  fun stdin p =>
    match c stdin p with
    | (Returns a, stdin', p') => k a stdin' p'
    | (Raises e, stdin', p') => (Raises e, stdin', p')
    | (EndOfInput, stdin', p') => (EndOfInput, stdin', p')
    | (Hangs, stdin', p') => (Hangs, stdin', p')
    end.

(** [input(prompt)] *)
Definition io_input : IO string :=
  fun stdin p =>
    match stdin with
    | [] => (EndOfInput, [], p)
    | line :: rest => (Returns line, rest, p)
    end.

Definition io_result {A} (r : result A) : IO A :=
  fun stdin p =>
    match r with
    | Ok a => (Returns a, stdin, p)
    | Raise e => (Raises e, stdin, p)
    end.

(** A computation on the port alone. *)
Definition io_port {A} (c : M A) : IO A :=
  fun stdin p =>
    match c p with
    | (Ok a, p') => (Returns a, stdin, p')
    | (Raise e, p') => (Raises e, stdin, p')
    end.

Definition io_menu (choice : string) (opts : list string) : IO string :=
  fun stdin p =>
    let '(r, stdin') := parse_options choice opts stdin in (r, stdin', p).

Notation "x <~ c ;; k" := (io_bind c (fun x => k))
  (at level 61, c at next level, right associativity).

(** What the closure of a menu entry does when it is called: it asks for
    the address, then for the data or the count, and calls the transactor
    with the arguments that [i2c_protocol_parse] fixed. *)
Definition run_action (act : action) : IO (bytes * bytes) :=
  match act with
  | PageWriteAction command write_enable =>
      a <~ io_input ;;
      address <~ io_result (byte_address_parse a (Some (2 ^ 12))) ;;
      d <~ io_input ;;
      data <~ io_result (bytes_fromhex (list_ascii_of_string d)) ;;
      io_port (eeprom_page_write address data command write_enable)
  | SingleWriteAction command =>
      a <~ io_input ;;
      address <~ io_result (byte_address_parse a (Some (2 ^ 12))) ;;
      d <~ io_input ;;
      data <~ io_result (byte_address_parse d None) ;;
      io_port (eeprom_write address data command)
  | ReadAction command =>
      a <~ io_input ;;
      address <~ io_result (byte_address_parse a (Some (2 ^ 12))) ;;
      d <~ io_input ;;
      n <~ io_result (py_int10 (list_ascii_of_string d)) ;;
      io_port (eeprom_read address n command)
  end.

Definition quit_msg : string := "Program quit".

Definition menu_question : string :=
  "Pick a command to run on the eeprom, current address is ".

(** The [while True] loop of [manual_mode].  Every turn reads at least one
    line, so [fuel] turns are enough when [fuel] is more than the number of
    lines left: see [manual_loop_fuel].  The question is only printed; it
    is passed on without the address that the source appends to it. *)
Fixpoint manual_loop (fuel : nat) (args : Namespace) (cur_address : bytes)
    : IO string :=
  match fuel with
  | O => fun stdin p => (Hangs, stdin, p)
  | S fuel' =>
      opt <~ io_menu menu_question
               (map fst (commands (args_device args))) ;;
      if String.eqb opt "q" then io_ret quit_msg
      else
        entry <~ io_result (getitem (commands (args_device args)) opt) ;;
        out <~ run_action (fst entry) ;;
        manual_loop fuel' args (snd out)
  end.

(** [manual_mode(eeprom, args)] *)
Definition manual_mode (args : Namespace) : IO string :=
  _ <~ io_port (eeprom_i2c_config (device (args_device args))) ;;
  fun stdin => manual_loop (S (length stdin)) args [x00; x00] stdin.

(** Words for the statements about the menus. *)
Definition is_digit (c : ascii) : bool := between 48 57 (code c).

(** The number that a text of decimal digits writes. *)
Definition decimal_value (ds : list ascii) : Z :=
  fold_left (fun acc c => 10 * acc + (code c - 48)) ds 0.

Definition numeric_line (line : string) : bool :=
  py_isnumeric (list_ascii_of_string line).

Definition digit_lineb (line : string) : bool :=
  forallb is_digit (list_ascii_of_string line)
  && (String.length line <=? max_str_digits)%nat.

Definition line_value (line : string) : Z :=
  decimal_value (list_ascii_of_string line).

(** The line is the number of the entry [name] in the menu of the device,
    counted from 1. *)
Definition picks (proto : DeviceProtocol) (line : string) (name : string)
    (entry : action * option bytes) : Prop :=
  numeric_line line = true
  /\ digit_lineb line = true
  /\ 1 <= line_value line
  /\ nth_error (commands proto) (Z.to_nat (line_value line - 1))
     = Some (name, entry).


(** ** The text of a byte

    What a line of an image must be to stand for a byte, said without the
    reader of the program: after the white space at both ends is taken
    away, an optional sign, an optional ["0x"] or ["0X"] with one optional
    underscore behind it, and then hexadecimal digits, in groups separated
    by single underscores; the value is at least 0 and below 256. *)

(** The text without the white space of [int()] at its two ends. *)
Definition trim (s : list ascii) : list ascii :=
  rev (drop_while int_isspace (rev (drop_while int_isspace s))).

(** [s.split(sep)]: the first part and the parts after it. *)
Fixpoint split_on (sep : ascii) (s : list ascii)
    : list ascii * list (list ascii) :=
  match s with
  | [] => ([], [])
  | c :: r =>
      let '(g, gs) := split_on sep r in
      if Ascii.eqb c sep then ([], g :: gs) else (c :: g, gs)
  end.

Definition digit_group (g : list ascii) : bool :=
  match g with
  | [] => false
  | _ :: _ => forallb is_hex g
  end.

(** The digits of a text made of groups of digits with single underscores
    between them. *)
Definition digit_groups (body : list ascii) : option (list ascii) :=
  let '(g, gs) := split_on "_" body in
  if forallb digit_group (g :: gs) then Some (concat (g :: gs)) else None.

Definition numeral (s : list ascii) : option Z :=
  let '(sign, t) := int_sign (trim s) in
  match digit_groups (int_prefix t) with
  | Some ds => Some (sign * hex_value ds)
  | None => None
  end.

Definition byte_text (line : string) : option byte :=
  match numeral (list_ascii_of_string line) with
  | Some v => if (0 <=? v) && (v <? 256) then Some (byte_of_Z v) else None
  | None => None
  end.

(** The lines of a file that count: those without a semicolon. *)
Definition content (lines : list string) : list string :=
  filter (fun l => negb (is_comment l)) lines.

(** Every line that counts is the text of a byte. *)
Definition well_formed (lines : list string) : bool :=
  forallb (fun l => match byte_text l with Some _ => true | None => false end)
          (content lines).

(** The exception with which the opening or the reading of a file fails,
    and the lines read before it. *)
Definition file_failure (o : opened) : option exn :=
  match o with
  | NotFound m => Some (FileNotFoundError m)
  | Denied m => Some (PermissionError m)
  | IOFailure m => Some (OSError m)
  | Refused e | Broken _ e => Some e
  | Lines _ => None
  end.

Definition lines_read (o : opened) : list string :=
  match o with
  | Lines lines | Broken lines _ => lines
  | _ => []
  end.

(** The exceptions that the clauses for [FileNotFoundError],
    [PermissionError] and [IOError] catch. *)
Definition os_error (e : exn) : bool :=
  match e with
  | FileNotFoundError _ | PermissionError _ | OSError _
  | I2cNackError _ | I2cIOError _ => true
  | _ => false
  end.

(** The text of the [ValueError] for a file that cannot be read. *)
Definition access_msg (file_name : string) (cause : exn) : string :=
  match cause with
  | FileNotFoundError _ =>
      "Error: The file '" ++ file_name ++ "' was not found."
  | PermissionError _ =>
      "Error: You do not have permission to access '" ++ file_name ++ "'."
  | _ =>
      "Error: An I/O error occurred while opening '" ++ file_name ++ "': "
      ++ exn_str cause
  end%string.

(** A file whose opening is refused because of its name. *)
Definition null_byte : exn := ValueError "embedded null byte".
(** * Properties *)

(** ** Bytes and integers *)

Lemma byte_val_range (b : byte) : 0 <= byte_val b < 256.
Proof.
  unfold byte_val. pose proof (Byte.to_N_bounded b). lia.
Qed.

Lemma byte_val_of_Z (z : Z) : 0 <= z < 256 -> byte_val (byte_of_Z z) = z.
Proof.
  intros Hz. unfold byte_val, byte_of_Z.
  destruct (Byte.of_N (Z.to_N z)) as [b|] eqn:E.
  - apply Byte.to_of_N in E. rewrite E. lia.
  - apply Byte.of_N_None_iff in E. lia.
Qed.

Lemma be_digits_length (len : nat) (n : Z) : length (be_digits len n) = len.
Proof.
  revert n. induction len as [|k IH]; intros n; simpl.
  - reflexivity.
  - rewrite length_app, IH. simpl. lia.
Qed.

Lemma fold_from_bytes_app (a b : bytes) (acc : Z) :
  fold_left (fun acc b => acc * 256 + byte_val b) (a ++ b) acc =
  fold_left (fun acc b => acc * 256 + byte_val b) b
    (fold_left (fun acc b => acc * 256 + byte_val b) a acc).
Proof. apply fold_left_app. Qed.

Lemma int_from_bytes_snoc (a : bytes) (b : byte) :
  int_from_bytes (a ++ [b]) = int_from_bytes a * 256 + byte_val b.
Proof.
  unfold int_from_bytes. rewrite fold_from_bytes_app. reflexivity.
Qed.

Lemma int_from_be_digits (len : nat) (n : Z) :
  0 <= n < 256 ^ Z.of_nat len -> int_from_bytes (be_digits len n) = n.
Proof.
  revert n. induction len as [|k IH]; intros n Hn.
  - simpl in *. change (int_from_bytes []) with 0. lia.
  - simpl be_digits. rewrite int_from_bytes_snoc.
    rewrite Nat2Z.inj_succ, Z.pow_succ_r in Hn by lia.
    rewrite IH.
    + rewrite byte_val_of_Z by (apply Z.mod_pos_bound; lia).
      pose proof (Z.div_mod n 256 ltac:(lia)). lia.
    + split.
      * apply Z.div_pos; lia.
      * apply Z.div_lt_upper_bound; lia.
Qed.

Lemma int_from_bytes_nonneg (bs : bytes) : 0 <= int_from_bytes bs.
Proof.
  induction bs as [|b bs IH] using rev_ind.
  - change (int_from_bytes []) with 0. lia.
  - rewrite int_from_bytes_snoc. pose proof (byte_val_range b). lia.
Qed.

Lemma int_to_bytes_ok (n : Z) (len : nat) :
  0 <= n < 256 ^ Z.of_nat len -> int_to_bytes n len = Ok (be_digits len n).
Proof.
  intros Hn. unfold int_to_bytes.
  destruct (Z.ltb_spec n 0); [lia|].
  destruct (Z.leb_spec (256 ^ Z.of_nat len) n); [lia|]. reflexivity.
Qed.

Lemma int_to_bytes_inv (n : Z) (len : nat) (bs : bytes) :
  int_to_bytes n len = Ok bs ->
  0 <= n < 256 ^ Z.of_nat len /\ bs = be_digits len n.
Proof.
  unfold int_to_bytes.
  destruct (Z.ltb_spec n 0); [discriminate|].
  destruct (Z.leb_spec (256 ^ Z.of_nat len) n); [discriminate|].
  intros E. injection E as <-. split; [lia|reflexivity].
Qed.

Lemma int_to_bytes_overflow (n : Z) (len : nat) :
  256 ^ Z.of_nat len <= n ->
  int_to_bytes n len = Raise (OverflowError "int too big to convert").
Proof.
  intros Hn. unfold int_to_bytes.
  assert (0 < 256 ^ Z.of_nat len) by (apply Z.pow_pos_nonneg; lia).
  destruct (Z.ltb_spec n 0); [lia|].
  destruct (Z.leb_spec (256 ^ Z.of_nat len) n); [reflexivity|lia].
Qed.

(** ** The port *)

Lemma after_nil (p : I2cPort) : after p [] = p.
Proof. destruct p. unfold after. simpl. rewrite app_nil_r. reflexivity. Qed.

Lemma after_after (p : I2cPort) (a b : list event) :
  after (after p a) b = after p (a ++ b).
Proof. unfold after. simpl. rewrite app_assoc. reflexivity. Qed.

Lemma record_after (p : I2cPort) (ev : event) : record ev p = after p [ev].
Proof. reflexivity. Qed.

Lemma acks_all_after (p : I2cPort) (evs : list event) :
  acks_all p -> acks_all (after p evs).
Proof. intros H h out. apply H. Qed.

Lemma port_write_acked (p : I2cPort) (out : bytes) :
  acks p out -> port_write out p = (Ok tt, after p [EvWrite out]).
Proof. unfold acks, port_write. intros ->. reflexivity. Qed.

Lemma port_write_failed (p : I2cPort) (out : bytes) (e : exn) :
  on_write p (history p) out = Some e ->
  port_write out p = (Raise e, after p [EvWrite out]).
Proof. unfold port_write. intros ->. reflexivity. Qed.

(** ** The transactor *)

Lemma enable_run (p : I2cPort) (we : bool * bytes) :
  (fst we = true -> acks p (snd we)) ->
  (if fst we then port_write (snd we) else ret tt) p
  = (Ok tt, after p (enable_events we)).
Proof.
  intros H. unfold enable_events. destruct (fst we).
  - apply port_write_acked. auto.
  - unfold ret. rewrite after_nil. reflexivity.
Qed.

Lemma eeprom_page_write_run (p : I2cPort) (address data : bytes)
    (command : option bytes) (we : bool * bytes) :
  (fst we = true -> acks p (snd we)) ->
  acks (after p (enable_events we)) (or_empty command ++ address ++ data) ->
  eeprom_page_write address data command we p
  = (match int_to_bytes (int_from_bytes address + Z.of_nat (length data))
                        (length address) with
     | Ok next => Ok (data, next)
     | Raise e => Raise e
     end,
     after p (enable_events we ++ [EvWrite (or_empty command ++ address ++ data)])).
Proof.
  intros Hwe Hw. unfold eeprom_page_write.
  unfold bind at 1. rewrite (enable_run p we Hwe).
  unfold bind at 1. rewrite (port_write_acked _ _ Hw), after_after.
  unfold bind, lift, ret.
  destruct (int_to_bytes _ _); reflexivity.
Qed.

Lemma eeprom_read_run (p : I2cPort) (address : bytes) (n : Z)
    (command : option bytes) :
  acks p (or_empty command ++ address) ->
  eeprom_read address n command p
  = (match on_read p (history p ++ [EvWrite (or_empty command ++ address)]) n
     with
     | Raise e => Raise e
     | Ok got =>
         match int_to_bytes (int_from_bytes address + n) (length address) with
         | Ok next => Ok (got, next)
         | Raise e => Raise e
         end
     end,
     after p [EvWrite (or_empty command ++ address); EvRead n]).
Proof.
  intros Hack. unfold eeprom_read.
  unfold bind at 1. rewrite (port_write_acked _ _ Hack).
  unfold bind, port_read, lift, ret. cbn [history after].
  rewrite record_after, after_after. cbn [app].
  destruct (on_read _ _ _) as [got|e]; [|reflexivity].
  destruct (int_to_bytes _ _); reflexivity.
Qed.

(** C3, as stated, fails at the top of the address range: a one-byte page
    written at address 0xFFFF is sent to an acknowledging port, and then the
    call raises [OverflowError] instead of returning a pair. *)
Lemma eeprom_page_write_at_top_raises :
  eeprom_page_write [xff; xff] [x00] None (false, []) (ideal_port [])
  = (Raise (OverflowError "int too big to convert"),
     after (ideal_port []) [EvWrite [xff; xff; x00]])
  /\ forall out, fst (eeprom_page_write [xff; xff] [x00] None (false, [])
                        (ideal_port [])) <> Ok out.
Proof.
  split.
  - reflexivity.
  - intros out. discriminate.
Qed.

(** C3 (amended): on a port that acknowledges the writes, [eeprom_page_write]
    first writes the write-enable sequence as a call of its own exactly when
    write-enable is on, then writes command (if any), address and data as
    one call; if address + len(data) fits in the width of the address it
    returns the data and that sum in the same width, and otherwise it raises
    [OverflowError] after the same calls. *)
Theorem eeprom_page_write_transactions (p : I2cPort) (address data : bytes)
    (command : option bytes) (we : bool * bytes) :
  (fst we = true -> acks p (snd we)) ->
  acks (after p (enable_events we)) (or_empty command ++ address ++ data) ->
  let frame := or_empty command ++ address ++ data in
  let sum := int_from_bytes address + Z.of_nat (length data) in
  let p' := after p ((if fst we then [EvWrite (snd we)] else []) ++ [EvWrite frame]) in
  (sum < 256 ^ Z.of_nat (length address) ->
   exists next,
     eeprom_page_write address data command we p = (Ok (data, next), p')
     /\ length next = length address
     /\ int_from_bytes next = sum)
  /\ (256 ^ Z.of_nat (length address) <= sum ->
      eeprom_page_write address data command we p
      = (Raise (OverflowError "int too big to convert"), p')).
Proof.
  intros Hwe Hw frame sum p'.
  pose proof (eeprom_page_write_run p address data command we Hwe Hw) as R.
  fold frame sum in R. change (after p _) with p' in R.
  assert (0 <= sum).
  { unfold sum. pose proof (int_from_bytes_nonneg address). lia. }
  split; intros Hs.
  - exists (be_digits (length address) sum).
    rewrite R, int_to_bytes_ok by lia.
    split; [reflexivity|]. split.
    + apply be_digits_length.
    + apply int_from_be_digits. lia.
  - rewrite R, int_to_bytes_overflow by lia. reflexivity.
Qed.

Lemma eeprom_page_write_transactions_witness :
  (exists next,
     eeprom_page_write [x0f; xe0] (repeat x41 32) (Some [x02]) (true, [x06])
       (ideal_port [])
     = (Ok (repeat x41 32, next),
        after (ideal_port [])
          [EvWrite [x06]; EvWrite ([x02] ++ [x0f; xe0] ++ repeat x41 32)])
     /\ length next = 2%nat
     /\ int_from_bytes next = 4064 + 32)
  /\ eeprom_page_write [xff; xe0] (repeat x41 32) None (false, [])
       (ideal_port [])
     = (Raise (OverflowError "int too big to convert"),
        after (ideal_port []) [EvWrite ([xff; xe0] ++ repeat x41 32)]).
Proof.
  split.
  - apply (eeprom_page_write_transactions (ideal_port []) [x0f; xe0]
             (repeat x41 32) (Some [x02]) (true, [x06])).
    + intros _. reflexivity.
    + reflexivity.
    + vm_compute. reflexivity.
  - apply (eeprom_page_write_transactions (ideal_port []) [xff; xe0]
             (repeat x41 32) None (false, [])).
    + intros H. discriminate H.
    + reflexivity.
    + vm_compute. intros H. discriminate H.
Defined.

(** What a transactor call returns, whatever the port does: an exception of
    the port, or the outcome of re-encoding the next address. *)
Lemma eeprom_page_write_result (p : I2cPort) (address data : bytes)
    (command : option bytes) (we : bool * bytes) :
  (exists e, fst (eeprom_page_write address data command we p) = Raise e)
  \/ exists next,
       int_to_bytes (int_from_bytes address + Z.of_nat (length data))
                    (length address) = Ok next
       /\ fst (eeprom_page_write address data command we p) = Ok (data, next).
Proof.
  unfold eeprom_page_write, bind.
  destruct ((if fst we then port_write (snd we) else ret tt) p) as [[[]|e] p1];
    [|left; eexists; reflexivity].
  destruct (port_write (or_empty command ++ address ++ data) p1) as [[[]|e] p2];
    [|left; eexists; reflexivity].
  unfold lift, ret.
  destruct (int_to_bytes _ _) as [next|e];
    [right; exists next; split; reflexivity | left; eexists; reflexivity].
Qed.

Lemma eeprom_write_result (p : I2cPort) (address data : bytes)
    (command : option bytes) :
  (exists e, fst (eeprom_write address data command p) = Raise e)
  \/ exists next,
       int_to_bytes (int_from_bytes address + 1) (length address) = Ok next
       /\ fst (eeprom_write address data command p) = Ok (data, next).
Proof.
  unfold eeprom_write, bind.
  destruct (port_write (or_empty command ++ address ++ data) p) as [[[]|e] p1];
    [|left; eexists; reflexivity].
  unfold lift, ret.
  destruct (int_to_bytes _ _) as [next|e];
    [right; exists next; split; reflexivity | left; eexists; reflexivity].
Qed.

Lemma eeprom_read_result (p : I2cPort) (address : bytes) (n : Z)
    (command : option bytes) :
  (exists e, fst (eeprom_read address n command p) = Raise e)
  \/ exists got next,
       int_to_bytes (int_from_bytes address + n) (length address) = Ok next
       /\ fst (eeprom_read address n command p) = Ok (got, next).
Proof.
  unfold eeprom_read, bind.
  destruct (port_write (or_empty command ++ address) p) as [[[]|e] p1];
    [|left; eexists; reflexivity].
  destruct (port_read n p1) as [[got|e] p2];
    [|left; eexists; reflexivity].
  unfold lift, ret.
  destruct (int_to_bytes _ _) as [next|e];
    [right; exists got, next; split; reflexivity | left; eexists; reflexivity].
Qed.

Lemma next_address_shape (address : bytes) (k : Z) (next : bytes) :
  int_to_bytes (int_from_bytes address + k) (length address) = Ok next ->
  length next = length address
  /\ int_from_bytes next = int_from_bytes address + k.
Proof.
  intros E. apply int_to_bytes_inv in E as [Hr ->]. split.
  - apply be_digits_length.
  - apply int_from_be_digits. exact Hr.
Qed.

Lemma next_address_overflow (address : bytes) (k : Z) (next : bytes) :
  256 ^ Z.of_nat (length address) <= int_from_bytes address + k ->
  int_to_bytes (int_from_bytes address + k) (length address) <> Ok next.
Proof.
  intros H E. apply int_to_bytes_inv in E as [Hr _]. lia.
Qed.

(** C5: whenever [eeprom_page_write], [eeprom_write] or [eeprom_read]
    returns, the next address has the byte width of the address given and
    its value is the exact sum address + n; and when that sum does not fit
    in the width, the call raises an exception: no truncated address is ever
    returned. *)
Theorem next_address_keeps_width (p : I2cPort) (address data : bytes) (n : Z)
    (command : option bytes) (we : bool * bytes) :
  (forall out next,
     fst (eeprom_page_write address data command we p) = Ok (out, next) ->
     length next = length address
     /\ int_from_bytes next = int_from_bytes address + Z.of_nat (length data))
  /\ (forall out next,
        fst (eeprom_write address data command p) = Ok (out, next) ->
        length next = length address
        /\ int_from_bytes next = int_from_bytes address + 1)
  /\ (forall out next,
        fst (eeprom_read address n command p) = Ok (out, next) ->
        length next = length address
        /\ int_from_bytes next = int_from_bytes address + n)
  /\ (256 ^ Z.of_nat (length address)
        <= int_from_bytes address + Z.of_nat (length data) ->
      exists e, fst (eeprom_page_write address data command we p) = Raise e)
  /\ (256 ^ Z.of_nat (length address) <= int_from_bytes address + 1 ->
      exists e, fst (eeprom_write address data command p) = Raise e)
  /\ (256 ^ Z.of_nat (length address) <= int_from_bytes address + n ->
      exists e, fst (eeprom_read address n command p) = Raise e).
Proof.
  pose proof (eeprom_page_write_result p address data command we) as Hpw.
  pose proof (eeprom_write_result p address data command) as Hw.
  pose proof (eeprom_read_result p address n command) as Hr.
  repeat split.
  1, 2: destruct Hpw as [[e He]|(nx & Hnx & He)]; rewrite He in H;
        [discriminate|injection H as <- <-];
        apply (next_address_shape _ _ _ Hnx).
  1, 2: destruct Hw as [[e He]|(nx & Hnx & He)]; rewrite He in H;
        [discriminate|injection H as <- <-];
        apply (next_address_shape _ _ _ Hnx).
  1, 2: destruct Hr as [[e He]|(got & nx & Hnx & He)]; rewrite He in H;
        [discriminate|injection H as <- <-];
        apply (next_address_shape _ _ _ Hnx).
  - intros Hov. destruct Hpw as [He|(nx & Hnx & _)]; [exact He|].
    exfalso. exact (next_address_overflow _ _ _ Hov Hnx).
  - intros Hov. destruct Hw as [He|(nx & Hnx & _)]; [exact He|].
    exfalso. exact (next_address_overflow _ _ _ Hov Hnx).
  - intros Hov. destruct Hr as [He|(got & nx & Hnx & _)]; [exact He|].
    exfalso. exact (next_address_overflow _ _ _ Hov Hnx).
Qed.

Lemma next_address_keeps_width_witness :
  (length [x10; x00] = length [x0f; xe0]
   /\ int_from_bytes [x10; x00]
      = int_from_bytes [x0f; xe0] + Z.of_nat (length (repeat x41 32)))
  /\ (length [x00; x01] = length [x00; x00]
      /\ int_from_bytes [x00; x01] = int_from_bytes [x00; x00] + 1)
  /\ (length [x10; x00] = length [x0f; xe0]
      /\ int_from_bytes [x10; x00] = int_from_bytes [x0f; xe0] + 32)
  /\ (exists e, fst (eeprom_page_write [xff; xe0] (repeat x41 32) None
                       (false, []) (ideal_port [])) = Raise e)
  /\ (exists e, fst (eeprom_write [xff; xff] [x80] (Some [x02])
                       (ideal_port [])) = Raise e)
  /\ (exists e, fst (eeprom_read [xff; xe0] 32 (Some [x03])
                       (ideal_port [])) = Raise e).
Proof.
  split; [|split; [|split; [|split; [|split]]]].
  - destruct (next_address_keeps_width (ideal_port []) [x0f; xe0]
                (repeat x41 32) 32 None (false, [])) as (H & _).
    apply (H (repeat x41 32)). reflexivity.
  - destruct (next_address_keeps_width (ideal_port []) [x00; x00] [x80]
                0 (Some [x02]) (false, [])) as (_ & H & _).
    apply (H [x80]). reflexivity.
  - destruct (next_address_keeps_width (ideal_port [x41]) [x0f; xe0] []
                32 (Some [x03]) (false, [])) as (_ & _ & H & _).
    apply (H [x41]). reflexivity.
  - destruct (next_address_keeps_width (ideal_port []) [xff; xe0]
                (repeat x41 32) 0 None (false, [])) as (_ & _ & _ & H & _).
    apply H. vm_compute. intros E. discriminate E.
  - destruct (next_address_keeps_width (ideal_port []) [xff; xff] [x80]
                0 (Some [x02]) (false, [])) as (_ & _ & _ & _ & H & _).
    apply H. vm_compute. intros E. discriminate E.
  - destruct (next_address_keeps_width (ideal_port []) [xff; xe0] []
                32 (Some [x03]) (false, [])) as (_ & _ & _ & _ & _ & H).
    apply H. vm_compute. intros E. discriminate E.
Defined.

(** C8: an exception that the port raises in a write or a read made by
    [eeprom_write], [eeprom_page_write] or [eeprom_read] is the outcome of
    the call, unchanged; the failed port call is the last one made (nothing
    is tried again, and nothing is sent after it), and no pair of data and
    next address is produced. *)
Theorem port_failure_propagates (p : I2cPort) (address data : bytes) (n : Z)
    (command : option bytes) (we : bool * bytes) (e : exn) :
  let frame := or_empty command ++ address ++ data in
  let pointer := or_empty command ++ address in
  (on_write p (history p) frame = Some e ->
   eeprom_write address data command p = (Raise e, after p [EvWrite frame]))
  /\ (fst we = true -> on_write p (history p) (snd we) = Some e ->
      eeprom_page_write address data command we p
      = (Raise e, after p [EvWrite (snd we)]))
  /\ ((fst we = true -> acks p (snd we)) ->
      on_write p (history p ++ enable_events we) frame = Some e ->
      eeprom_page_write address data command we p
      = (Raise e, after p (enable_events we ++ [EvWrite frame])))
  /\ (on_write p (history p) pointer = Some e ->
      eeprom_read address n command p = (Raise e, after p [EvWrite pointer]))
  /\ (acks p pointer ->
      on_read p (history p ++ [EvWrite pointer]) n = Raise e ->
      eeprom_read address n command p
      = (Raise e, after p [EvWrite pointer; EvRead n])).
Proof.
  intros frame pointer. repeat split.
  - intros H. unfold eeprom_write, bind.
    fold frame. rewrite (port_write_failed _ _ _ H). reflexivity.
  - intros Hon H. unfold eeprom_page_write, bind. rewrite Hon.
    rewrite (port_write_failed _ _ _ H). reflexivity.
  - intros Hwe H. unfold eeprom_page_write.
    unfold bind at 1. rewrite (enable_run p we Hwe).
    unfold bind. fold frame.
    rewrite (port_write_failed (after p (enable_events we)) frame e H).
    rewrite after_after. reflexivity.
  - intros H. unfold eeprom_read, bind.
    fold pointer. rewrite (port_write_failed _ _ _ H). reflexivity.
  - intros Hack H. unfold eeprom_read.
    unfold bind at 1. fold pointer. rewrite (port_write_acked _ _ Hack).
    unfold bind, port_read. simpl. rewrite H.
    rewrite record_after, after_after. reflexivity.
Qed.

Lemma port_failure_propagates_witness :
  eeprom_write [x00; x00] [x80] (Some [x02]) (deaf_after 0)
  = (Raise nack, after (deaf_after 0) [EvWrite [x02; x00; x00; x80]])
  /\ eeprom_page_write [x00; x20] [x41] (Some [x02]) (true, [x06]) (deaf_after 0)
     = (Raise nack, after (deaf_after 0) [EvWrite [x06]])
  /\ eeprom_page_write [x00; x20] [x41] (Some [x02]) (true, [x06]) (deaf_after 1)
     = (Raise nack,
        after (deaf_after 1) [EvWrite [x06]; EvWrite [x02; x00; x20; x41]])
  /\ eeprom_read [x00; x00] 40 (Some [x03]) (deaf_after 0)
     = (Raise nack, after (deaf_after 0) [EvWrite [x03; x00; x00]])
  /\ eeprom_read [x00; x00] 40 (Some [x03]) (deaf_after 1)
     = (Raise nack, after (deaf_after 1) [EvWrite [x03; x00; x00]; EvRead 40]).
Proof.
  split; [|split; [|split; [|split]]].
  - destruct (port_failure_propagates (deaf_after 0) [x00; x00] [x80] 0
                (Some [x02]) (false, []) nack) as (H & _).
    apply H. reflexivity.
  - destruct (port_failure_propagates (deaf_after 0) [x00; x20] [x41] 0
                (Some [x02]) (true, [x06]) nack) as (_ & H & _).
    apply H; reflexivity.
  - destruct (port_failure_propagates (deaf_after 1) [x00; x20] [x41] 0
                (Some [x02]) (true, [x06]) nack) as (_ & _ & H & _).
    apply H.
    + intros _. reflexivity.
    + reflexivity.
  - destruct (port_failure_propagates (deaf_after 0) [x00; x00] [] 40
                (Some [x03]) (false, []) nack) as (_ & _ & _ & H & _).
    apply H. reflexivity.
  - destruct (port_failure_propagates (deaf_after 1) [x00; x00] [] 40
                (Some [x03]) (false, []) nack) as (_ & _ & _ & _ & H).
    apply H; reflexivity.
Defined.

(** ** The device table *)

(** C9: a device name other than the two of the table makes
    [i2c_protocol_parse] raise [ValueError("Invalid Device")], and as a
    computation it leaves any port untouched; ["24LC32"] gives 12 address
    bits, pages of 32 bytes, no write-enable and no command bytes;
    ["ZL30267"] gives 12 address bits, pages of 32 bytes, the one-byte
    write-enable sequence 06 and the one-byte opcodes 02 for a page write
    and 03 for a read. *)
Theorem i2c_protocol_parse_table (name : string) :
  (name <> "24LC32"%string -> name <> "ZL30267"%string ->
   i2c_protocol_parse name = Raise (ValueError "Invalid Device")
   /\ forall p, lift (i2c_protocol_parse name) p
                = (Raise (ValueError "Invalid Device"), p))
  /\ (exists plain,
        i2c_protocol_parse "24LC32" = Ok plain
        /\ address_size plain = 12 /\ page_size plain = 32
        /\ write_enable plain = (false, [])
        /\ Forall (fun entry => snd (snd entry) = None) (commands plain)
        /\ map fst (commands plain)
           = ["Page Write"; "Single Write"; "Read"]%string)
  /\ (exists gated page_write read,
        i2c_protocol_parse "ZL30267" = Ok gated
        /\ address_size gated = 12 /\ page_size gated = 32
        /\ write_enable gated = (true, [x06])
        /\ getitem (commands gated) "Page Write" = Ok (page_write, Some [x02])
        /\ getitem (commands gated) "Read" = Ok (read, Some [x03])
        /\ map fst (commands gated) = ["Page Write"; "Read"]%string).
Proof.
  split; [|split].
  - intros H1 H2.
    assert (E : i2c_protocol_parse name = Raise (ValueError "Invalid Device")).
    { unfold i2c_protocol_parse.
      destruct (String.eqb_spec name "24LC32"); [contradiction|].
      destruct (String.eqb_spec name "ZL30267"); [contradiction|].
      reflexivity. }
    split; [exact E|]. intros p. unfold lift. rewrite E. reflexivity.
  - eexists. split; [reflexivity|]. simpl.
    repeat split. repeat constructor.
  - do 3 eexists. split; [reflexivity|]. simpl. repeat split.
Qed.

Lemma i2c_protocol_parse_table_witness :
  i2c_protocol_parse "AT24C02" = Raise (ValueError "Invalid Device")
  /\ forall p, lift (i2c_protocol_parse "AT24C02") p
               = (Raise (ValueError "Invalid Device"), p).
Proof.
  destruct (i2c_protocol_parse_table "AT24C02") as (H & _).
  apply H; intros E; discriminate E.
Defined.

(** ** Text *)

Lemma hex_char_facts (c : ascii) :
  is_hex c = true ->
  py_isspace c = false
  /\ (128 <=? code (lower_char c)) = false
  /\ c_isspace (lower_char c) = false
  /\ hex_digit (lower_char c) = hex_digit c
  /\ Ascii.eqb "x" (lower_char c) = false
  /\ 0 <= digit_value c < 16.
Proof.
  destruct c as [[] [] [] [] [] [] [] []]; intros H;
    try discriminate H; vm_compute; intuition congruence.
Qed.

Lemma drop_while_app_all {A} (f : A -> bool) (ws l : list A) :
  forallb f ws = true -> drop_while f (ws ++ l) = drop_while f l.
Proof.
  induction ws as [|w ws IH]; simpl; intros H.
  - reflexivity.
  - apply andb_prop in H as [Hw Hws]. rewrite Hw. auto.
Qed.

Lemma drop_while_all {A} (f : A -> bool) (ws : list A) :
  forallb f ws = true -> drop_while f ws = [].
Proof.
  intros H. rewrite <- (app_nil_r ws), drop_while_app_all by exact H.
  reflexivity.
Qed.

Lemma drop_while_none {A} (f : A -> bool) (l : list A) :
  forallb (fun x => negb (f x)) l = true -> drop_while f l = l.
Proof.
  destruct l as [|x l]; simpl; intros H.
  - reflexivity.
  - apply andb_prop in H as [Hx _]. apply negb_true_iff in Hx.
    rewrite Hx. reflexivity.
Qed.

Lemma forallb_rev {A} (f : A -> bool) (l : list A) :
  forallb f (rev l) = forallb f l.
Proof.
  induction l as [|x l IH]; simpl.
  - reflexivity.
  - rewrite forallb_app, IH. simpl. rewrite andb_true_r. apply andb_comm.
Qed.

Lemma strip_padded (ws1 body ws2 : list ascii) :
  forallb py_isspace ws1 = true ->
  forallb py_isspace ws2 = true ->
  forallb (fun c => negb (py_isspace c)) body = true ->
  strip (ws1 ++ body ++ ws2) = body.
Proof.
  intros H1 H2 Hb. unfold strip, lstrip, rstrip.
  rewrite drop_while_app_all by exact H1.
  destruct body as [|b body].
  - simpl. rewrite (drop_while_all py_isspace ws2) by exact H2. reflexivity.
  - assert (Hhead : py_isspace b = false).
    { simpl in Hb. apply andb_prop in Hb as [Hb _].
      apply negb_true_iff in Hb. exact Hb. }
    change (drop_while py_isspace ((b :: body) ++ ws2))
      with (if py_isspace b then drop_while py_isspace (body ++ ws2)
            else (b :: body) ++ ws2).
    rewrite Hhead.
    rewrite rev_app_distr, drop_while_app_all
      by (rewrite forallb_rev; exact H2).
    rewrite drop_while_none by (rewrite forallb_rev; exact Hb).
    apply rev_involutive.
Qed.

Lemma is_hex_digit (c : ascii) :
  is_hex c = true -> hex_digit c = Some (digit_value c).
Proof.
  unfold is_hex, digit_value. destruct (hex_digit c); [reflexivity|discriminate].
Qed.

Lemma space_not_hex (c : ascii) : c_isspace c = true -> is_hex c = false.
Proof.
  destruct c as [[] [] [] [] [] [] [] []]; intros H;
    try discriminate H; reflexivity.
Qed.

Lemma forallb_hex_not_space (ds : list ascii) :
  forallb is_hex ds = true ->
  forallb (fun c => negb (py_isspace c)) ds = true.
Proof.
  induction ds as [|c ds IH]; simpl; intros H.
  - reflexivity.
  - apply andb_prop in H as [Hc Hds].
    destruct (hex_char_facts c Hc) as (-> & _). simpl. auto.
Qed.

Lemma lower_hex_no_prefix (ds : list ascii) :
  forallb is_hex ds = true ->
  startswith (list_ascii_of_string "0x") (lower ds) = false.
Proof.
  destruct ds as [|c [|d ds]]; intros H.
  - reflexivity.
  - cbn [lower map list_ascii_of_string startswith]. apply andb_false_r.
  - cbn [forallb] in H.
    apply andb_prop in H as [_ H]. apply andb_prop in H as [Hd _].
    destruct (hex_char_facts d Hd) as (_ & _ & _ & _ & Hx & _).
    cbn [lower map list_ascii_of_string startswith].
    rewrite Hx. apply andb_false_r.
Qed.

(** What [byte_address_parse] hands on, for a text made of white space, an
    optional prefix, hexadecimal digits, and white space. *)
Lemma address_digits_typed (ws1 pre ds ws2 : list ascii) :
  forallb py_isspace ws1 = true ->
  forallb py_isspace ws2 = true ->
  hex_prefix pre ->
  forallb is_hex ds = true ->
  address_digits (ws1 ++ pre ++ ds ++ ws2) = lower ds.
Proof.
  intros H1 H2 Hpre Hds. unfold address_digits.
  replace (ws1 ++ pre ++ ds ++ ws2) with (ws1 ++ (pre ++ ds) ++ ws2)
    by (rewrite <- !app_assoc; reflexivity).
  rewrite strip_padded; try assumption.
  - unfold lower. rewrite map_app. fold (lower ds).
    destruct Hpre as [->|[->| ->]].
    + cbn [map app]. rewrite lower_hex_no_prefix by exact Hds. reflexivity.
    + reflexivity.
    + reflexivity.
  - rewrite forallb_app, (forallb_hex_not_space ds Hds), andb_true_r.
    destruct Hpre as [->|[->| ->]]; reflexivity.
Qed.

Lemma first_non_ascii_lower_hex (ds : list ascii) (pos : nat) :
  forallb is_hex ds = true -> first_non_ascii pos (lower ds) = None.
Proof.
  revert pos. induction ds as [|c ds IH]; simpl; intros pos H.
  - reflexivity.
  - apply andb_prop in H as [Hc Hds].
    destruct (hex_char_facts c Hc) as (_ & -> & _). auto.
Qed.

(** An even number of hexadecimal digits is read two by two. *)
Lemma fromhex_at_pairs (k : nat) :
  forall (ds : list ascii) (pos : nat),
    length ds = (2 * k)%nat ->
    forallb is_hex ds = true ->
    exists bs,
      fromhex_at pos (lower ds) = Ok bs
      /\ length bs = k
      /\ forall acc,
           fold_left (fun acc b => acc * 256 + byte_val b) bs acc
           = fold_left (fun acc c => 16 * acc + digit_value c) ds acc.
Proof.
  induction k as [|k IH]; intros ds pos Hlen Hhex.
  - destruct ds; [|simpl in Hlen; lia]. exists []. repeat split.
  - destruct ds as [|c [|d ds]];
      [simpl in Hlen; lia | simpl in Hlen; lia |].
    simpl in Hhex. apply andb_prop in Hhex as [Hc Hhex].
    apply andb_prop in Hhex as [Hd Hhex].
    destruct (IH ds (S (S pos))) as (bs & E & Hl & Hf);
      [simpl in Hlen; lia | exact Hhex |].
    destruct (hex_char_facts c Hc) as (_ & _ & Sc & Lc & _ & Rc).
    destruct (hex_char_facts d Hd) as (_ & _ & _ & Ld & _ & Rd).
    exists (byte_of_Z (16 * digit_value c + digit_value d) :: bs).
    split; [|split].
    + simpl. rewrite Sc, Lc, (is_hex_digit c Hc), Ld, (is_hex_digit d Hd).
      fold (lower ds). rewrite E. reflexivity.
    + simpl. rewrite Hl. reflexivity.
    + intros acc. cbn [fold_left]. rewrite Hf. f_equal.
      rewrite byte_val_of_Z by lia. lia.
Qed.

(** What [bytes.fromhex]'s scan gives: bytes, two digits for each, out of a
    text of digits and white space only; or the complaint about a character
    that is not hexadecimal. *)
Lemma fromhex_at_inv (n : nat) :
  forall (s : list ascii) (pos : nat),
    (length s <= n)%nat ->
    match fromhex_at pos s with
    | Ok bs =>
        count_hex s = (2 * length bs)%nat
        /\ forallb (fun c => is_hex c || c_isspace c) s = true
    | Raise e => exists q, e = ValueError (fromhex_msg q)
    end.
Proof.
  induction n as [|n IH]; intros s pos Hlen.
  - destruct s; [|simpl in Hlen; lia]. simpl. split; reflexivity.
  - destruct s as [|c r]; [simpl; split; reflexivity|].
    simpl in Hlen. simpl fromhex_at.
    destruct (c_isspace c) eqn:Sc.
    + specialize (IH r (S pos) ltac:(lia)).
      destruct (fromhex_at (S pos) r) as [bs|e]; [|exact IH].
      destruct IH as [Hc Hall]. unfold count_hex in *. simpl.
      rewrite (space_not_hex c Sc), Sc. simpl. split; assumption.
    + destruct (hex_digit c) as [top|] eqn:Hc; [|eexists; reflexivity].
      destruct r as [|d r']; [eexists; reflexivity|].
      destruct (hex_digit d) as [bot|] eqn:Hd; [|eexists; reflexivity].
      simpl in Hlen. specialize (IH r' (S (S pos)) ltac:(lia)).
      destruct (fromhex_at (S (S pos)) r') as [bs|e]; [|exact IH].
      destruct IH as [Hcount Hall]. unfold count_hex, is_hex in *. simpl.
      rewrite Hc, Hd. simpl. rewrite Hcount, Hall. split; [lia|reflexivity].
Qed.

Lemma bytes_fromhex_inv (s : list ascii) :
  match bytes_fromhex s with
  | Ok bs =>
      count_hex s = (2 * length bs)%nat
      /\ forallb (fun c => is_hex c || c_isspace c) s = true
  | Raise e => exists q, e = ValueError (fromhex_msg q)
  end.
Proof.
  unfold bytes_fromhex. destruct (first_non_ascii 0 s).
  - eexists. reflexivity.
  - apply (fromhex_at_inv (length s)). lia.
Qed.

Lemma count_hex_lower (ds : list ascii) :
  forallb is_hex ds = true -> count_hex (lower ds) = length ds.
Proof.
  unfold count_hex. induction ds as [|c ds IH]; simpl; intros H.
  - reflexivity.
  - apply andb_prop in H as [Hc Hds].
    destruct (hex_char_facts c Hc) as (_ & _ & _ & Lc & _).
    unfold is_hex at 1. rewrite Lc, (is_hex_digit c Hc). simpl.
    rewrite IH by exact Hds. reflexivity.
Qed.

(** ** The address codec *)

Lemma byte_address_parse_typed (ws1 pre ds ws2 : list ascii)
    (max_size : option Z) :
  forallb py_isspace ws1 = true ->
  forallb py_isspace ws2 = true ->
  hex_prefix pre ->
  forallb is_hex ds = true ->
  byte_address_parse (string_of_list_ascii (ws1 ++ pre ++ ds ++ ws2)) max_size
  = match bytes_fromhex (lower ds) with
    | Raise e => Raise e
    | Ok byte =>
        match max_size with
        | Some m =>
            if int_from_bytes byte >=? m then Raise (ValueError range_msg)
            else Ok byte
        | None => Ok byte
        end
    end.
Proof.
  intros H1 H2 Hpre Hds. unfold byte_address_parse.
  rewrite list_ascii_of_string_of_list_ascii.
  rewrite address_digits_typed by assumption. reflexivity.
Qed.

Lemma bytes_fromhex_even (ds : list ascii) (k : nat) :
  length ds = (2 * k)%nat ->
  forallb is_hex ds = true ->
  exists bs,
    bytes_fromhex (lower ds) = Ok bs
    /\ length bs = k
    /\ int_from_bytes bs = hex_value ds.
Proof.
  intros Hlen Hds. unfold bytes_fromhex.
  rewrite first_non_ascii_lower_hex by exact Hds.
  destruct (fromhex_at_pairs k ds 0 Hlen Hds) as (bs & E & Hl & Hf).
  exists bs. split; [exact E|]. split; [exact Hl|]. apply Hf.
Qed.

(** C4, as stated, fails for hexadecimal text with an odd number of digits:
    ["FFF"] is hexadecimal, it denotes 4095, which is below 4096, and the
    call raises the error of [bytes.fromhex] instead of returning an
    address. *)
Lemma byte_address_parse_three_digits_rejected :
  forallb is_hex (list_ascii_of_string "FFF") = true
  /\ hex_value (list_ascii_of_string "FFF") = 4095
  /\ 4095 < 2 ^ 12
  /\ byte_address_parse "FFF" (Some (2 ^ 12))
     = Raise (ValueError (fromhex_msg 3)).
Proof.
  repeat split.
Qed.

(** C4 (amended): for text made of an even number of hexadecimal digits,
    with or without a ["0x"] prefix and white space around it, denoting the
    number v: when v < max, [byte_address_parse(t, max)] returns an address
    whose integer value is v; when v >= max, it raises the [ValueError] of
    the range check; and for any text whose content has a character that is
    neither a hexadecimal digit nor white space, it raises the [ValueError]
    of [bytes.fromhex]. *)
Theorem byte_address_parse_value (ws1 pre ds ws2 : list ascii) (max : Z)
    (other : string) (limit : option Z) :
  forallb py_isspace ws1 = true ->
  forallb py_isspace ws2 = true ->
  hex_prefix pre ->
  forallb is_hex ds = true ->
  Nat.Even (length ds) ->
  let t := string_of_list_ascii (ws1 ++ pre ++ ds ++ ws2) in
  (hex_value ds < max ->
   exists a, byte_address_parse t (Some max) = Ok a
             /\ int_from_bytes a = hex_value ds)
  /\ (max <= hex_value ds ->
      byte_address_parse t (Some max) = Raise (ValueError range_msg))
  /\ ((exists c, In c (address_digits (list_ascii_of_string other))
                 /\ is_hex c = false /\ c_isspace c = false) ->
      exists pos,
        byte_address_parse other limit = Raise (ValueError (fromhex_msg pos))).
Proof.
  intros H1 H2 Hpre Hds [k Hk] t.
  destruct (bytes_fromhex_even ds k Hk Hds) as (bs & E & _ & Hv).
  pose proof (byte_address_parse_typed ws1 pre ds ws2 (Some max) H1 H2 Hpre Hds)
    as R.
  fold t in R. rewrite E, Hv in R.
  split; [|split].
  - intros Hlt. exists bs. split; [|exact Hv].
    rewrite R. destruct (Z.geb_spec (hex_value ds) max); [lia|reflexivity].
  - intros Hge. rewrite R.
    destruct (Z.geb_spec (hex_value ds) max); [reflexivity|lia].
  - intros (c & Hin & Hc & Sc). unfold byte_address_parse.
    pose proof (bytes_fromhex_inv (address_digits (list_ascii_of_string other)))
      as Hinv.
    destruct (bytes_fromhex (address_digits (list_ascii_of_string other)))
      as [bs'|e].
    + destruct Hinv as [_ Hall]. rewrite forallb_forall in Hall.
      specialize (Hall c Hin). rewrite Hc, Sc in Hall. discriminate.
    + destruct Hinv as [q ->]. exists q. reflexivity.
Qed.

Lemma byte_address_parse_value_witness :
  (exists a, byte_address_parse " 0x0FE0 " (Some (2 ^ 12)) = Ok a
             /\ int_from_bytes a = 4064)
  /\ byte_address_parse "1000" (Some (2 ^ 12)) = Raise (ValueError range_msg)
  /\ exists pos,
       byte_address_parse "0x0G" None = Raise (ValueError (fromhex_msg pos)).
Proof.
  split; [|split].
  - pose proof (byte_address_parse_value
                (list_ascii_of_string " ") (list_ascii_of_string "0x")
                (list_ascii_of_string "0FE0") (list_ascii_of_string " ")
                (2 ^ 12) "0x0G" None
                eq_refl eq_refl (or_intror (or_introl eq_refl)) eq_refl
                (ex_intro _ 2%nat eq_refl)) as W.
    cbv zeta in W. destruct W as (H & _).
    apply H. reflexivity.
  - pose proof (byte_address_parse_value
                [] [] (list_ascii_of_string "1000") []
                (2 ^ 12) "0x0G" None
                eq_refl eq_refl (or_introl eq_refl) eq_refl
                (ex_intro _ 2%nat eq_refl)) as W.
    cbv zeta in W. destruct W as (_ & H & _).
    apply H. vm_compute. intros E. discriminate E.
  - pose proof (byte_address_parse_value
                [] [] [] [] (2 ^ 12) "0x0G" None
                eq_refl eq_refl (or_introl eq_refl) eq_refl
                (ex_intro _ 0%nat eq_refl)) as W.
    cbv zeta in W. destruct W as (_ & _ & H).
    apply H. exists "g"%char. split; [|split]; try reflexivity.
    vm_compute. right. left. reflexivity.
Defined.

Lemma min_width_fits (n : Z) :
  0 < n ->
  256 ^ (Z.of_nat (min_width n) - 1) <= n < 256 ^ Z.of_nat (min_width n).
Proof.
  intros Hn. unfold min_width.
  destruct (Z.leb_spec n 0); [lia|].
  pose proof (Z.log2_spec n Hn) as [Hlo Hhi].
  pose proof (Z.log2_nonneg n) as Hl.
  pose proof (Z.div_mod (Z.log2 n) 8 ltac:(lia)) as Hdm.
  pose proof (Z.mod_pos_bound (Z.log2 n) 8 ltac:(lia)) as Hm.
  assert (Hq : 0 <= Z.log2 n / 8) by (apply Z.div_pos; lia).
  rewrite Z2Nat.id by lia.
  change 256 with (2 ^ 8). rewrite <- !Z.pow_mul_r by lia.
  split.
  - apply Z.le_trans with (2 ^ Z.log2 n); [|exact Hlo].
    apply Z.pow_le_mono_r; lia.
  - apply Z.lt_le_trans with (2 ^ Z.succ (Z.log2 n)); [exact Hhi|].
    apply Z.pow_le_mono_r; lia.
Qed.

(** C6, as stated, fails: with the bound 2^12, whose largest address 4095
    needs two bytes, the text ["0F"] gives a one-byte address. *)
Lemma byte_address_parse_two_digits_one_byte :
  byte_address_parse "0F" (Some (2 ^ 12)) = Ok [x0f]
  /\ length [x0f] = 1%nat
  /\ min_width (2 ^ 12 - 1) = 2%nat.
Proof.
  repeat split.
Qed.

(** C6 (amended): the address that [byte_address_parse] returns has one byte
    for every two hexadecimal digits typed, whatever the bound; with any
    bound, it is two bytes wide exactly when four digits were typed. *)
Theorem byte_address_parse_width (ws1 pre ds ws2 : list ascii)
    (max_size : option Z) (a : bytes) :
  forallb py_isspace ws1 = true ->
  forallb py_isspace ws2 = true ->
  hex_prefix pre ->
  forallb is_hex ds = true ->
  byte_address_parse (string_of_list_ascii (ws1 ++ pre ++ ds ++ ws2)) max_size
  = Ok a ->
  (2 * length a = length ds)%nat
  /\ (length a = 2%nat <-> length ds = 4%nat).
Proof.
  intros H1 H2 Hpre Hds E.
  rewrite byte_address_parse_typed in E by assumption.
  pose proof (bytes_fromhex_inv (lower ds)) as Hinv.
  destruct (bytes_fromhex (lower ds)) as [bs|e]; [|discriminate E].
  destruct Hinv as [Hcount _]. rewrite count_hex_lower in Hcount by exact Hds.
  assert (a = bs) as ->.
  { destruct max_size as [m|].
    - destruct (int_from_bytes bs >=? m); [discriminate E|].
      injection E as <-. reflexivity.
    - injection E as <-. reflexivity. }
  lia.
Qed.

Lemma byte_address_parse_width_witness :
  (2 * length [x0f; xff] = length (list_ascii_of_string "0FFF"))%nat
  /\ (length [x0f; xff] = 2%nat
      <-> length (list_ascii_of_string "0FFF") = 4%nat).
Proof.
  apply (byte_address_parse_width
           [] (list_ascii_of_string "0x") (list_ascii_of_string "0FFF")
           (list_ascii_of_string " ") (Some (2 ^ 12)) [x0f; xff]
           eq_refl eq_refl (or_intror (or_introl eq_refl)) eq_refl).
  reflexivity.
Defined.

(** C10: a text whose content (stripped, lower-cased, without a leading
    ["0x"]) has an odd number of hexadecimal digits is refused by
    [byte_address_parse] with the [ValueError] of [bytes.fromhex], whatever
    the bound, and without one: ["F"] is refused, ["0F"] is accepted. *)
Theorem byte_address_parse_odd_digits (t : string) (max_size : option Z) :
  (Nat.Odd (count_hex (address_digits (list_ascii_of_string t))) ->
   exists pos,
     byte_address_parse t max_size = Raise (ValueError (fromhex_msg pos)))
  /\ byte_address_parse "F" max_size = Raise (ValueError (fromhex_msg 1))
  /\ byte_address_parse "0F" (Some (2 ^ 12)) = Ok [x0f]
  /\ byte_address_parse "0F" None = Ok [x0f].
Proof.
  split; [|repeat split].
  intros [k Hk]. unfold byte_address_parse.
  pose proof (bytes_fromhex_inv (address_digits (list_ascii_of_string t)))
    as Hinv.
  destruct (bytes_fromhex (address_digits (list_ascii_of_string t)))
    as [bs|e].
  - destruct Hinv as [Hcount _]. lia.
  - destruct Hinv as [q ->]. exists q. reflexivity.
Qed.

Lemma byte_address_parse_odd_digits_witness :
  exists pos,
    byte_address_parse " 0xABC" (Some (2 ^ 12))
    = Raise (ValueError (fromhex_msg pos)).
Proof.
  destruct (byte_address_parse_odd_digits " 0xABC" (Some (2 ^ 12))) as (H & _).
  apply H. exists 1%nat. reflexivity.
Defined.

(** ** The image codec *)

Lemma byte_of_Z_val (b : byte) : byte_of_Z (byte_val b) = b.
Proof.
  unfold byte_of_Z, byte_val. rewrite N2Z.id, Byte.of_to_N. reflexivity.
Qed.

Lemma int_to_bytes_one (b : byte) : int_to_bytes (byte_val b) 1 = Ok [b].
Proof.
  pose proof (byte_val_range b) as Hr.
  rewrite int_to_bytes_ok by (change (256 ^ Z.of_nat 1) with 256; lia).
  simpl. rewrite Z.mod_small by lia. rewrite byte_of_Z_val. reflexivity.
Qed.

Lemma int_to_bytes_one_inv (v : Z) (bs : bytes) :
  int_to_bytes v 1 = Ok bs -> exists b, v = byte_val b /\ bs = [b].
Proof.
  intros E. apply int_to_bytes_inv in E as [Hr ->].
  change (256 ^ Z.of_nat 1) with 256 in Hr.
  exists (byte_of_Z v). split.
  - symmetry. apply byte_val_of_Z. exact Hr.
  - simpl. rewrite Z.mod_small by lia. reflexivity.
Qed.

Lemma int_to_bytes_raises (v : Z) (len : nat) (e : exn) :
  int_to_bytes v len = Raise e -> exists m, e = OverflowError m.
Proof.
  unfold int_to_bytes. destruct (v <? 0); [|destruct (_ <=? _)];
    intros E; try discriminate E; injection E as <-; eexists; reflexivity.
Qed.

Lemma py_int16_raises (s : list ascii) (e : exn) :
  py_int16 s = Raise e -> exists m, e = ValueError m.
Proof.
  unfold py_int16.
  repeat match goal with
         | |- context [match ?x with _ => _ end] => destruct x
         end;
    intros E; try discriminate E; injection E as <-; eexists; reflexivity.
Qed.

Lemma image_lines_cons (line : string) (r : list string) (out : bytes) :
  image_lines (line :: r) out
  = if is_comment line then image_lines r out
    else
      match py_int16 (list_ascii_of_string line) with
      | Raise e => Raise e
      | Ok v =>
          match int_to_bytes v 1 with
          | Raise e => Raise e
          | Ok b => image_lines r (out ++ b)
          end
      end.
Proof. reflexivity. Qed.

(** Lines with a semicolon do not count. *)
Lemma image_lines_skips_comments (lines : list string) (out : bytes) :
  image_lines lines out
  = image_lines (filter (fun l => negb (is_comment l)) lines) out.
Proof.
  revert out. induction lines as [|line r IH]; intros out.
  - reflexivity.
  - cbn [filter]. rewrite image_lines_cons.
    destruct (is_comment line) eqn:C; cbn [negb].
    + apply IH.
    + rewrite image_lines_cons, C.
      destruct (py_int16 _); [|reflexivity].
      destruct (int_to_bytes _ _); [|reflexivity]. apply IH.
Qed.

(** Lines that read as bytes give these bytes, in order. *)
Lemma image_lines_bytes (lines : list string) :
  forall (bs out : bytes),
    Forall2 byte_line (filter (fun l => negb (is_comment l)) lines) bs ->
    image_lines lines out = Ok (out ++ bs).
Proof.
  induction lines as [|line r IH]; intros bs out H.
  - inversion H. rewrite app_nil_r. reflexivity.
  - cbn [filter] in H. rewrite image_lines_cons.
    destruct (is_comment line); cbn [negb] in H.
    + apply IH. exact H.
    + inversion H as [|? b ? bs' Hb Hrest]; subst.
      unfold byte_line in Hb. rewrite Hb, int_to_bytes_one.
      rewrite (IH bs' (out ++ [b]) Hrest), <- app_assoc. reflexivity.
Qed.

(** A line that is no comment and does not read as a byte ends the parse
    with the exception of [int()] or of [to_bytes()]. *)
Lemma image_lines_bad_line (lines : list string) :
  forall (out : bytes) (line : string),
    In line lines -> is_comment line = false ->
    (forall b, ~ byte_line line b) ->
    exists m, image_lines lines out = Raise (ValueError m)
              \/ image_lines lines out = Raise (OverflowError m).
Proof.
  induction lines as [|l r IH]; intros out line Hin Hc Hbad.
  - destruct Hin.
  - rewrite image_lines_cons.
    destruct (is_comment l) eqn:C.
    + destruct Hin as [->|Hin]; [congruence|]. eapply IH; eassumption.
    + destruct (py_int16 (list_ascii_of_string l)) as [v|e] eqn:P.
      * destruct (int_to_bytes v 1) as [bs|e] eqn:T.
        -- destruct Hin as [->|Hin].
           ++ exfalso. apply int_to_bytes_one_inv in T as (b & -> & _).
              exact (Hbad b P).
           ++ eapply IH; eassumption.
        -- apply int_to_bytes_raises in T as [m ->]. exists m. right.
           reflexivity.
      * apply py_int16_raises in P as [m ->]. exists m. left. reflexivity.
Qed.

(** One or two hexadecimal digits, with or without a line end, read as the
    byte they denote. *)
Lemma hex_digits_byte_line (c d : ascii) (nl : bool) :
  is_hex c = true -> is_hex d = true ->
  byte_line (text1 c nl) (byte_of_Z (digit_value c))
  /\ byte_line (text2 c d nl) (byte_of_Z (16 * digit_value c + digit_value d)).
Proof.
  unfold byte_line.
  destruct c as [[] [] [] [] [] [] [] []]; intros Hc; try discriminate Hc;
    destruct d as [[] [] [] [] [] [] [] []]; intros Hd; try discriminate Hd;
    destruct nl; vm_compute; split; reflexivity.
Qed.

Lemma zl_eeprom_image_parse_opened (fs : filesystem) (file_name : string)
    (lines : list string) :
  extension file_name = ".txt"%string ->
  fs file_name = Lines lines ->
  zl_eeprom_image_parse fs file_name
  = (match image_lines lines [] with
     | Ok image => Ok image
     | Raise e => Raise (image_parse_except file_name e)
     end, [file_name]).
Proof.
  intros Hext Hfs. unfold zl_eeprom_image_parse, image_parse_try.
  rewrite Hext, Hfs. simpl. destruct (image_lines lines []); reflexivity.
Qed.

(** ** Pages *)

Lemma py_slice_page (image : bytes) (ps : Z) (k : nat) :
  0 < ps ->
  py_slice image (0 + Z.of_nat k * ps) (0 + Z.of_nat k * ps + ps)
  = snd (nth_page ps image k).
Proof.
  intros Hps. unfold py_slice, nth_page. cbn [snd].
  set (len := Z.of_nat (length image)).
  set (lo := 0 + Z.of_nat k * ps).
  assert (Hlo : 0 <= lo) by (unfold lo; nia).
  assert (Hk : (k * Z.to_nat ps)%nat = Z.to_nat lo) by (unfold lo; nia).
  destruct (Z.ltb_spec lo 0); [lia|].
  destruct (Z.ltb_spec (lo + ps) 0); [lia|].
  rewrite Hk.
  destruct (Z.le_gt_cases len lo) as [Hge|Hlt].
  - rewrite !skipn_all2 by (unfold len in *; lia).
    rewrite !firstn_nil. reflexivity.
  - rewrite (Z.min_l lo len) by lia.
    destruct (Z.le_gt_cases (lo + ps) len) as [Hin|Hout].
    + rewrite Z.min_l by lia. f_equal. lia.
    + rewrite Z.min_r by lia.
      rewrite !firstn_all2; [reflexivity| |];
        rewrite length_skipn; unfold len in *; lia.
Qed.

Lemma nth_page_length (image : bytes) (ps : Z) (k : nat) :
  0 < ps ->
  Z.of_nat (length (snd (nth_page ps image k)))
  = Z.max 0 (Z.min ps (Z.of_nat (length image) - Z.of_nat k * ps)).
Proof.
  intros Hps. unfold nth_page. cbn [snd].
  rewrite length_firstn, length_skipn. nia.
Qed.

Lemma ceil_div_bounds (n ps : Z) :
  0 <= n -> 0 < ps ->
  let q := (n + ps - 1) / ps in
  n <= q * ps /\ (q - 1) * ps < n /\ 0 <= q.
Proof.
  intros Hn Hps q. unfold q.
  pose proof (Z.div_mod (n + ps - 1) ps ltac:(lia)) as Hdm.
  pose proof (Z.mod_pos_bound (n + ps - 1) ps Hps) as Hm.
  assert (Hq : 0 <= (n + ps - 1) / ps) by (apply Z.div_pos; lia).
  nia.
Qed.

Lemma page_count_bounds (image : bytes) (ps : Z) :
  0 < ps ->
  let count := Z.of_nat (page_count ps image) in
  let len := Z.of_nat (length image) in
  len <= count * ps /\ (count - 1) * ps < len /\ (0 < len -> 0 < count).
Proof.
  intros Hps count len. unfold count, page_count. fold len.
  destruct (ceil_div_bounds len ps ltac:(unfold len; lia) Hps)
    as (Hhi & Hlo & Hq).
  rewrite Z2Nat.id by exact Hq. nia.
Qed.

Lemma firstn_add {A} (n m : nat) (l : list A) :
  firstn (n + m) l = firstn n l ++ firstn m (skipn n l).
Proof.
  revert l. induction n as [|n IH]; intros l.
  - reflexivity.
  - destruct l as [|x l]; simpl.
    + rewrite firstn_nil. reflexivity.
    + rewrite IH. reflexivity.
Qed.

Lemma concat_pages_from (image : bytes) (ps : Z) (m a : nat) :
  concat (map snd (map (nth_page ps image) (seq a m)))
  = firstn (m * Z.to_nat ps) (skipn (a * Z.to_nat ps) image).
Proof.
  revert a. induction m as [|m IH]; intros a.
  - reflexivity.
  - cbn [seq map concat]. rewrite IH. unfold nth_page at 1. cbn [snd].
    replace (S m * Z.to_nat ps)%nat with (Z.to_nat ps + m * Z.to_nat ps)%nat
      by lia.
    rewrite firstn_add, skipn_skipn. reflexivity.
Qed.

(** The pages of an image, one after the other, are the image. *)
Lemma concat_pages (image : bytes) (ps : Z) :
  0 < ps -> concat (map snd (pages ps image)) = image.
Proof.
  intros Hps. unfold pages. rewrite concat_pages_from. cbn [Nat.mul skipn].
  apply firstn_all2.
  pose proof (page_count_bounds image ps Hps) as [Hc _]. nia.
Qed.

Lemma pages_of_40 (image : bytes) :
  length image = 40%nat ->
  pages 32 image = [(0, firstn 32 image); (32, skipn 32 image)]
  /\ length (firstn 32 image) = 32%nat
  /\ length (skipn 32 image) = 8%nat.
Proof.
  intros H. unfold pages, page_count. rewrite H.
  split; [|split].
  - change (Z.to_nat ((Z.of_nat 40 + 32 - 1) / 32)) with 2%nat.
    cbn [seq map]. unfold nth_page.
    change (0 * Z.to_nat 32)%nat with 0%nat.
    change (1 * Z.to_nat 32)%nat with 32%nat.
    change (Z.to_nat 32) with 32%nat.
    change (skipn 0 image) with image.
    rewrite (firstn_all2 (n := 32) (skipn 32 image))
      by (rewrite length_skipn; lia).
    reflexivity.
  - rewrite length_firstn. lia.
  - rewrite length_skipn. lia.
Qed.

Lemma firstn_seq (n a m : nat) : firstn n (seq a m) = seq a (Nat.min n m).
Proof.
  revert a m. induction n as [|n IH]; intros a m.
  - reflexivity.
  - destruct m as [|m]; [reflexivity|]. cbn [seq firstn Nat.min].
    rewrite IH. reflexivity.
Qed.

Lemma page_events_count (proto : DeviceProtocol) (command : option bytes)
    (l : list (Z * bytes)) :
  length (flat_map (page_events proto command) l)
  = (length l * S (length (enable_events (write_enable proto))))%nat.
Proof.
  induction l as [|pg l IH]; cbn [flat_map length Nat.mul].
  - reflexivity.
  - rewrite length_app, IH. unfold page_events.
    rewrite length_app. cbn [length]. lia.
Qed.

(** ** Flashing *)

Section Flashing.

Variable fs : filesystem.
Variable typed : string.
Variable args : Namespace.
Variable image : bytes.

Let proto := args_device args.
Let ps := page_size proto.
Let len := Z.of_nat (length image).

Hypothesis page_size_positive : 0 < ps.

Lemma write_pages_cons (cur : bytes) (i : Z) (rest : list Z) (p : I2cPort) :
  write_pages args image cur (i :: rest) p
  = match getitem (commands proto) "Page Write" with
    | Raise e => (Raise e, p)
    | Ok page_write =>
        match eeprom_page_write cur (py_slice image i (i + ps))
                (snd page_write) (write_enable proto) p with
        | (Ok out, p') => write_pages args image (snd out) rest p'
        | (Raise e, p') => (Raise e, p')
        end
    end.
Proof.
  cbn [write_pages]. unfold bind, lift. fold proto.
  destruct (getitem (commands proto) "Page Write"); reflexivity.
Qed.

Lemma two_bytes_range : 256 ^ Z.of_nat 2 = 65536.
Proof. reflexivity. Qed.

(** The loop on a port that acknowledges every write, from page [a] on,
    when [m] pages are left. *)
Lemma write_pages_acked (page_write : action * option bytes) :
  getitem (commands proto) "Page Write" = Ok page_write ->
  len < 65536 ->
  forall (m a : nat) (p : I2cPort),
    acks_all p ->
    ((0 < m)%nat -> (Z.of_nat a + Z.of_nat m - 1) * ps < len) ->
    len <= (Z.of_nat a + Z.of_nat m) * ps ->
    exists c,
      write_pages args image (be_digits 2 (Z.of_nat a * ps))
        (map (fun k => 0 + Z.of_nat k * ps) (seq a m)) p
      = (Ok c,
         after p (flat_map (page_events proto (snd page_write))
                    (map (nth_page ps image) (seq a m)))).
Proof.
  intros Hpw Hlen. induction m as [|m IH]; intros a p Hack Hlo Hhi.
  - exists (be_digits 2 (Z.of_nat a * ps)). cbn. unfold ret.
    rewrite after_nil. reflexivity.
  - cbn [seq map flat_map]. rewrite write_pages_cons, Hpw.
    assert (Ha : Z.of_nat a * ps < len) by (specialize (Hlo ltac:(lia)); nia).
    rewrite py_slice_page by exact page_size_positive.
    rewrite eeprom_page_write_run by (intros; apply Hack).
    rewrite be_digits_length, int_from_be_digits
      by (rewrite two_bytes_range; nia).
    pose proof (nth_page_length image ps a page_size_positive) as Hl.
    fold len in Hl.
    rewrite int_to_bytes_ok by (rewrite two_bytes_range; lia).
    cbn [snd]. unfold page_events at 1. cbn [fst].
    destruct m as [|m].
    + eexists. cbn. unfold ret. rewrite app_nil_r. reflexivity.
    + specialize (Hlo ltac:(lia)).
      replace (Z.of_nat a * ps + Z.of_nat (length (snd (nth_page ps image a))))
        with (Z.of_nat (S a) * ps) by nia.
      destruct (IH (S a)
                  (after p (enable_events (write_enable proto)
                            ++ [EvWrite (or_empty (snd page_write)
                                         ++ be_digits 2 (Z.of_nat a * ps)
                                         ++ snd (nth_page ps image a))])))
        as [c Hc].
      * apply acks_all_after. exact Hack.
      * intros _. lia.
      * lia.
      * exists c. rewrite Hc, after_after. reflexivity.
Qed.

(** If the loop comes to its end, the image is shorter than 65536 bytes. *)
Lemma write_pages_ok_bound :
  forall (m a : nat) (cur : bytes) (p : I2cPort) (c : bytes) (p1 : I2cPort),
    int_from_bytes cur = Z.of_nat a * ps ->
    length cur = 2%nat ->
    (Z.of_nat a + Z.of_nat m - 1) * ps < len ->
    len <= (Z.of_nat a + Z.of_nat m) * ps ->
    (0 < m)%nat ->
    write_pages args image cur
      (map (fun k => 0 + Z.of_nat k * ps) (seq a m)) p = (Ok c, p1) ->
    len < 65536.
Proof.
  induction m as [|m IH]; intros a cur p c p1 Hcur Hw Hlo Hhi Hm H; [lia|].
  cbn [seq map] in H. rewrite write_pages_cons in H.
  destruct (getitem (commands proto) "Page Write") as [pw|e];
    [|discriminate H].
  rewrite py_slice_page in H by exact page_size_positive.
  pose proof (eeprom_page_write_result p cur (snd (nth_page ps image a))
                (snd pw) (write_enable proto)) as R.
  destruct (eeprom_page_write cur (snd (nth_page ps image a)) (snd pw)
              (write_enable proto) p) as [r p'].
  cbn [fst] in R. destruct R as [[e ->]|(next & Hn & ->)]; [discriminate H|].
  apply int_to_bytes_inv in Hn as [Hr ->].
  rewrite Hcur, Hw, two_bytes_range in Hr.
  pose proof (nth_page_length image ps a page_size_positive) as Hl.
  fold len in Hl.
  destruct m as [|m]; [nia|].
  cbn [snd] in H. rewrite Hcur, Hw in H.
  apply (IH (S a) _ _ _ _) in H; try lia.
  - rewrite int_from_be_digits by (rewrite two_bytes_range; lia). nia.
  - apply be_digits_length.
Qed.

Lemma config_run (p : I2cPort) :
  acks_all p ->
  eeprom_i2c_config (device proto) p = (Ok tt, after p (config_events proto)).
Proof.
  intros Hack. unfold eeprom_i2c_config, config_events.
  destruct (String.eqb (device proto) "ZL30267").
  - unfold eeprom_write, bind.
    rewrite port_write_acked by apply Hack. reflexivity.
  - unfold ret. rewrite after_nil. reflexivity.
Qed.

Lemma py_range_pages :
  py_range 0 len ps
  = Ok (map (fun k => 0 + Z.of_nat k * ps) (seq 0 (page_count ps image))).
Proof.
  unfold py_range, page_count. fold len.
  destruct (Z.eqb_spec ps 0); [lia|].
  destruct (Z.ltb_spec 0 ps); [|lia].
  rewrite Z.sub_0_r. reflexivity.
Qed.

Lemma image_source (p : I2cPort) :
  image_of fs typed args image ->
  match args_image args with
  | None => lift (fst (zl_eeprom_image_parse fs typed))
  | Some given => ret given
  end p = (Ok image, p).
Proof.
  unfold image_of. destruct (args_image args); intros ->; reflexivity.
Qed.

(** The first part of [file_mode] on a port that acknowledges every
    write. *)
Lemma writing_acked (page_write : action * option bytes) (p : I2cPort) :
  getitem (commands proto) "Page Write" = Ok page_write ->
  image_of fs typed args image ->
  len < 65536 ->
  acks_all p ->
  writing fs typed args p
  = (Ok image,
     after p (config_events proto
              ++ flat_map (page_events proto (snd page_write))
                   (pages ps image))).
Proof.
  intros Hpw Himg Hlen Hack. unfold writing. fold proto ps.
  unfold bind at 1. rewrite (config_run p Hack).
  unfold bind at 1. rewrite (image_source _ Himg).
  unfold bind at 1. unfold lift at 1. fold len. rewrite py_range_pages.
  pose proof (page_count_bounds image ps page_size_positive)
    as (Hhi & Hlo & _).
  fold len in Hhi, Hlo.
  destruct (write_pages_acked page_write Hpw Hlen (page_count ps image) 0
              (after p (config_events proto))) as [c Hc].
  - apply acks_all_after. exact Hack.
  - intros _. lia.
  - lia.
  - change (be_digits 2 (Z.of_nat 0 * ps)) with [x00; x00] in Hc.
    unfold bind. rewrite Hc, after_after. reflexivity.
Qed.

Lemma writing_ok_bound (p p1 : I2cPort) :
  writing fs typed args p = (Ok image, p1) -> len < 65536.
Proof.
  unfold writing, bind. fold proto ps.
  destruct (eeprom_i2c_config (device proto) p) as [[[]|e] p0];
    [|discriminate].
  destruct (match args_image args with
            | None => lift (fst (zl_eeprom_image_parse fs typed))
            | Some given => ret given
            end p0) as [[given|e] p0'] eqn:Hsrc; [|discriminate].
  unfold lift at 1.
  destruct (py_range 0 (Z.of_nat (length given)) ps) as [indices|e] eqn:Hr;
    [|discriminate].
  destruct (write_pages args given [x00; x00] indices p0') as [[c|e] p2] eqn:Hw;
    [|discriminate].
  unfold ret. intros E. injection E as -> ->.
  fold len in Hr. rewrite py_range_pages in Hr. injection Hr as <-.
  pose proof (page_count_bounds image ps page_size_positive)
    as (Hhi & Hlo & Hpos).
  fold len in Hhi, Hlo, Hpos.
  destruct (Z.eq_dec len 0) as [->|Hnz]; [lia|].
  assert (0 < len) by (unfold len in *; lia).
  apply (write_pages_ok_bound (page_count ps image) 0 [x00; x00] p0' c p1);
    try reflexivity; try lia; exact Hw.
Qed.

Lemma verify_run (read : action * option bytes) (p : I2cPort) :
  getitem (commands proto) "Read" = Ok read ->
  acks p (or_empty (snd read) ++ [x00; x00]) ->
  let pointer := or_empty (snd read) ++ [x00; x00] in
  verify args image p
  = (match on_read p (history p ++ [EvWrite pointer]) len with
     | Raise e => Raise e
     | Ok data =>
         match int_to_bytes (0 + len) 2 with
         | Raise e => Raise e
         | Ok _ => Ok (if bytes_eqb data image then success_msg
                       else mismatch_msg)
         end
     end,
     after p [EvWrite pointer; EvRead len]).
Proof.
  intros Hrd Hack pointer. unfold verify. fold proto len.
  unfold bind, lift. rewrite Hrd.
  rewrite (eeprom_read_run p [x00; x00] len (snd read) Hack). fold pointer.
  change (int_from_bytes [x00; x00]) with 0.
  change (length [x00; x00]) with 2%nat.
  destruct (on_read _ _ _) as [data|e]; [|reflexivity].
  destruct (int_to_bytes (0 + len) 2); [|reflexivity].
  cbn [fst]. destruct (bytes_eqb data image); reflexivity.
Qed.

(** The loop on an acknowledging port when the image reaches beyond the two
    bytes of the cursor: the page whose end is at or after 65536 is written,
    then the next address overflows, and the pages after it are not
    written. *)
Lemma write_pages_overflows (page_write : action * option bytes) :
  getitem (commands proto) "Page Write" = Ok page_write ->
  65536 <= len ->
  forall (m a : nat) (rest : list Z) (p : I2cPort),
    acks_all p ->
    (Z.of_nat a + Z.of_nat m) * ps < 65536 ->
    65536 <= (Z.of_nat a + Z.of_nat (S m)) * ps ->
    write_pages args image (be_digits 2 (Z.of_nat a * ps))
      (map (fun k => 0 + Z.of_nat k * ps) (seq a (S m)) ++ rest) p
    = (Raise (OverflowError "int too big to convert"),
       after p (flat_map (page_events proto (snd page_write))
                  (map (nth_page ps image) (seq a (S m))))).
Proof.
  intros Hpw Hlen. induction m as [|m IH]; intros a rest p Hack Hlo Hhi.
  - cbn [seq map flat_map app]. rewrite write_pages_cons, Hpw.
    rewrite py_slice_page by exact page_size_positive.
    rewrite eeprom_page_write_run by (intros; apply Hack).
    rewrite be_digits_length, int_from_be_digits
      by (rewrite two_bytes_range; nia).
    pose proof (nth_page_length image ps a page_size_positive) as Hl.
    fold len in Hl.
    rewrite int_to_bytes_overflow by (rewrite two_bytes_range; lia).
    rewrite app_nil_r. reflexivity.
  - change (seq a (S (S m))) with (a :: seq (S a) (S m)).
    cbn [map flat_map app]. rewrite write_pages_cons, Hpw.
    rewrite py_slice_page by exact page_size_positive.
    rewrite eeprom_page_write_run by (intros; apply Hack).
    rewrite be_digits_length, int_from_be_digits
      by (rewrite two_bytes_range; nia).
    pose proof (nth_page_length image ps a page_size_positive) as Hl.
    fold len in Hl.
    rewrite int_to_bytes_ok by (rewrite two_bytes_range; lia).
    cbn [snd].
    replace (Z.of_nat a * ps + Z.of_nat (length (snd (nth_page ps image a))))
      with (Z.of_nat (S a) * ps) by nia.
    rewrite IH; [rewrite after_after; reflexivity| | |].
    + apply acks_all_after. exact Hack.
    + lia.
    + lia.
Qed.

Lemma writing_overflows (page_write : action * option bytes) (p : I2cPort) :
  getitem (commands proto) "Page Write" = Ok page_write ->
  image_of fs typed args image ->
  65536 <= len ->
  acks_all p ->
  writing fs typed args p
  = (Raise (OverflowError "int too big to convert"),
     after p (config_events proto
              ++ flat_map (page_events proto (snd page_write))
                   (map (nth_page ps image) (seq 0 (reachable_pages ps))))).
Proof.
  intros Hpw Himg Hlen Hack. unfold writing. fold proto ps.
  unfold bind at 1. rewrite (config_run p Hack).
  unfold bind at 1. rewrite (image_source _ Himg).
  unfold bind at 1. unfold lift at 1. fold len. rewrite py_range_pages.
  destruct (ceil_div_bounds 65536 ps ltac:(lia) page_size_positive)
    as (Hhi & Hlo & Hq).
  assert (Hle : (65536 + ps - 1) / ps <= (len + ps - 1) / ps)
    by (apply Z.div_le_mono; lia).
  assert (Hsplit : page_count ps image
                   = (reachable_pages ps
                      + (page_count ps image - reachable_pages ps))%nat).
  { unfold reachable_pages, page_count. unfold len in Hle. lia. }
  rewrite Hsplit, seq_app, map_app.
  destruct (reachable_pages ps) as [|m] eqn:Hm.
  { unfold reachable_pages in Hm. nia. }
  assert (HZ : Z.of_nat (S m) = (65536 + ps - 1) / ps).
  { rewrite <- Hm. unfold reachable_pages. lia. }
  unfold bind.
  change [x00; x00] with (be_digits 2 (Z.of_nat 0 * ps)).
  rewrite (write_pages_overflows page_write Hpw Hlen m 0).
  - rewrite after_after. reflexivity.
  - apply acks_all_after. exact Hack.
  - nia.
  - nia.
Qed.

(** C1 (amended): for every device descriptor with a positive page size and
    the commands ["Page Write"] and ["Read"], on a port that acknowledges
    every write.  For every image shorter than 65536 bytes: after the
    configuration write of the ZL30267, [file_mode] writes the pages of the
    image from address zero on, in ascending order, each with the device's
    write-enable setting and page-write opcode and its two-byte address,
    and then reads the image back.  For a longer image it writes the pages
    that start below 65536 and raises [OverflowError], the next address
    being out of the range of two bytes.  The pages are consecutive slices
    of [page_size] bytes that make up the image, and an image of 40 bytes
    with pages of 32 bytes has two of them, of 32 and of 8 bytes. *)
Theorem file_mode_page_writes (page_write read : action * option bytes)
    (p : I2cPort) :
  getitem (commands proto) "Page Write" = Ok page_write ->
  getitem (commands proto) "Read" = Ok read ->
  image_of fs typed args image ->
  acks_all p ->
  (len < 65536 ->
   writing fs typed args p
   = (Ok image,
      after p (config_events proto
               ++ flat_map (page_events proto (snd page_write))
                    (pages ps image)))
   /\ history (snd (file_mode fs typed args p))
      = history p
        ++ config_events proto
        ++ flat_map (page_events proto (snd page_write)) (pages ps image)
        ++ [EvWrite (or_empty (snd read) ++ [x00; x00]); EvRead len])
  /\ (65536 <= len ->
      file_mode fs typed args p
      = (Raise (OverflowError "int too big to convert"),
         after p (config_events proto
                  ++ flat_map (page_events proto (snd page_write))
                       (firstn (reachable_pages ps) (pages ps image)))))
  /\ concat (map snd (pages ps image)) = image
  /\ (length image = 40%nat -> ps = 32 ->
      pages ps image = [(0, firstn 32 image); (32, skipn 32 image)]
      /\ length (firstn 32 image) = 32%nat
      /\ length (skipn 32 image) = 8%nat).
Proof.
  intros Hpw Hrd Himg Hack.
  split; [|split; [|split]].
  - intros Hlen.
    pose proof (writing_acked page_write p Hpw Himg Hlen Hack) as W.
    split; [exact W|].
    unfold file_mode, bind. rewrite W.
    rewrite (verify_run read _ Hrd) by (apply acks_all_after; exact Hack).
    cbn [snd history after]. rewrite <- !app_assoc. reflexivity.
  - intros Hlen.
    unfold file_mode, bind.
    rewrite (writing_overflows page_write p Hpw Himg Hlen Hack).
    unfold pages. rewrite firstn_map, firstn_seq.
    replace (Nat.min (reachable_pages ps) (page_count ps image))
      with (reachable_pages ps); [reflexivity|].
    assert (Hle : (65536 + ps - 1) / ps <= (len + ps - 1) / ps)
      by (apply Z.div_le_mono; lia).
    unfold reachable_pages, page_count. unfold len in Hle. lia.
  - apply concat_pages. exact page_size_positive.
  - intros H40 ->. apply pages_of_40. exact H40.
Qed.

(** C2: when the first part of [file_mode] has come to its end, and the
    port acknowledges the pointer write and answers the read, [file_mode]
    makes exactly these two calls more: a write of the Read opcode with
    address 00 00, and one read of len(image) bytes; it returns the success
    text when the bytes read equal the image and the mismatch text when
    they differ, as a value in both cases. *)
Theorem file_mode_verifies (read : action * option bytes)
    (p p1 : I2cPort) (data : bytes) :
  getitem (commands proto) "Read" = Ok read ->
  writing fs typed args p = (Ok image, p1) ->
  let pointer := or_empty (snd read) ++ [x00; x00] in
  acks p1 pointer ->
  on_read p1 (history p1 ++ [EvWrite pointer]) len = Ok data ->
  file_mode fs typed args p
  = (Ok (if bytes_eqb data image then success_msg else mismatch_msg),
     after p1 [EvWrite pointer; EvRead len])
  /\ (data = image -> fst (file_mode fs typed args p) = Ok success_msg)
  /\ (data <> image -> fst (file_mode fs typed args p) = Ok mismatch_msg).
Proof.
  intros Hrd W pointer Hack Hread.
  pose proof (writing_ok_bound p p1 W) as Hlen.
  assert (E : file_mode fs typed args p
              = (Ok (if bytes_eqb data image then success_msg
                     else mismatch_msg),
                 after p1 [EvWrite pointer; EvRead len])).
  { unfold file_mode, bind. rewrite W.
    rewrite (verify_run read p1 Hrd Hack). fold pointer. rewrite Hread.
    rewrite int_to_bytes_ok by (rewrite two_bytes_range; unfold len; lia).
    reflexivity. }
  split; [exact E|]. rewrite E. cbn [fst]. unfold bytes_eqb.
  split; intros H; destruct (list_eq_dec Byte.byte_eq_dec data image);
    try reflexivity; contradiction.
Qed.

End Flashing.

(** C1, as stated, fails for a long image: with 65537 bytes for the 24LC32
    on a port that acknowledges everything, the address after the page at
    0xFFE0 does not fit in two bytes, [file_mode] raises [OverflowError]
    after 2048 page writes, and the last of the 2049 pages is never
    written. *)
Lemma file_mode_long_image_stops :
  let image := repeat x00 (Z.to_nat 65537) in
  let args := mkArgs (descriptor "24LC32") (Some image) in
  let run := file_mode no_files "image.txt" args (ideal_port []) in
  fst run = Raise (OverflowError "int too big to convert")
  /\ length (history (snd run)) = 2048%nat
  /\ length (pages 32 image) = 2049%nat.
Proof.
  intros image args run.
  assert (Hlen : Z.of_nat (length image) = 65537).
  { unfold image. rewrite repeat_length. lia. }
  pose proof (writing_overflows no_files "image.txt" args image eq_refl
                (PageWriteAction None (false, []), None) (ideal_port [])
                eq_refl eq_refl ltac:(rewrite Hlen; lia)
                (fun _ _ => eq_refl)) as W.
  assert (R : run = (Raise (OverflowError "int too big to convert"),
                     after (ideal_port [])
                       (config_events (args_device args)
                        ++ flat_map (page_events (args_device args) None)
                             (map (nth_page (page_size (args_device args)) image)
                                (seq 0 (reachable_pages
                                          (page_size (args_device args)))))))).
  { unfold run, file_mode, bind. rewrite W. reflexivity. }
  rewrite R. cbn [fst snd].
  split; [reflexivity|]. split.
  - unfold after. cbn [history ideal_port].
    rewrite !length_app, page_events_count, length_map, length_seq.
    reflexivity.
  - unfold pages. rewrite length_map, length_seq.
    unfold page_count. rewrite Hlen. reflexivity.
Qed.

Lemma file_mode_page_writes_witness :
  history (snd (file_mode no_files "image.txt"
                  (mkArgs (descriptor "ZL30267") (Some (repeat x41 40)))
                  (ideal_port (repeat x41 40))))
  = [EvWrite [x02; x00; x00; x80];
     EvWrite [x06]; EvWrite ([x02; x00; x00] ++ repeat x41 32);
     EvWrite [x06]; EvWrite ([x02; x00; x20] ++ repeat x41 8);
     EvWrite [x03; x00; x00]; EvRead 40]
  /\ pages 32 (repeat x41 40) = [(0, repeat x41 32); (32, repeat x41 8)]
  /\ concat (map snd (pages 32 (repeat x41 40))) = repeat x41 40
  /\ fst (file_mode no_files "image.txt"
            (mkArgs (descriptor "24LC32")
                    (Some (repeat xff (Z.to_nat 65536))))
            (ideal_port []))
     = Raise (OverflowError "int too big to convert").
Proof.
  split; [|split; [|split]].
  - pose proof (file_mode_page_writes no_files "image.txt"
                  (mkArgs (descriptor "ZL30267") (Some (repeat x41 40)))
                  (repeat x41 40) eq_refl
                  (PageWriteAction (Some [x02]) (true, [x06]), Some [x02])
                  (ReadAction (Some [x03]), Some [x03])
                  (ideal_port (repeat x41 40))
                  eq_refl eq_refl eq_refl (fun _ _ => eq_refl))
      as (H & _).
    apply H. reflexivity.
  - pose proof (file_mode_page_writes no_files "image.txt"
                  (mkArgs (descriptor "ZL30267") (Some (repeat x41 40)))
                  (repeat x41 40) eq_refl
                  (PageWriteAction (Some [x02]) (true, [x06]), Some [x02])
                  (ReadAction (Some [x03]), Some [x03])
                  (ideal_port (repeat x41 40))
                  eq_refl eq_refl eq_refl (fun _ _ => eq_refl))
      as (_ & _ & _ & H).
    apply (H eq_refl eq_refl).
  - pose proof (file_mode_page_writes no_files "image.txt"
                  (mkArgs (descriptor "ZL30267") (Some (repeat x41 40)))
                  (repeat x41 40) eq_refl
                  (PageWriteAction (Some [x02]) (true, [x06]), Some [x02])
                  (ReadAction (Some [x03]), Some [x03])
                  (ideal_port (repeat x41 40))
                  eq_refl eq_refl eq_refl (fun _ _ => eq_refl))
      as (_ & _ & H & _).
    exact H.
  - pose proof (file_mode_page_writes no_files "image.txt"
                  (mkArgs (descriptor "24LC32")
                          (Some (repeat xff (Z.to_nat 65536))))
                  (repeat xff (Z.to_nat 65536)) eq_refl
                  (PageWriteAction None (false, []), None)
                  (ReadAction None, None)
                  (ideal_port [])
                  eq_refl eq_refl eq_refl (fun _ _ => eq_refl))
      as (_ & H & _).
    rewrite H.
    + reflexivity.
    + rewrite repeat_length. lia.
Defined.

Lemma file_mode_verifies_witness :
  fst (file_mode no_files "image.txt"
         (mkArgs (descriptor "ZL30267") (Some (repeat x41 40)))
         (ideal_port (repeat x41 40))) = Ok success_msg
  /\ fst (file_mode no_files "image.txt"
            (mkArgs (descriptor "24LC32") (Some (repeat x41 40)))
            (ideal_port (repeat xff 40))) = Ok mismatch_msg.
Proof.
  split.
  - pose proof (file_mode_verifies no_files "image.txt"
                  (mkArgs (descriptor "ZL30267") (Some (repeat x41 40)))
                  (repeat x41 40) eq_refl
                  (ReadAction (Some [x03]), Some [x03])
                  (ideal_port (repeat x41 40))
                  (snd (writing no_files "image.txt"
                          (mkArgs (descriptor "ZL30267")
                                  (Some (repeat x41 40)))
                          (ideal_port (repeat x41 40))))
                  (repeat x41 40)
                  eq_refl eq_refl eq_refl eq_refl) as (_ & H & _).
    apply H. reflexivity.
  - pose proof (file_mode_verifies no_files "image.txt"
                  (mkArgs (descriptor "24LC32") (Some (repeat x41 40)))
                  (repeat x41 40) eq_refl
                  (ReadAction None, None)
                  (ideal_port (repeat xff 40))
                  (snd (writing no_files "image.txt"
                          (mkArgs (descriptor "24LC32")
                                  (Some (repeat x41 40)))
                          (ideal_port (repeat xff 40))))
                  (repeat xff 40)
                  eq_refl eq_refl eq_refl eq_refl) as (_ & _ & H).
    apply H. intros E. discriminate E.
Defined.

(** * More of the program *)

(** ** Addresses as numbers *)

Lemma int_from_bytes_bound (bs : bytes) :
  int_from_bytes bs < 256 ^ Z.of_nat (length bs).
Proof.
  induction bs as [|b bs IH] using rev_ind.
  - reflexivity.
  - rewrite int_from_bytes_snoc, length_app. cbn [length].
    rewrite Nat.add_1_r, Nat2Z.inj_succ, Z.pow_succ_r by lia.
    pose proof (byte_val_range b). lia.
Qed.

(** Encoding the value of an address in its own width gives it back. *)
Lemma be_digits_int_from_bytes (bs : bytes) :
  be_digits (length bs) (int_from_bytes bs) = bs.
Proof.
  induction bs as [|b bs IH] using rev_ind.
  - reflexivity.
  - rewrite int_from_bytes_snoc, length_app. cbn [length].
    rewrite Nat.add_1_r. cbn [be_digits].
    pose proof (byte_val_range b) as Hb.
    replace ((int_from_bytes bs * 256 + byte_val b) / 256)
      with (int_from_bytes bs)
      by (apply Z.div_unique with (r := byte_val b); lia).
    replace ((int_from_bytes bs * 256 + byte_val b) mod 256)
      with (byte_val b)
      by (apply Z.mod_unique with (q := int_from_bytes bs); lia).
    rewrite IH, byte_of_Z_val. reflexivity.
Qed.

Lemma int_to_bytes_same (bs : bytes) :
  int_to_bytes (int_from_bytes bs) (length bs) = Ok bs.
Proof.
  rewrite int_to_bytes_ok, be_digits_int_from_bytes; [reflexivity|].
  split; [apply int_from_bytes_nonneg|apply int_from_bytes_bound].
Qed.

(** ** Single writes and reads *)

Lemma eeprom_write_run (p : I2cPort) (address data : bytes)
    (command : option bytes) :
  acks p (or_empty command ++ address ++ data) ->
  eeprom_write address data command p
  = (match int_to_bytes (int_from_bytes address + 1) (length address) with
     | Ok next => Ok (data, next)
     | Raise e => Raise e
     end,
     after p [EvWrite (or_empty command ++ address ++ data)]).
Proof.
  intros Hack. unfold eeprom_write.
  unfold bind at 1. rewrite (port_write_acked _ _ Hack).
  unfold bind, lift, ret. destruct (int_to_bytes _ _); reflexivity.
Qed.

(** X1: on a port that acknowledges the write, [eeprom_write] makes one
    call, the frame of command (if any), address and data, with no
    write-enable before it; it returns the data and address + 1, whatever
    the length of the data, when that fits in the width of the address, and
    raises [OverflowError] after the write when it does not. *)
Theorem eeprom_write_transaction (p : I2cPort) (address data : bytes)
    (command : option bytes) :
  acks p (or_empty command ++ address ++ data) ->
  let frame := or_empty command ++ address ++ data in
  (int_from_bytes address + 1 < 256 ^ Z.of_nat (length address) ->
   exists next,
     eeprom_write address data command p
     = (Ok (data, next), after p [EvWrite frame])
     /\ length next = length address
     /\ int_from_bytes next = int_from_bytes address + 1)
  /\ (256 ^ Z.of_nat (length address) <= int_from_bytes address + 1 ->
      eeprom_write address data command p
      = (Raise (OverflowError "int too big to convert"),
         after p [EvWrite frame])).
Proof.
  intros Hack frame.
  pose proof (eeprom_write_run p address data command Hack) as R.
  pose proof (int_from_bytes_nonneg address) as Hn.
  split; intros Hs.
  - exists (be_digits (length address) (int_from_bytes address + 1)).
    rewrite R, int_to_bytes_ok by lia.
    split; [reflexivity|]. split.
    + apply be_digits_length.
    + apply int_from_be_digits. lia.
  - rewrite R, int_to_bytes_overflow by lia. reflexivity.
Qed.

Lemma eeprom_write_transaction_witness :
  (exists next,
     eeprom_write [x00; x10] [xaa; xbb; xcc] None (ideal_port [])
     = (Ok ([xaa; xbb; xcc], next),
        after (ideal_port []) [EvWrite [x00; x10; xaa; xbb; xcc]])
     /\ length next = 2%nat
     /\ int_from_bytes next = 16 + 1)
  /\ eeprom_write [xff; xff] [x80] (Some [x02]) (ideal_port [])
     = (Raise (OverflowError "int too big to convert"),
        after (ideal_port []) [EvWrite [x02; xff; xff; x80]]).
Proof.
  split.
  - apply (eeprom_write_transaction (ideal_port []) [x00; x10]
             [xaa; xbb; xcc] None eq_refl).
    vm_compute. reflexivity.
  - apply (eeprom_write_transaction (ideal_port []) [xff; xff] [x80]
             (Some [x02]) eq_refl).
    vm_compute. intros E. discriminate E.
Defined.

(** X2: on a port that acknowledges the pointer write and answers the read,
    [eeprom_read] makes two calls, a write of command (if any) and address,
    then one read of [n] bytes; it returns the bytes read and address + n
    in the width of the address when that sum is not negative and fits, and
    raises [OverflowError] after the two calls when it does not. *)
Theorem eeprom_read_transactions (p : I2cPort) (address : bytes) (n : Z)
    (command : option bytes) (got : bytes) :
  let pointer := or_empty command ++ address in
  acks p pointer ->
  on_read p (history p ++ [EvWrite pointer]) n = Ok got ->
  (0 <= int_from_bytes address + n < 256 ^ Z.of_nat (length address) ->
   exists next,
     eeprom_read address n command p
     = (Ok (got, next), after p [EvWrite pointer; EvRead n])
     /\ length next = length address
     /\ int_from_bytes next = int_from_bytes address + n)
  /\ (256 ^ Z.of_nat (length address) <= int_from_bytes address + n
      \/ int_from_bytes address + n < 0 ->
      exists m,
        eeprom_read address n command p
        = (Raise (OverflowError m), after p [EvWrite pointer; EvRead n])).
Proof.
  intros pointer Hack Hread.
  pose proof (eeprom_read_run p address n command Hack) as R.
  fold pointer in R. rewrite Hread in R.
  split; intros Hs.
  - exists (be_digits (length address) (int_from_bytes address + n)).
    rewrite R, int_to_bytes_ok by lia.
    split; [reflexivity|]. split.
    + apply be_digits_length.
    + apply int_from_be_digits. lia.
  - rewrite R. unfold int_to_bytes.
    destruct (Z.ltb_spec (int_from_bytes address + n) 0).
    + eexists. reflexivity.
    + destruct (Z.leb_spec (256 ^ Z.of_nat (length address))
                  (int_from_bytes address + n)); [|lia].
      eexists. reflexivity.
Qed.

Lemma eeprom_read_transactions_witness :
  (exists next,
     eeprom_read [x0f; xf0] 4 (Some [x03]) (ideal_port [x01; x02; x03; x04])
     = (Ok ([x01; x02; x03; x04], next),
        after (ideal_port [x01; x02; x03; x04])
          [EvWrite [x03; x0f; xf0]; EvRead 4])
     /\ length next = 2%nat
     /\ int_from_bytes next = 4080 + 4)
  /\ (exists m,
        eeprom_read [x00; x02] (-3) None (ideal_port [])
        = (Raise (OverflowError m),
           after (ideal_port []) [EvWrite [x00; x02]; EvRead (-3)])).
Proof.
  split.
  - apply (eeprom_read_transactions (ideal_port [x01; x02; x03; x04])
             [x0f; xf0] 4 (Some [x03]) [x01; x02; x03; x04] eq_refl eq_refl).
    vm_compute. split; [intros E; discriminate E|reflexivity].
  - apply (eeprom_read_transactions (ideal_port []) [x00; x02] (-3) None []
             eq_refl eq_refl).
    right. vm_compute. reflexivity.
Defined.

(** X3: a transaction that moves no data gives the address back unchanged:
    [eeprom_page_write] with empty data sends command and address alone and
    returns the address it was given, and so does [eeprom_read] of zero
    bytes; the address is re-encoded, and no width is too small for it. *)
Theorem zero_advance_keeps_address (p : I2cPort) (address : bytes)
    (command : option bytes) (we : bool * bytes) (got : bytes) :
  let pointer := or_empty command ++ address in
  ((fst we = true -> acks p (snd we)) ->
   acks (after p (enable_events we)) pointer ->
   eeprom_page_write address [] command we p
   = (Ok ([], address), after p (enable_events we ++ [EvWrite pointer])))
  /\ (acks p pointer ->
      on_read p (history p ++ [EvWrite pointer]) 0 = Ok got ->
      eeprom_read address 0 command p
      = (Ok (got, address), after p [EvWrite pointer; EvRead 0])).
Proof.
  intros pointer. split.
  - intros Hwe Hack.
    rewrite eeprom_page_write_run;
      [|exact Hwe|rewrite app_nil_r; exact Hack].
    cbn [length]. rewrite Z.add_0_r, int_to_bytes_same, app_nil_r.
    reflexivity.
  - intros Hack Hread.
    rewrite (eeprom_read_run p address 0 command Hack).
    fold pointer. rewrite Hread, Z.add_0_r, int_to_bytes_same. reflexivity.
Qed.

Lemma zero_advance_keeps_address_witness :
  eeprom_page_write [x0a; xbc] [] (Some [x02]) (true, [x06]) (ideal_port [])
  = (Ok ([], [x0a; xbc]),
     after (ideal_port []) [EvWrite [x06]; EvWrite [x02; x0a; xbc]])
  /\ eeprom_read [x0a; xbc] 0 None (ideal_port [])
     = (Ok ([], [x0a; xbc]),
        after (ideal_port []) [EvWrite [x0a; xbc]; EvRead 0]).
Proof.
  split.
  - apply (zero_advance_keeps_address (ideal_port []) [x0a; xbc]
             (Some [x02]) (true, [x06]) []).
    + intros _. reflexivity.
    + reflexivity.
  - apply (zero_advance_keeps_address (ideal_port []) [x0a; xbc]
             None (false, []) []); reflexivity.
Defined.

(** X4: page writes chain through the address they return: on a port that
    acknowledges every write, writing [d1] at an address and then [d2] at
    the address returned sends [d2] at address + len(d1) and ends at the
    address that one write of [d1 ++ d2] returns, provided the end fits in
    the width of the address. *)
Theorem page_writes_chain (p : I2cPort) (address d1 d2 : bytes)
    (command : option bytes) (we : bool * bytes) :
  acks_all p ->
  int_from_bytes address + Z.of_nat (length d1) + Z.of_nat (length d2)
    < 256 ^ Z.of_nat (length address) ->
  exists middle next,
    (out <- eeprom_page_write address d1 command we ;;
     eeprom_page_write (snd out) d2 command we) p
    = (Ok (d2, next),
       after p (enable_events we
                ++ [EvWrite (or_empty command ++ address ++ d1)]
                ++ enable_events we
                ++ [EvWrite (or_empty command ++ middle ++ d2)]))
    /\ length middle = length address
    /\ int_from_bytes middle = int_from_bytes address + Z.of_nat (length d1)
    /\ fst (eeprom_page_write address (d1 ++ d2) command we p)
       = Ok (d1 ++ d2, next).
Proof.
  intros Hack Hfit.
  pose proof (int_from_bytes_nonneg address) as Hn.
  set (w := length address) in *.
  set (mid := be_digits w (int_from_bytes address + Z.of_nat (length d1))).
  set (nxt := be_digits w (int_from_bytes address + Z.of_nat (length d1)
                           + Z.of_nat (length d2))).
  assert (Hmid : int_from_bytes mid
                 = int_from_bytes address + Z.of_nat (length d1))
    by (apply int_from_be_digits; lia).
  assert (Hw : length mid = w) by apply be_digits_length.
  exists mid, nxt. split; [|split; [exact Hw|split; [exact Hmid|]]].
  - unfold bind.
    rewrite eeprom_page_write_run by (intros; apply Hack).
    fold w. rewrite int_to_bytes_ok by lia. fold mid. cbn [snd].
    rewrite eeprom_page_write_run by (intros; apply Hack).
    rewrite Hw, Hmid, int_to_bytes_ok by lia. fold nxt.
    rewrite after_after, <- !app_assoc. reflexivity.
  - rewrite eeprom_page_write_run by (intros; apply Hack).
    fold w. rewrite length_app, Nat2Z.inj_add, Z.add_assoc.
    rewrite int_to_bytes_ok by lia. reflexivity.
Qed.

Lemma page_writes_chain_witness :
  exists middle next,
    (out <- eeprom_page_write [x00; x1e] [x01; x02] None (false, []) ;;
     eeprom_page_write (snd out) [x03; x04; x05] None (false, []))
      (ideal_port [])
    = (Ok ([x03; x04; x05], next),
       after (ideal_port [])
         (enable_events (false, [])
          ++ [EvWrite (or_empty None ++ [x00; x1e] ++ [x01; x02])]
          ++ enable_events (false, [])
          ++ [EvWrite (or_empty None ++ middle ++ [x03; x04; x05])]))
    /\ length middle = length [x00; x1e]
    /\ int_from_bytes middle
       = int_from_bytes [x00; x1e] + Z.of_nat (length [x01; x02])
    /\ fst (eeprom_page_write [x00; x1e] ([x01; x02] ++ [x03; x04; x05])
              None (false, []) (ideal_port []))
       = Ok ([x01; x02] ++ [x03; x04; x05], next).
Proof.
  apply (page_writes_chain (ideal_port []) [x00; x1e] [x01; x02]
           [x03; x04; x05] None (false, []) (fun _ _ => eq_refl)).
  vm_compute. reflexivity.
Defined.

(** ** Hexadecimal text and back *)

Lemma fromhex_at_byte_hex (b : byte) (pos : nat) (rest : list ascii) :
  fromhex_at pos (byte_hex b ++ rest)
  = match fromhex_at (S (S pos)) rest with
    | Ok bs => Ok (b :: bs)
    | Raise e => Raise e
    end.
Proof. destruct b; reflexivity. Qed.

Lemma byte_hex_facts (b : byte) :
  forallb is_hex (byte_hex b) = true
  /\ lower (byte_hex b) = byte_hex b
  /\ forall pos rest,
       first_non_ascii pos (byte_hex b ++ rest)
       = first_non_ascii (S (S pos)) rest.
Proof. destruct b; repeat split. Qed.

Lemma c_space_ascii (c : ascii) : c_isspace c = true -> (128 <=? code c) = false.
Proof.
  destruct c as [[] [] [] [] [] [] [] []]; intros H;
    try discriminate H; reflexivity.
Qed.

Lemma bytes_hex_cons (sep : option ascii) (b : byte) (r : bytes) :
  r <> [] ->
  bytes_hex sep (b :: r)
  = byte_hex b ++ match sep with Some c => [c] | None => [] end
    ++ bytes_hex sep r.
Proof. destruct r; [contradiction|reflexivity]. Qed.

Lemma bytes_hex_plain (b : byte) (r : bytes) :
  bytes_hex None (b :: r) = byte_hex b ++ bytes_hex None r.
Proof.
  destruct r as [|b' r].
  - cbn [bytes_hex]. rewrite app_nil_r. reflexivity.
  - reflexivity.
Qed.

Lemma fromhex_at_bytes_hex (sep : option ascii) (bs : bytes) :
  match sep with Some c => c_isspace c = true | None => True end ->
  forall pos, fromhex_at pos (bytes_hex sep bs) = Ok bs.
Proof.
  intros Hsep. induction bs as [|b r IH]; intros pos.
  - reflexivity.
  - destruct r as [|b' r].
    + cbn [bytes_hex]. rewrite <- (app_nil_r (byte_hex b)).
      rewrite fromhex_at_byte_hex. reflexivity.
    + rewrite bytes_hex_cons by discriminate.
      rewrite fromhex_at_byte_hex.
      destruct sep as [c|].
      * cbn [app fromhex_at]. rewrite Hsep, IH. reflexivity.
      * cbn [app]. rewrite IH. reflexivity.
Qed.

Lemma first_non_ascii_bytes_hex (sep : option ascii) (bs : bytes) :
  match sep with Some c => c_isspace c = true | None => True end ->
  forall pos, first_non_ascii pos (bytes_hex sep bs) = None.
Proof.
  intros Hsep. induction bs as [|b r IH]; intros pos.
  - reflexivity.
  - destruct (byte_hex_facts b) as (_ & _ & Hb).
    destruct r as [|b' r].
    + cbn [bytes_hex]. rewrite <- (app_nil_r (byte_hex b)), Hb. reflexivity.
    + rewrite bytes_hex_cons by discriminate. rewrite Hb.
      destruct sep as [c|].
      * cbn [app first_non_ascii]. rewrite (c_space_ascii c Hsep). apply IH.
      * cbn [app]. apply IH.
Qed.

Lemma bytes_hex_plain_facts (bs : bytes) :
  forallb is_hex (bytes_hex None bs) = true
  /\ lower (bytes_hex None bs) = bytes_hex None bs.
Proof.
  induction bs as [|b r [IH1 IH2]].
  - split; reflexivity.
  - rewrite bytes_hex_plain. destruct (byte_hex_facts b) as (H1 & H2 & _).
    split.
    + rewrite forallb_app, H1, IH1. reflexivity.
    + unfold lower in *. rewrite map_app, H2, IH2. reflexivity.
Qed.

Lemma bytes_fromhex_bytes_hex (sep : option ascii) (bs : bytes) :
  match sep with Some c => c_isspace c = true | None => True end ->
  bytes_fromhex (bytes_hex sep bs) = Ok bs.
Proof.
  intros Hsep. unfold bytes_fromhex.
  rewrite first_non_ascii_bytes_hex by exact Hsep.
  apply fromhex_at_bytes_hex. exact Hsep.
Qed.

(** X5: the hexadecimal text of bytes reads back as these bytes:
    [bytes.fromhex] (which reads the data of a page write) gives back [bs]
    from [bs.hex()] and from [bs.hex(sep)] for a white-space separator, the
    form in which the program prints data; and [byte_address_parse] gives
    back [bs] from [bs.hex()], with or without ["0x"] before it, when the
    value of [bs] is below the bound or there is no bound. *)
Theorem hex_text_reads_back (sep : option ascii) (bs : bytes)
    (max_size : option Z) :
  (match sep with Some c => c_isspace c = true | None => True end ->
   bytes_fromhex (bytes_hex sep bs) = Ok bs)
  /\ (match max_size with Some m => int_from_bytes bs < m | None => True end ->
      byte_address_parse (string_of_list_ascii (bytes_hex None bs)) max_size
      = Ok bs
      /\ byte_address_parse
           (string_of_list_ascii
              (list_ascii_of_string "0x" ++ bytes_hex None bs)) max_size
         = Ok bs).
Proof.
  split; [apply bytes_fromhex_bytes_hex|].
  intros Hmax. destruct (bytes_hex_plain_facts bs) as [Hhex Hlow].
  assert (R : forall pre, hex_prefix pre ->
            byte_address_parse
              (string_of_list_ascii (pre ++ bytes_hex None bs)) max_size
            = Ok bs).
  { intros pre Hpre.
    pose proof (byte_address_parse_typed [] pre (bytes_hex None bs) []
                  max_size eq_refl eq_refl Hpre Hhex) as R.
    cbn [app] in R. rewrite app_nil_r in R. rewrite R, Hlow.
    rewrite bytes_fromhex_bytes_hex by exact I.
    destruct max_size as [m|]; [|reflexivity].
    destruct (Z.geb_spec (int_from_bytes bs) m); [lia|reflexivity]. }
  split.
  - apply (R []). left. reflexivity.
  - apply R. right. left. reflexivity.
Qed.

Lemma hex_text_reads_back_witness :
  bytes_fromhex (bytes_hex (Some " "%char) [x00; x1f; xa5]) = Ok [x00; x1f; xa5]
  /\ byte_address_parse (string_of_list_ascii (bytes_hex None [x0f; xfe]))
       (Some (2 ^ 12)) = Ok [x0f; xfe]
  /\ byte_address_parse
       (string_of_list_ascii
          (list_ascii_of_string "0x" ++ bytes_hex None [x0f; xfe]))
       (Some (2 ^ 12)) = Ok [x0f; xfe].
Proof.
  split.
  - destruct (hex_text_reads_back (Some " "%char) [x00; x1f; xa5] None)
      as (H & _).
    apply H. reflexivity.
  - destruct (hex_text_reads_back None [x0f; xfe] (Some (2 ^ 12)))
      as (_ & H).
    apply H. reflexivity.
Defined.

(** ** Edges of the address codec *)

(** X6: a text with no digit at all (empty, white space only, or a bare
    ["0x"]) is accepted by [byte_address_parse] under any positive bound
    and gives the empty address; a page write at the empty address sends
    the data with no address bytes before it and then, if there is any
    data, raises [OverflowError]. *)
Theorem blank_text_is_the_empty_address (ws1 pre ws2 : list ascii)
    (max_size : option Z) (p : I2cPort) (data : bytes)
    (command : option bytes) :
  forallb py_isspace ws1 = true ->
  forallb py_isspace ws2 = true ->
  hex_prefix pre ->
  match max_size with Some m => 0 < m | None => True end ->
  byte_address_parse (string_of_list_ascii (ws1 ++ pre ++ ws2)) max_size
  = Ok []
  /\ (acks p (or_empty command ++ data) ->
      data <> [] ->
      eeprom_page_write [] data command (false, []) p
      = (Raise (OverflowError "int too big to convert"),
         after p [EvWrite (or_empty command ++ data)])).
Proof.
  intros H1 H2 Hpre Hmax. split.
  - pose proof (byte_address_parse_typed ws1 pre [] ws2 max_size
                  H1 H2 Hpre eq_refl) as R.
    cbn [app] in R. rewrite R. cbn.
    destruct max_size as [m|]; [|reflexivity].
    change (int_from_bytes []) with 0.
    destruct (Z.geb_spec 0 m); [lia|reflexivity].
  - intros Hack Hdata.
    rewrite eeprom_page_write_run;
      [|intros E; discriminate E
       |unfold acks; cbn [enable_events fst after on_write history app];
        rewrite app_nil_r; exact Hack].
    cbn [enable_events fst app length].
    change (int_from_bytes []) with 0.
    rewrite int_to_bytes_overflow; [reflexivity|].
    destruct data; [contradiction|]. cbn [length Z.of_nat]. lia.
Qed.

Lemma blank_text_is_the_empty_address_witness :
  byte_address_parse "  0X " (Some (2 ^ 12)) = Ok []
  /\ eeprom_page_write [] [x01; x02] None (false, []) (ideal_port [])
     = (Raise (OverflowError "int too big to convert"),
        after (ideal_port []) [EvWrite [x01; x02]]).
Proof.
  destruct (blank_text_is_the_empty_address
              (list_ascii_of_string "  ") (list_ascii_of_string "0X")
              (list_ascii_of_string " ") (Some (2 ^ 12)) (ideal_port [])
              [x01; x02] None eq_refl eq_refl
              (or_intror (or_intror eq_refl)) eq_refl) as (H1 & H2).
  split; [exact H1|]. apply H2; [reflexivity|discriminate].
Defined.

(** X7: whenever [byte_address_parse] returns an address under a bound, the
    value of the address is at least 0 and below the bound, and the text it
    read had hexadecimal digits and white space only, two digits for every
    byte returned. *)
Theorem parsed_address_is_below_the_bound (t : string) (m : Z) (a : bytes) :
  byte_address_parse t (Some m) = Ok a ->
  0 <= int_from_bytes a < m
  /\ forallb (fun c => is_hex c || c_isspace c)
       (address_digits (list_ascii_of_string t)) = true
  /\ count_hex (address_digits (list_ascii_of_string t))
     = (2 * length a)%nat.
Proof.
  unfold byte_address_parse.
  pose proof (bytes_fromhex_inv (address_digits (list_ascii_of_string t)))
    as Hinv.
  destruct (bytes_fromhex (address_digits (list_ascii_of_string t)))
    as [bs|e]; [|discriminate].
  destruct (Z.geb_spec (int_from_bytes bs) m); [discriminate|].
  intros E. injection E as <-. destruct Hinv as [Hc Hall].
  pose proof (int_from_bytes_nonneg bs). repeat split; try assumption; lia.
Qed.

Lemma parsed_address_is_below_the_bound_witness :
  0 <= int_from_bytes [x0f; xff] < 2 ^ 12
  /\ forallb (fun c => is_hex c || c_isspace c)
       (address_digits (list_ascii_of_string " 0x0FFF")) = true
  /\ count_hex (address_digits (list_ascii_of_string " 0x0FFF"))
     = (2 * length [x0f; xff])%nat.
Proof.
  apply (parsed_address_is_below_the_bound " 0x0FFF" (2 ^ 12) [x0f; xff]).
  reflexivity.
Defined.

(** ** More on the image codec *)

Lemma image_lines_raises (lines : list string) :
  forall (out : bytes) (e : exn),
    image_lines lines out = Raise e ->
    exists m, e = ValueError m \/ e = OverflowError m.
Proof.
  induction lines as [|l r IH]; intros out e H.
  - discriminate H.
  - rewrite image_lines_cons in H.
    destruct (is_comment l); [exact (IH _ _ H)|].
    destruct (py_int16 (list_ascii_of_string l)) as [v|e'] eqn:P.
    + destruct (int_to_bytes v 1) as [b|e'] eqn:T; [exact (IH _ _ H)|].
      injection H as <-. apply int_to_bytes_raises in T as [m ->].
      exists m. right. reflexivity.
    + injection H as <-. apply py_int16_raises in P as [m ->].
      exists m. left. reflexivity.
Qed.

Lemma image_lines_ok_inv (lines : list string) :
  forall (out res : bytes),
    image_lines lines out = Ok res ->
    exists bs,
      res = out ++ bs
      /\ Forall2 byte_line (filter (fun l => negb (is_comment l)) lines) bs.
Proof.
  induction lines as [|l r IH]; intros out res H.
  - injection H as <-. exists []. rewrite app_nil_r. split; constructor.
  - rewrite image_lines_cons in H. cbn [filter].
    destruct (is_comment l); cbn [negb]; [exact (IH _ _ H)|].
    destruct (py_int16 (list_ascii_of_string l)) as [v|e] eqn:P;
      [|discriminate H].
    destruct (int_to_bytes v 1) as [b|e] eqn:T; [|discriminate H].
    apply int_to_bytes_one_inv in T as (b0 & -> & ->).
    destruct (IH _ _ H) as (bs & -> & Hbs).
    exists (b0 :: bs). rewrite <- app_assoc. split; [reflexivity|].
    constructor; assumption.
Qed.

(** X9: when [zl_eeprom_image_parse] returns an image, the path has the
    extension [.txt], that file and no other was opened, and the image has
    one byte for every line without a semicolon, in the order of the file,
    each line reading as its byte. *)
Theorem parsed_image_matches_the_lines (fs : filesystem) (file_name : string)
    (image : bytes) (opens : list string) :
  zl_eeprom_image_parse fs file_name = (Ok image, opens) ->
  extension file_name = ".txt"%string
  /\ opens = [file_name]
  /\ exists lines,
       fs file_name = Lines lines
       /\ Forall2 byte_line (filter (fun l => negb (is_comment l)) lines) image
       /\ length image
          = length (filter (fun l => negb (is_comment l)) lines).
Proof.
  unfold zl_eeprom_image_parse, image_parse_try.
  destruct (String.eqb_spec (extension file_name) ".txt") as [Hext|Hext];
    cbn [negb]; [|discriminate].
  destruct (fs file_name) as [m|m|m|lines|e0|lines e0] eqn:Hfs;
    try discriminate; [|destruct (image_lines lines []); discriminate].
  destruct (image_lines lines []) as [bs|e] eqn:L; [|discriminate].
  intros E. injection E as <- <-.
  apply image_lines_ok_inv in L as (bs' & -> & Hbs). cbn [app] in *.
  split; [exact Hext|]. split; [reflexivity|].
  exists lines. split; [reflexivity|]. split; [exact Hbs|].
  symmetry. exact (Forall2_length Hbs).
Qed.

Lemma parsed_image_matches_the_lines_witness :
  extension "image.txt" = ".txt"%string
  /\ ["image.txt"%string] = ["image.txt"%string]
  /\ exists lines,
       Lines example_lines = Lines lines
       /\ Forall2 byte_line (filter (fun l => negb (is_comment l)) lines)
            [x02; x0a; xff]
       /\ length [x02; x0a; xff]
          = length (filter (fun l => negb (is_comment l)) lines).
Proof.
  apply (parsed_image_matches_the_lines (fun _ => Lines example_lines)
           "image.txt" [x02; x0a; xff] ["image.txt"%string]).
  reflexivity.
Defined.

(** ** Which lines read as a byte *)

Lemma py_int16_stages (s : list ascii) :
  py_int16 s
  = let bad := Raise (ValueError
      ("invalid literal for int() with base 16: " ++ py_repr s)%string) in
    let '(sign, s2) := int_sign (drop_while int_isspace s) in
    let s3 := int_prefix s2 in
    match s3 with
    | "_"%char :: _ => bad
    | _ =>
        match scan_digits false false 0 s3 with
        | Some (v, true, rest) =>
            match drop_while int_isspace rest with
            | [] => Ok (sign * v)
            | _ :: _ => bad
            end
        | _ => bad
        end
    end.
Proof. reflexivity. Qed.

(** What a successful [int(s, 16)] went through. *)
Lemma py_int16_ok_inv (s : list ascii) (n : Z) :
  py_int16 s = Ok n ->
  exists sign s2 v rest,
    int_sign (drop_while int_isspace s) = (sign, s2)
    /\ scan_digits false false 0 (int_prefix s2) = Some (v, true, rest)
    /\ drop_while int_isspace rest = []
    /\ n = sign * v.
Proof.
  rewrite py_int16_stages. cbv zeta.
  destruct (int_sign (drop_while int_isspace s)) as [sign s2] eqn:Es.
  destruct (int_prefix s2) as [|c r] eqn:E3.
  - cbn. discriminate.
  - intros H. exists sign, s2.
    assert (H' : match scan_digits false false 0 (c :: r) with
                 | Some (v, true, rest) =>
                     match drop_while int_isspace rest with
                     | [] => Ok (sign * v)
                     | _ :: _ => @Raise Z (ValueError EmptyString)
                     end
                 | _ => Raise (ValueError EmptyString)
                 end = Ok n).
    { destruct c as [[] [] [] [] [] [] [] []]; cbv beta iota in H;
        try discriminate H;
        destruct (scan_digits false false 0 _) as [[[v []] rest]|];
        try discriminate H;
        destruct (drop_while int_isspace rest); try discriminate H;
        exact H. }
    destruct (scan_digits false false 0 (c :: r)) as [[[v []] rest]|] eqn:Sc;
      try discriminate H'.
    destruct (drop_while int_isspace rest) eqn:D; try discriminate H'.
    injection H' as <-. exists v, rest.
    split; [reflexivity|]. split; [rewrite E3; exact Sc|].
    split; [exact D|reflexivity].
Qed.

Lemma int_sign_cases (s1 : list ascii) :
  int_sign s1 = (1, s1)
  \/ (exists r, s1 = "+"%char :: r /\ int_sign s1 = (1, r))
  \/ (exists r, s1 = "-"%char :: r /\ int_sign s1 = (-1, r)).
Proof.
  destruct s1 as [|c r]; [left; reflexivity|].
  destruct c as [[] [] [] [] [] [] [] []];
    first [ left; reflexivity
          | right; left; exists r; split; reflexivity
          | right; right; exists r; split; reflexivity ].
Qed.

Lemma int_prefix_cases (s2 : list ascii) :
  int_prefix s2 = s2
  \/ exists x,
       (x = "x"%char \/ x = "X"%char)
       /\ (s2 = "0"%char :: x :: int_prefix s2
           \/ s2 = "0"%char :: x :: "_"%char :: int_prefix s2).
Proof.
  destruct s2 as [|c [|x r]].
  - left. reflexivity.
  - left. destruct c as [[] [] [] [] [] [] [] []]; reflexivity.
  - destruct c as [[] [] [] [] [] [] [] []]; try (left; reflexivity).
    unfold int_prefix.
    destruct (Ascii.eqb_spec x "x") as [->|Hx]; cbn [orb].
    + right. exists "x"%char. split; [left; reflexivity|].
      destruct r as [|u r']; [left; reflexivity|].
      destruct u as [[] [] [] [] [] [] [] []];
        first [left; reflexivity | right; reflexivity].
    + destruct (Ascii.eqb_spec x "X") as [->|HX].
      * right. exists "X"%char. split; [right; reflexivity|].
        destruct r as [|u r']; [left; reflexivity|].
        destruct u as [[] [] [] [] [] [] [] []];
          first [left; reflexivity | right; reflexivity].
      * left. reflexivity.
Qed.

Lemma hex_in_alphabet (c : ascii) : is_hex c = true -> int_alphabet c = true.
Proof. unfold int_alphabet. intros ->. reflexivity. Qed.

Lemma space_in_alphabet (c : ascii) :
  int_isspace c = true -> int_alphabet c = true.
Proof. unfold int_alphabet. intros ->. rewrite orb_true_r. reflexivity. Qed.

Lemma scan_digits_alphabet (s : list ascii) :
  forall (prev_us seen : bool) (acc v : Z) (sn : bool) (rest : list ascii),
    scan_digits prev_us seen acc s = Some (v, sn, rest) ->
    forallb int_alphabet rest = true ->
    forallb int_alphabet s = true.
Proof.
  induction s as [|c r IH]; intros pu seen acc v sn rest H Hrest.
  - reflexivity.
  - cbn [scan_digits] in H. cbn [forallb].
    destruct (Ascii.eqb_spec c "_") as [->|Hc].
    + destruct pu; [discriminate H|].
      rewrite (IH _ _ _ _ _ _ H Hrest). reflexivity.
    + destruct (hex_digit c) as [d|] eqn:Hd.
      * rewrite (IH _ _ _ _ _ _ H Hrest), hex_in_alphabet;
          [reflexivity|unfold is_hex; rewrite Hd; reflexivity].
      * destruct pu; [discriminate H|].
        injection H as <- <- <-. exact Hrest.
Qed.

Lemma drop_while_nil {A} (f : A -> bool) (l : list A) :
  drop_while f l = [] -> forallb f l = true.
Proof.
  induction l as [|x l IH]; cbn [drop_while forallb]; intros H.
  - reflexivity.
  - destruct (f x); [exact (IH H)|discriminate H].
Qed.

Lemma forallb_drop_while {A} (f g : A -> bool) (l : list A) :
  (forall x, f x = true -> g x = true) ->
  forallb g (drop_while f l) = true -> forallb g l = true.
Proof.
  intros Hfg. induction l as [|x l IH]; cbn [drop_while forallb]; intros H.
  - reflexivity.
  - destruct (f x) eqn:Fx.
    + rewrite (Hfg x Fx), (IH H). reflexivity.
    + exact H.
Qed.

Lemma forallb_weaken {A} (f g : A -> bool) (l : list A) :
  (forall x, f x = true -> g x = true) ->
  forallb f l = true -> forallb g l = true.
Proof.
  intros Hfg. induction l as [|x l IH]; cbn [forallb]; intros H.
  - reflexivity.
  - apply andb_prop in H as [Hx Hl]. rewrite (Hfg x Hx), (IH Hl). reflexivity.
Qed.

(** A text that [int(s, 16)] accepts has characters of its alphabet only. *)
Lemma py_int16_alphabet (s : list ascii) (n : Z) :
  py_int16 s = Ok n -> forallb int_alphabet s = true.
Proof.
  intros H.
  apply py_int16_ok_inv in H as (sign & s2 & v & rest & Hs & Hd & Hr & _).
  apply (forallb_drop_while int_isspace); [exact space_in_alphabet|].
  assert (H3 : forallb int_alphabet (int_prefix s2) = true).
  { apply (scan_digits_alphabet _ _ _ _ _ _ _ Hd).
    apply (forallb_weaken int_isspace); [exact space_in_alphabet|].
    apply drop_while_nil. exact Hr. }
  assert (H2 : forallb int_alphabet s2 = true).
  { destruct (int_prefix_cases s2) as [E|(x & Hx & [E|E])].
    - rewrite <- E. exact H3.
    - rewrite E. cbn [forallb]. rewrite H3.
      destruct Hx as [-> | ->]; reflexivity.
    - rewrite E. cbn [forallb]. rewrite H3.
      destruct Hx as [-> | ->]; reflexivity. }
  destruct (int_sign_cases (drop_while int_isspace s))
    as [E|[(r & E1 & E)|(r & E1 & E)]];
    rewrite E in Hs; injection Hs as <- <-.
  - exact H2.
  - rewrite E1. cbn [forallb]. rewrite H2. reflexivity.
  - rewrite E1. cbn [forallb]. rewrite H2. reflexivity.
Qed.

Lemma py_int16_blank (s : list ascii) (n : Z) :
  forallb int_isspace s = true -> py_int16 s <> Ok n.
Proof.
  intros Hs H.
  apply py_int16_ok_inv in H as (sign & s2 & v & rest & Hsg & Hd & _).
  rewrite drop_while_all in Hsg by exact Hs.
  injection Hsg as <- <-. discriminate Hd.
Qed.

Lemma existsb_negb_forallb {A} (f : A -> bool) (l : list A) :
  existsb (fun x => negb (f x)) l = true -> forallb f l = false.
Proof.
  induction l as [|x l IH]; cbn [existsb forallb]; intros H.
  - discriminate H.
  - destruct (f x); cbn [negb orb andb] in *; [exact (IH H)|reflexivity].
Qed.

(** X10: in an image file whose text has characters below code point 256
    (Latin-1 text, ASCII text in particular), a line without a semicolon
    that is blank (white space only, as an empty line is), or that has a
    character other than hexadecimal digits, white space, [+], [-], [_],
    [x] and [X], makes [zl_eeprom_image_parse] raise [TypeError]: such a
    line is not skipped, and the bytes read before it are lost.  (Above
    code point 255 there are other decimal digits, which [int] reads.) *)
Theorem malformed_line_is_an_error (fs : filesystem) (file_name : string)
    (lines : list string) (line : string) :
  extension file_name = ".txt"%string ->
  fs file_name = Lines lines ->
  In line lines ->
  is_comment line = false ->
  forallb int_isspace (list_ascii_of_string line) = true
  \/ existsb (fun c => negb (int_alphabet c)) (list_ascii_of_string line)
     = true ->
  exists m,
    zl_eeprom_image_parse fs file_name = (Raise (TypeError m), [file_name]).
Proof.
  intros Hext Hfs Hin Hc Hbad.
  assert (Hno : forall b, ~ byte_line line b).
  { intros b Hb. unfold byte_line in Hb. destruct Hbad as [Hblank|Hchar].
    - exact (py_int16_blank _ _ Hblank Hb).
    - apply py_int16_alphabet in Hb.
      rewrite (existsb_negb_forallb _ _ Hchar) in Hb. discriminate Hb. }
  rewrite (zl_eeprom_image_parse_opened fs file_name lines Hext Hfs).
  destruct (image_lines_bad_line lines [] line Hin Hc Hno) as [m [E|E]];
    rewrite E; eexists; reflexivity.
Qed.

Lemma malformed_line_is_an_error_witness :
  (exists m,
     zl_eeprom_image_parse
       (fun _ => Lines ["02"; text1 "0" true; String newline EmptyString]%string)
       "image.txt"
     = (Raise (TypeError m), ["image.txt"%string]))
  /\ (exists m,
        zl_eeprom_image_parse (fun _ => Lines ["02"; "0A h"]%string)
          "image.txt"
        = (Raise (TypeError m), ["image.txt"%string])).
Proof.
  split.
  - apply (malformed_line_is_an_error
             (fun _ => Lines ["02"; text1 "0" true;
                              String newline EmptyString]%string)
             "image.txt"
             ["02"; text1 "0" true; String newline EmptyString]%string
             (String newline EmptyString) eq_refl eq_refl).
    + right. right. left. reflexivity.
    + reflexivity.
    + left. reflexivity.
  - apply (malformed_line_is_an_error
             (fun _ => Lines ["02"; "0A h"]%string) "image.txt"
             ["02"; "0A h"]%string "0A h"%string eq_refl eq_refl).
    + right. left. reflexivity.
    + reflexivity.
    + right. reflexivity.
Defined.

Lemma hex_char_more (c : ascii) :
  is_hex c = true ->
  int_isspace c = false
  /\ Ascii.eqb c "_" = false
  /\ (Ascii.eqb c "x" || Ascii.eqb c "X") = false
  /\ Ascii.eqb ";" c = false
  /\ (forall r, int_sign (c :: r) = (1, c :: r))
  /\ (forall (A : Type) (r : list ascii) (x y : A),
        match c :: r with
        | "_"%char :: _ => x
        | _ => y
        end = y).
Proof.
  destruct c as [[] [] [] [] [] [] [] []]; intros H;
    try discriminate H; repeat split.
Qed.

Lemma int_prefix_keep (c : ascii) (r : list ascii) :
  match r with
  | [] => True
  | x :: _ => (Ascii.eqb x "x" || Ascii.eqb x "X") = false
  end ->
  int_prefix (c :: r) = c :: r.
Proof.
  intros Hr.
  destruct (int_prefix_cases (c :: r)) as [E|(x & Hx & [E|E])];
    [exact E| |];
    injection E as _ E; destruct r as [|x' r']; try discriminate E;
    injection E as -> _; destruct Hx as [-> | ->]; discriminate Hr.
Qed.

(** The scan over hexadecimal digits takes them all. *)
Lemma scan_digits_hex (ds : list ascii) :
  forall (seen : bool) (acc : Z) (tail : list ascii),
    forallb is_hex ds = true ->
    tail = [] \/ tail = [newline] ->
    scan_digits false seen acc (ds ++ tail)
    = Some (fold_left (fun acc c => 16 * acc + digit_value c) ds acc,
            match ds with [] => seen | _ :: _ => true end,
            tail).
Proof.
  induction ds as [|c r IH]; intros seen acc tail Hds Htail.
  - destruct Htail as [-> | ->]; reflexivity.
  - cbn [forallb] in Hds. apply andb_prop in Hds as [Hc Hr].
    destruct (hex_char_more c Hc) as (_ & Hu & _).
    cbn [app scan_digits fold_left]. rewrite Hu, (is_hex_digit c Hc).
    rewrite (IH true _ tail Hr Htail). destruct r; reflexivity.
Qed.

(** A line of hexadecimal digits, however many, reads as their value. *)
Lemma py_int16_digits (ds tail : list ascii) :
  ds <> [] ->
  forallb is_hex ds = true ->
  tail = [] \/ tail = [newline] ->
  py_int16 (ds ++ tail) = Ok (hex_value ds).
Proof.
  intros Hne Hds Htail. destruct ds as [|c r]; [contradiction|].
  pose proof (scan_digits_hex (c :: r) false 0 tail Hds Htail) as Hscan.
  cbn [forallb] in Hds. apply andb_prop in Hds as [Hc Hr].
  destruct (hex_char_more c Hc) as (Hsp & _ & _ & _ & Hsign & Hus).
  rewrite py_int16_stages. cbv zeta.
  cbn [app drop_while]. rewrite Hsp, Hsign.
  rewrite int_prefix_keep.
  - cbn [app] in Hscan. rewrite (Hus _ []), Hscan.
    unfold hex_value.
    destruct Htail as [-> | ->].
    + cbn [drop_while]. rewrite Z.mul_1_l. reflexivity.
    + change (drop_while int_isspace [newline]) with (@nil ascii).
      rewrite Z.mul_1_l. reflexivity.
  - destruct r as [|x r'].
    + destruct Htail as [-> | ->]; [exact I|reflexivity].
    + cbn [forallb] in Hr. apply andb_prop in Hr as [Hx _].
      destruct (hex_char_more x Hx) as (_ & _ & Hxx & _). exact Hxx.
Qed.

Lemma fold_hex_nonneg (ds : list ascii) (acc : Z) :
  forallb is_hex ds = true -> 0 <= acc ->
  0 <= fold_left (fun acc c => 16 * acc + digit_value c) ds acc.
Proof.
  revert acc. induction ds as [|c r IH]; cbn [forallb fold_left];
    intros acc Hds Hacc.
  - exact Hacc.
  - apply andb_prop in Hds as [Hc Hr].
    destruct (hex_char_facts c Hc) as (_ & _ & _ & _ & _ & Hv).
    apply IH; [exact Hr|lia].
Qed.

Lemma digit_line_reads (ds : list ascii) (nl : bool) :
  ds <> [] -> forallb is_hex ds = true ->
  is_comment (digit_line ds nl) = false
  /\ py_int16 (list_ascii_of_string (digit_line ds nl)) = Ok (hex_value ds)
  /\ 0 <= hex_value ds.
Proof.
  intros Hne Hds. unfold digit_line, is_comment.
  rewrite list_ascii_of_string_of_list_ascii. split; [|split].
  - rewrite existsb_app.
    assert (H1 : existsb (Ascii.eqb ";") ds = false).
    { clear Hne. induction ds as [|c r IH]; [reflexivity|].
      cbn [forallb existsb] in *. apply andb_prop in Hds as [Hc Hr].
      destruct (hex_char_more c Hc) as (_ & _ & _ & -> & _). exact (IH Hr). }
    rewrite H1. destruct nl; reflexivity.
  - apply py_int16_digits; [exact Hne|exact Hds|].
    destruct nl; [right|left]; reflexivity.
  - apply fold_hex_nonneg; [exact Hds|lia].
Qed.

Lemma image_lines_digit_lines (dss : list (list ascii * bool)) :
  Forall (fun d => fst d <> [] /\ forallb is_hex (fst d) = true) dss ->
  forall out,
    (Forall (fun d => hex_value (fst d) < 256) dss ->
     image_lines (map (fun d => digit_line (fst d) (snd d)) dss) out
     = Ok (out ++ map (fun d => byte_of_Z (hex_value (fst d))) dss))
    /\ (Exists (fun d => 256 <= hex_value (fst d)) dss ->
        image_lines (map (fun d => digit_line (fst d) (snd d)) dss) out
        = Raise (OverflowError "int too big to convert")).
Proof.
  induction 1 as [|[ds nl] dss [Hne Hds] Hall IH]; intros out.
  - split.
    + intros _. cbn. rewrite app_nil_r. reflexivity.
    + intros H. inversion H.
  - cbn [fst snd] in *. cbn [map fst snd]. rewrite image_lines_cons.
    destruct (digit_line_reads ds nl Hne Hds) as (-> & -> & Hpos).
    cbn [fst snd].
    destruct (Z.lt_ge_cases (hex_value ds) 256) as [Hlt|Hge].
    + rewrite int_to_bytes_ok by (change (256 ^ Z.of_nat 1) with 256; lia).
      cbn [be_digits app]. rewrite Z.mod_small by lia.
      destruct (IH (out ++ [byte_of_Z (hex_value ds)])) as [IHok IHbad].
      split.
      * intros H. inversion H as [|? ? _ Hrest]; subst.
        rewrite (IHok Hrest), <- app_assoc. reflexivity.
      * intros H. inversion H as [? ? Hhead|? ? Hrest]; subst.
        -- cbn [fst] in Hhead. lia.
        -- exact (IHbad Hrest).
    + rewrite int_to_bytes_overflow
        by (change (256 ^ Z.of_nat 1) with 256; lia).
      split.
      * intros H. inversion H as [|? ? Hhead _]; subst.
        cbn [fst] in Hhead. lia.
      * intros _. reflexivity.
Qed.

(** X11: a line of hexadecimal digits is read by its value, not by its
    length: in a file of such lines, any number of digits on a line is
    accepted as long as the value is below 256 (so 000A is the byte 0A),
    and the image has these values in order; as soon as one line has a
    value of 256 or more the parse raises [TypeError] with the text of the
    overflow. *)
Theorem digit_lines_are_read_by_value (fs : filesystem) (file_name : string)
    (dss : list (list ascii * bool)) :
  extension file_name = ".txt"%string ->
  fs file_name = Lines (map (fun d => digit_line (fst d) (snd d)) dss) ->
  Forall (fun d => fst d <> [] /\ forallb is_hex (fst d) = true) dss ->
  (Forall (fun d => hex_value (fst d) < 256) dss ->
   zl_eeprom_image_parse fs file_name
   = (Ok (map (fun d => byte_of_Z (hex_value (fst d))) dss), [file_name]))
  /\ (Exists (fun d => 256 <= hex_value (fst d)) dss ->
      zl_eeprom_image_parse fs file_name
      = (Raise (TypeError
                  "An unexpected error occurred: int too big to convert"),
         [file_name])).
Proof.
  intros Hext Hfs Hdss.
  rewrite (zl_eeprom_image_parse_opened fs file_name _ Hext Hfs).
  destruct (image_lines_digit_lines dss Hdss []) as [Hok Hbad].
  split; intros H.
  - rewrite (Hok H). reflexivity.
  - rewrite (Hbad H). reflexivity.
Qed.

Lemma digit_lines_are_read_by_value_witness :
  zl_eeprom_image_parse
    (fun _ => Lines [digit_line (list_ascii_of_string "000A") true;
                     digit_line (list_ascii_of_string "f") false])
    "image.txt"
  = (Ok [x0a; x0f], ["image.txt"%string])
  /\ zl_eeprom_image_parse
       (fun _ => Lines [digit_line (list_ascii_of_string "0A") true;
                        digit_line (list_ascii_of_string "100") true])
       "image.txt"
     = (Raise (TypeError
                 "An unexpected error occurred: int too big to convert"),
        ["image.txt"%string]).
Proof.
  split.
  - apply (digit_lines_are_read_by_value
             (fun _ => Lines [digit_line (list_ascii_of_string "000A") true;
                              digit_line (list_ascii_of_string "f") false])
             "image.txt"
             [(list_ascii_of_string "000A", true);
              (list_ascii_of_string "f", false)] eq_refl eq_refl).
    + repeat constructor; discriminate.
    + repeat constructor.
  - apply (digit_lines_are_read_by_value
             (fun _ => Lines [digit_line (list_ascii_of_string "0A") true;
                              digit_line (list_ascii_of_string "100") true])
             "image.txt"
             [(list_ascii_of_string "0A", true);
              (list_ascii_of_string "100", true)] eq_refl eq_refl).
    + repeat constructor; discriminate.
    + right. left. cbn. discriminate.
Defined.

(** ** The text of a byte, and the reader of the program *)

Lemma drop_while_split {A} (f : A -> bool) (l : list A) :
  exists pre, l = pre ++ drop_while f l /\ forallb f pre = true.
Proof.
  induction l as [|x l (pre & E & Hpre)].
  - exists []. split; reflexivity.
  - cbn [drop_while]. destruct (f x) eqn:Hx.
    + exists (x :: pre). cbn [app forallb]. rewrite Hx, Hpre.
      split; [f_equal; exact E|reflexivity].
    + exists []. split; reflexivity.
Qed.

(** The text behind its leading white space is the trimmed text and white
    space. *)
Lemma trim_parts (s : list ascii) :
  exists ws,
    drop_while int_isspace s = trim s ++ ws
    /\ forallb int_isspace ws = true.
Proof.
  unfold trim.
  destruct (drop_while_split int_isspace (rev (drop_while int_isspace s)))
    as (pre & E & Hpre).
  exists (rev pre). split.
  - rewrite <- rev_app_distr, <- E, rev_involutive. reflexivity.
  - rewrite forallb_rev. exact Hpre.
Qed.

Lemma drop_while_head {A} (f : A -> bool) (l : list A) :
  match drop_while f l with
  | [] => True
  | x :: _ => f x = false
  end.
Proof.
  induction l as [|x l IH]; [exact I|].
  cbn [drop_while]. destruct (f x) eqn:Hx; [exact IH|exact Hx].
Qed.

(** A text without white space in front, and with a last character that is
    no white space, is its own trimmed text, whatever white space follows
    it. *)
Lemma trim_solid (x ws : list ascii) (c : ascii) :
  match x ++ [c] with
  | [] => True
  | h :: _ => int_isspace h = false
  end ->
  int_isspace c = false ->
  forallb int_isspace ws = true ->
  trim ((x ++ [c]) ++ ws) = x ++ [c].
Proof.
  intros Hh Hc Hws. unfold trim.
  assert (E : drop_while int_isspace ((x ++ [c]) ++ ws) = (x ++ [c]) ++ ws).
  { destruct (x ++ [c]) as [|h t] eqn:Ex.
    - destruct x; discriminate Ex.
    - cbn [app drop_while]. rewrite Hh. reflexivity. }
  rewrite E, rev_app_distr.
  rewrite drop_while_app_all by (rewrite forallb_rev; exact Hws).
  rewrite rev_app_distr. cbn [rev app drop_while]. rewrite Hc.
  change (c :: rev x) with ([c] ++ rev x).
  rewrite rev_app_distr, rev_involutive. reflexivity.
Qed.


Lemma space_stops_scan (w : ascii) :
  int_isspace w = true -> Ascii.eqb w "_" = false /\ hex_digit w = None.
Proof.
  destruct w as [[] [] [] [] [] [] [] []]; intros H;
    try discriminate H; split; reflexivity.
Qed.

(** The reader of the digits takes a text of digit groups as a whole. *)
Lemma scan_digits_groups (b : list ascii) :
  forall (prev seen : bool) (acc : Z) (ws : list ascii),
    forallb int_isspace ws = true ->
    forallb is_hex (fst (split_on "_" b)) = true ->
    forallb digit_group (snd (split_on "_" b)) = true ->
    (prev = true -> fst (split_on "_" b) <> []) ->
    scan_digits prev seen acc (b ++ ws)
    = Some (fold_left (fun acc c => 16 * acc + digit_value c)
              (concat (fst (split_on "_" b) :: snd (split_on "_" b))) acc,
            match b with [] => seen | _ :: _ => true end,
            ws).
Proof.
  induction b as [|c r IH]; intros prev seen acc ws Hws Hg Hgs Hprev.
  - cbn [split_on fst snd concat app fold_left] in *.
    destruct prev; [exfalso; apply Hprev; reflexivity|].
    destruct ws as [|w ws']; [reflexivity|].
    cbn [forallb] in Hws. apply andb_prop in Hws as [Hw _].
    destruct (space_stops_scan w Hw) as [Hus Hd].
    cbn [scan_digits]. rewrite Hus, Hd. reflexivity.
  - cbn [split_on] in Hg, Hgs, Hprev |- *.
    destruct (split_on "_" r) as [g gs] eqn:Er.
    cbn [app scan_digits].
    destruct (Ascii.eqb c "_") eqn:Hc.
    + cbn [fst snd] in *.
      destruct prev; [exfalso; apply Hprev; reflexivity|].
      cbn [forallb] in Hgs. apply andb_prop in Hgs as [Hg1 Hgs].
      rewrite (IH true true acc ws Hws).
      * cbn [fst snd concat app]. destruct r; reflexivity.
      * cbn [fst]. destruct g; [discriminate Hg1|exact Hg1].
      * exact Hgs.
      * cbn [fst]. intros _ E. rewrite E in Hg1. discriminate Hg1.
    + cbn [fst snd forallb] in *. apply andb_prop in Hg as [Hhc Hg].
      rewrite (is_hex_digit c Hhc).
      rewrite (IH false true _ ws Hws Hg Hgs) by discriminate.
      cbn [fst snd concat app fold_left]. destruct r; reflexivity.
Qed.

(** What the reader of the digits took is a text of digit groups. *)
Lemma scan_digits_inv (s : list ascii) :
  forall (prev seen : bool) (acc v : Z) (seen' : bool) (rest : list ascii),
    scan_digits prev seen acc s = Some (v, seen', rest) ->
    exists b,
      s = b ++ rest
      /\ forallb is_hex (fst (split_on "_" b)) = true
      /\ forallb digit_group (snd (split_on "_" b)) = true
      /\ (prev = true -> fst (split_on "_" b) <> [])
      /\ v = fold_left (fun acc c => 16 * acc + digit_value c)
               (concat (fst (split_on "_" b) :: snd (split_on "_" b))) acc
      /\ seen' = match b with [] => seen | _ :: _ => true end
      /\ is_hex (last b "0"%char) = true.
Proof.
  induction s as [|c r IH]; intros prev seen acc v seen' rest H.
  - cbn [scan_digits] in H. destruct prev; [discriminate H|].
    injection H as <- <- <-. exists [].
    repeat split; try reflexivity. discriminate.
  - cbn [scan_digits] in H. destruct (Ascii.eqb c "_") eqn:Hc.
    + destruct prev; [discriminate H|].
      destruct (IH _ _ _ _ _ _ H) as (b & -> & Hg & Hgs & Hne & -> & -> & Hl).
      exists (c :: b). cbn [split_on].
      destruct (split_on "_" b) as [g gs] eqn:Eb. rewrite Hc.
      cbn [fst snd forallb concat app] in *.
      specialize (Hne eq_refl).
      split; [reflexivity|]. split; [reflexivity|].
      split.
      { apply andb_true_intro. split; [|exact Hgs].
        destruct g; [contradiction|exact Hg]. }
      split; [discriminate|]. split; [reflexivity|].
      split; [destruct b; reflexivity|].
      destruct b as [|x b']; [|exact Hl].
      cbn [split_on] in Eb. injection Eb as <- <-. contradiction.
    + destruct (hex_digit c) as [d|] eqn:Hd.
      * destruct (IH _ _ _ _ _ _ H) as (b & -> & Hg & Hgs & _ & -> & -> & Hl).
        exists (c :: b). cbn [split_on].
        destruct (split_on "_" b) as [g gs] eqn:Eb. rewrite Hc.
        cbn [fst snd forallb concat app fold_left] in *.
        assert (Hhc : is_hex c = true) by (unfold is_hex; rewrite Hd; reflexivity).
        split; [reflexivity|]. split; [rewrite Hhc; exact Hg|].
        split; [exact Hgs|]. split; [discriminate|].
        split.
        { unfold digit_value. rewrite Hd. reflexivity. }
        split; [destruct b; reflexivity|].
        destruct b as [|x b']; [exact Hhc|exact Hl].
      * destruct prev; [discriminate H|].
        injection H as <- <- <-. exists [].
        repeat split; try reflexivity. discriminate.
Qed.

Lemma int_sign_app (t ws : list ascii) :
  t <> [] ->
  int_sign (t ++ ws) = (fst (int_sign t), snd (int_sign t) ++ ws).
Proof.
  destruct t as [|c r]; [contradiction|]. intros _.
  destruct c as [[] [] [] [] [] [] [] []]; reflexivity.
Qed.

Lemma int_prefix_app (t ws : list ascii) :
  forallb int_isspace ws = true ->
  int_prefix (t ++ ws) = int_prefix t ++ ws.
Proof.
  intros Hws. destruct ws as [|w ws']; [rewrite !app_nil_r; reflexivity|].
  cbn [forallb] in Hws. apply andb_prop in Hws as [Hw _].
  assert (Hus : Ascii.eqb w "_" = false
                /\ (Ascii.eqb w "x" || Ascii.eqb w "X") = false
                /\ Ascii.eqb w "0" = false).
  { destruct w as [[] [] [] [] [] [] [] []]; try discriminate Hw;
      repeat split. }
  destruct Hus as (Hus & Hx & H0).
  destruct t as [|c [|x r]].
  - cbn [app]. unfold int_prefix.
    destruct w as [[] [] [] [] [] [] [] []]; try reflexivity; discriminate H0.
  - cbn [app]. unfold int_prefix.
    destruct c as [[] [] [] [] [] [] [] []]; try reflexivity.
    rewrite Hx. reflexivity.
  - cbn [app]. unfold int_prefix.
    destruct c as [[] [] [] [] [] [] [] []]; try reflexivity.
    destruct (Ascii.eqb x "x" || Ascii.eqb x "X"); [|reflexivity].
    destruct r as [|y r']; cbn [app].
    + destruct w as [[] [] [] [] [] [] [] []]; try reflexivity;
        discriminate Hus.
    + destruct y as [[] [] [] [] [] [] [] []]; reflexivity.
Qed.

Lemma rstrip_solid (l ws : list ascii) :
  int_isspace (last l "0"%char) = false ->
  forallb int_isspace ws = true ->
  rev (drop_while int_isspace (rev (l ++ ws))) = l.
Proof.
  intros Hl Hws. rewrite rev_app_distr.
  rewrite drop_while_app_all by (rewrite forallb_rev; exact Hws).
  induction l as [|c l' _] using rev_ind; [reflexivity|].
  rewrite last_last in Hl. rewrite rev_app_distr.
  cbn [rev app drop_while]. rewrite Hl.
  change (c :: rev l') with ([c] ++ rev l').
  rewrite rev_app_distr, rev_involutive. reflexivity.
Qed.

Lemma trim_last (s : list ascii) :
  int_isspace (last (trim s) "0"%char) = false.
Proof.
  unfold trim.
  pose proof (drop_while_head int_isspace
                (rev (drop_while int_isspace s))) as H.
  destruct (drop_while int_isspace (rev (drop_while int_isspace s)))
    as [|h t]; [reflexivity|].
  cbn [rev]. rewrite last_last. exact H.
Qed.

Lemma last_tail (c : ascii) (l : list ascii) :
  int_isspace (last (c :: l) "0"%char) = false ->
  int_isspace (last l "0"%char) = false.
Proof. destruct l; [reflexivity|]. intros H. exact H. Qed.

Lemma int_sign_last (t : list ascii) :
  int_isspace (last t "0"%char) = false ->
  int_isspace (last (snd (int_sign t)) "0"%char) = false.
Proof.
  intros H. destruct (int_sign_cases t) as [E | [(r & -> & E) | (r & -> & E)]];
    rewrite E; cbn [snd]; [exact H| |]; apply (last_tail _ _ H).
Qed.

Lemma int_prefix_last (t : list ascii) :
  int_isspace (last t "0"%char) = false ->
  int_isspace (last (int_prefix t) "0"%char) = false.
Proof.
  intros H.
  destruct (int_prefix_cases t) as [E | (x & _ & [E | E])].
  - rewrite E. exact H.
  - rewrite E in H. apply last_tail in H. apply last_tail in H. exact H.
  - rewrite E in H. apply last_tail in H. apply last_tail in H.
    apply last_tail in H. exact H.
Qed.

Lemma hex_not_space (c : ascii) :
  is_hex c = true ->
  int_isspace c = false /\ starts_with_underscore [c] = false.
Proof.
  destruct c as [[] [] [] [] [] [] [] []]; intros H;
    try discriminate H; split; reflexivity.
Qed.

Lemma digit_groups_head (b ds : list ascii) :
  digit_groups b = Some ds ->
  exists c r, b = c :: r /\ is_hex c = true.
Proof.
  unfold digit_groups. destruct b as [|c r]; [discriminate|].
  cbn [split_on]. destruct (split_on "_" r) as [g gs].
  destruct (Ascii.eqb c "_"); [discriminate|].
  cbn [forallb digit_group].
  destruct (is_hex c) eqn:Hc; [|discriminate].
  intros _. exists c, r. split; [reflexivity|exact Hc].
Qed.

Lemma digit_groups_parts (b ds : list ascii) :
  digit_groups b = Some ds ->
  forallb is_hex (fst (split_on "_" b)) = true
  /\ forallb digit_group (snd (split_on "_" b)) = true
  /\ ds = concat (fst (split_on "_" b) :: snd (split_on "_" b)).
Proof.
  unfold digit_groups. destruct (split_on "_" b) as [g gs].
  cbn [forallb fst snd]. destruct (digit_group g) eqn:Hg; [|discriminate].
  destruct (forallb digit_group gs) eqn:Hgs; [|discriminate].
  intros E. injection E as <-.
  split; [|split; reflexivity].
  destruct g; [discriminate Hg|exact Hg].
Qed.

(** A text that stands for a number is read as this number. *)
Lemma numeral_py_int16 (s : list ascii) (v : Z) :
  numeral s = Some v -> py_int16 s = Ok v.
Proof.
  unfold numeral.
  destruct (int_sign (trim s)) as [sign t] eqn:Es.
  destruct (digit_groups (int_prefix t)) as [ds|] eqn:Eg; [|discriminate].
  intros E. injection E as <-.
  assert (Hne : trim s <> []).
  { intros E. rewrite E in Es. injection Es as <- <-. discriminate Eg. }
  destruct (trim_parts s) as (ws & Hs1 & Hws).
  rewrite py_int16_stages. cbv zeta.
  rewrite Hs1, (int_sign_app _ ws Hne), Es. cbn [fst snd].
  rewrite (int_prefix_app t ws Hws).
  destruct (digit_groups_head _ _ Eg) as (c & r & Eb & Hc).
  destruct (digit_groups_parts _ _ Eg) as (Hg & Hgs & ->).
  pose proof (scan_digits_groups (int_prefix t) false false 0 ws Hws Hg Hgs)
    as Hscan.
  rewrite Eb in *. cbn [app] in *.
  destruct (hex_char_more c Hc) as (_ & _ & _ & _ & _ & Hus).
  rewrite (Hus _ (r ++ ws)), Hscan by discriminate.
  rewrite (drop_while_all _ ws Hws). reflexivity.
Qed.

Lemma py_int16_ok_parts (s : list ascii) (n : Z) :
  py_int16 s = Ok n ->
  exists sign s2 v rest,
    int_sign (drop_while int_isspace s) = (sign, s2)
    /\ starts_with_underscore (int_prefix s2) = false
    /\ scan_digits false false 0 (int_prefix s2) = Some (v, true, rest)
    /\ drop_while int_isspace rest = []
    /\ n = sign * v.
Proof.
  intros H. destruct (py_int16_ok_inv s n H) as (sign & s2 & v & rest & E1 & E2 & E3 & E4).
  exists sign, s2, v, rest. repeat split; try assumption.
  rewrite py_int16_stages in H. cbv zeta in H. rewrite E1 in H.
  destruct (int_prefix s2) as [|c r]; [reflexivity|].
  destruct c as [[] [] [] [] [] [] [] []]; try reflexivity. discriminate H.
Qed.

(** A text that is read as a number stands for this number. *)
Lemma py_int16_numeral (s : list ascii) (v : Z) :
  py_int16 s = Ok v -> numeral s = Some v.
Proof.
  intros H.
  destruct (py_int16_ok_parts s v H)
    as (sign & s2 & v0 & rest & Es & Hus & Hscan & Hrest & ->).
  destruct (trim_parts s) as (ws & Hs1 & Hws).
  assert (Hne : trim s <> []).
  { intros E. rewrite E in Hs1. cbn [app] in Hs1.
    pose proof (drop_while_head int_isspace s) as Hh. rewrite Hs1 in Hh, Es.
    destruct ws as [|w ws'].
    - injection Es as <- <-. discriminate Hscan.
    - cbn [forallb] in Hws. apply andb_prop in Hws as [Hw _]. congruence. }
  rewrite Hs1, (int_sign_app _ ws Hne) in Es.
  injection Es as Esign Es2. subst s2.
  rewrite (int_prefix_app _ ws Hws) in Hscan, Hus.
  destruct (scan_digits_inv _ _ _ _ _ _ _ Hscan)
    as (b & Eb & Hg & Hgs & _ & -> & Hseen & Hlast).
  set (t := snd (int_sign (trim s))) in *.
  assert (Hb : int_prefix t = b).
  { pose proof (rstrip_solid (int_prefix t) ws) as R1.
    pose proof (rstrip_solid b rest) as R2.
    rewrite <- R1, Eb, R2.
    - reflexivity.
    - clear - Hlast. induction b as [|x b' _] using rev_ind; [reflexivity|].
      rewrite last_last in *. apply hex_not_space. exact Hlast.
    - apply drop_while_nil. exact Hrest.
    - apply int_prefix_last, int_sign_last, trim_last.
    - exact Hws. }
  unfold numeral. rewrite (surjective_pairing (int_sign (trim s))).
  fold t. rewrite Esign, Hb.
  assert (Hgr : digit_groups b
                = Some (concat (fst (split_on "_" b) :: snd (split_on "_" b)))).
  { unfold digit_groups. destruct b as [|c r]; [discriminate Hseen|].
    rewrite Hb in Hus. cbn [app starts_with_underscore] in Hus.
    cbn [split_on] in *. destruct (split_on "_" r) as [g gs].
    rewrite Hus in *. cbn [fst snd forallb digit_group] in *.
    rewrite Hg, Hgs. reflexivity. }
  rewrite Hgr. reflexivity.
Qed.

Lemma byte_text_line (line : string) (b : byte) :
  byte_text line = Some b <-> byte_line line b.
Proof.
  unfold byte_text, byte_line. split.
  - destruct (numeral (list_ascii_of_string line)) as [v|] eqn:N;
      [|discriminate].
    destruct (Z.leb_spec 0 v); [|discriminate].
    destruct (Z.ltb_spec v 256); [|discriminate].
    cbn [andb]. intros E. injection E as <-.
    rewrite byte_val_of_Z by lia. apply numeral_py_int16. exact N.
  - intros H. rewrite (py_int16_numeral _ _ H).
    pose proof (byte_val_range b).
    destruct (Z.leb_spec 0 (byte_val b)); [|lia].
    destruct (Z.ltb_spec (byte_val b) 256); [|lia].
    cbn [andb]. rewrite byte_of_Z_val. reflexivity.
Qed.

(** One line that counts: it is the text of a byte, which is appended, or
    the loop raises at it. *)
Lemma image_lines_step (line : string) (r : list string) (out : bytes) :
  is_comment line = false ->
  match byte_text line with
  | Some b => image_lines (line :: r) out = image_lines r (out ++ [b])
  | None => exists m, image_lines (line :: r) out = Raise (ValueError m)
                      \/ image_lines (line :: r) out = Raise (OverflowError m)
  end.
Proof.
  intros Hc. rewrite image_lines_cons, Hc.
  destruct (byte_text line) as [b|] eqn:B.
  - apply byte_text_line in B. unfold byte_line in B.
    rewrite B, int_to_bytes_one. reflexivity.
  - destruct (py_int16 (list_ascii_of_string line)) as [v|e] eqn:P.
    + destruct (int_to_bytes v 1) as [bs|e] eqn:T.
      * apply int_to_bytes_one_inv in T as (b & -> & ->).
        apply (proj2 (byte_text_line line b)) in P. congruence.
      * apply int_to_bytes_raises in T as [m ->]. exists m. right. reflexivity.
    + apply py_int16_raises in P as [m ->]. exists m. left. reflexivity.
Qed.

(** The loop over the lines, by the texts of bytes. *)
Lemma image_lines_texts (lines : list string) :
  forall out : bytes,
    (forall bs, map byte_text (content lines) = map Some bs ->
                image_lines lines out = Ok (out ++ bs))
    /\ (well_formed lines = false ->
        exists m, image_lines lines out = Raise (ValueError m)
                  \/ image_lines lines out = Raise (OverflowError m)).
Proof.
  induction lines as [|line r IH]; intros out.
  - split.
    + intros [|b bs] E; [|discriminate E]. rewrite app_nil_r. reflexivity.
    + discriminate.
  - unfold well_formed, content in *. cbn [filter].
    destruct (is_comment line) eqn:Hc; cbn [negb].
    + rewrite image_lines_cons, Hc. apply IH.
    + pose proof (image_lines_step line r out Hc) as Hstep.
      cbn [map forallb]. destruct (byte_text line) as [b|] eqn:B.
      * rewrite Hstep. split.
        -- intros [|b' bs] E; [discriminate E|]. cbn [map] in E.
           injection E as <- E.
           rewrite (proj1 (IH _) bs E), <- app_assoc. reflexivity.
        -- cbn [andb]. apply IH.
      * split; [intros [|b' bs] E; discriminate E|].
        intros _. exact Hstep.
Qed.

Lemma well_formed_texts (lines : list string) :
  well_formed lines = true ->
  exists bs, map byte_text (content lines) = map Some bs.
Proof.
  unfold well_formed. induction (content lines) as [|l r IH]; intros H.
  - exists []. reflexivity.
  - cbn [forallb] in H. apply andb_prop in H as [Hl Hr].
    destruct (IH Hr) as (bs & E).
    destruct (byte_text l) as [b|] eqn:B; [|discriminate Hl].
    exists (b :: bs). cbn [map]. rewrite B, E. reflexivity.
Qed.



Lemma image_lines_well_formed (lines : list string) (out : bytes) :
  match image_lines lines out with
  | Ok _ => well_formed lines = true
  | Raise e =>
      well_formed lines = false
      /\ exists m, e = ValueError m \/ e = OverflowError m
  end.
Proof.
  destruct (well_formed lines) eqn:W.
  - destruct (well_formed_texts lines W) as (bs & E).
    rewrite (proj1 (image_lines_texts lines out) bs E). reflexivity.
  - destruct (proj2 (image_lines_texts lines out) W) as [m [E|E]];
      rewrite E; (split; [reflexivity|]); exists m; [left|right]; reflexivity.
Qed.

(** X8: [zl_eeprom_image_parse] raises two kinds of exception only.  It
    raises [ValueError] exactly when the path has the extension [.txt], the
    opening or the reading of the file fails with an [OSError], and every
    line read before that is the text of a byte or has a semicolon; the
    text of the error tells a missing file, a refused access and another
    input-output error apart.  Every other failure is a [TypeError]: a
    wrong extension, a line that is not the text of a byte, and an opening
    or a reading that fails with an exception that is no [OSError], such as
    the [ValueError] for a path with a NUL character or the decoding error
    for bytes that are no text. *)
Theorem image_parse_error_kinds (fs : filesystem) (file_name : string)
    (e : exn) :
  fst (zl_eeprom_image_parse fs file_name) = Raise e ->
  (extension file_name = ".txt"%string
   /\ well_formed (lines_read (fs file_name)) = true
   /\ exists cause,
        file_failure (fs file_name) = Some cause
        /\ os_error cause = true
        /\ e = ValueError (access_msg file_name cause))
  \/ ((extension file_name <> ".txt"%string
       \/ well_formed (lines_read (fs file_name)) = false
       \/ exists cause,
            file_failure (fs file_name) = Some cause
            /\ os_error cause = false)
      /\ exists m, e = TypeError m).
Proof.
  assert (Cause : forall cause,
    os_error cause = true
    /\ image_parse_except file_name cause
       = ValueError (access_msg file_name cause)
    \/ os_error cause = false
       /\ exists m, image_parse_except file_name cause = TypeError m).
  { intros [m|m|m|k|m|m|m|m|m];
      first [left; split; reflexivity
            | right; split; [reflexivity|eexists; reflexivity]]. }
  unfold zl_eeprom_image_parse, image_parse_try.
  destruct (String.eqb_spec (extension file_name) ".txt") as [Hext|Hext];
    cbn [negb].
  - destruct (fs file_name) as [m|m|m|lines|e0|lines e0] eqn:Hfs;
      cbn [fst lines_read file_failure].
    + intros E. injection E as <-. left. split; [exact Hext|].
      split; [reflexivity|]. eexists. repeat split.
    + intros E. injection E as <-. left. split; [exact Hext|].
      split; [reflexivity|]. eexists. repeat split.
    + intros E. injection E as <-. left. split; [exact Hext|].
      split; [reflexivity|]. eexists. repeat split.
    + pose proof (image_lines_well_formed lines []) as W.
      destruct (image_lines lines []) as [bs|e']; cbn [fst]; [discriminate|].
      destruct W as (W & m & [-> | ->]); intros E; injection E as <-;
        right; (split; [right; left; exact W|]); eexists; reflexivity.
    + intros E. injection E as <-.
      destruct (Cause e0) as [[Hos ->] | [Hos (m & ->)]].
      * left. split; [exact Hext|]. split; [reflexivity|].
        exists e0. repeat split. exact Hos.
      * right. split; [|exists m; reflexivity].
        right. right. exists e0. split; [reflexivity|exact Hos].
    + pose proof (image_lines_well_formed lines []) as W.
      destruct (image_lines lines []) as [bs|e']; cbn [fst].
      * intros E. injection E as <-.
        destruct (Cause e0) as [[Hos ->] | [Hos (m & ->)]].
        -- left. split; [exact Hext|]. split; [exact W|].
           exists e0. repeat split. exact Hos.
        -- right. split; [|exists m; reflexivity].
           right. right. exists e0. split; [reflexivity|exact Hos].
      * destruct W as (W & m & [-> | ->]); intros E; injection E as <-;
          right; (split; [right; left; exact W|]); eexists; reflexivity.
  - cbn [fst]. intros E. injection E as <-. right.
    split; [left; exact Hext|]. eexists. reflexivity.
Qed.

Lemma image_parse_error_kinds_witness :
  (let name := "image.txt"%string in
   let e := ValueError "Error: The file 'image.txt' was not found." in
   (extension name = ".txt"%string
    /\ well_formed (lines_read (no_files name)) = true
    /\ exists cause,
         file_failure (no_files name) = Some cause
         /\ os_error cause = true
         /\ e = ValueError (access_msg name cause))
   \/ ((extension name <> ".txt"%string
        \/ well_formed (lines_read (no_files name)) = false
        \/ exists cause,
             file_failure (no_files name) = Some cause
             /\ os_error cause = false)
       /\ exists m, e = TypeError m))
  /\ (let name := "image.txt"%string in
      let fs := fun _ : string => Refused null_byte in
      let e := TypeError "An unexpected error occurred: embedded null byte" in
      (extension name = ".txt"%string
       /\ well_formed (lines_read (fs name)) = true
       /\ exists cause,
            file_failure (fs name) = Some cause
            /\ os_error cause = true
            /\ e = ValueError (access_msg name cause))
      \/ ((extension name <> ".txt"%string
           \/ well_formed (lines_read (fs name)) = false
           \/ exists cause,
                file_failure (fs name) = Some cause
                /\ os_error cause = false)
          /\ exists m, e = TypeError m)).
Proof.
  split.
  - apply (image_parse_error_kinds no_files "image.txt"
             (ValueError "Error: The file 'image.txt' was not found.")).
    reflexivity.
  - apply (image_parse_error_kinds (fun _ => Refused null_byte) "image.txt"
             (TypeError "An unexpected error occurred: embedded null byte")).
    reflexivity.
Defined.

(** ** Which file names pass *)

Lemma rfind_from_app (c : ascii) (a b : list ascii) :
  forall i best,
    rfind_from c i best (a ++ b)
    = rfind_from c (i + Z.of_nat (length a)) (rfind_from c i best a) b.
Proof.
  induction a as [|x a IH]; intros i best.
  - cbn. rewrite Z.add_0_r. reflexivity.
  - cbn [app rfind_from length]. rewrite IH. f_equal. lia.
Qed.

Lemma rfind_from_absent (c : ascii) (s : list ascii) :
  existsb (fun x => Ascii.eqb x c) s = false ->
  forall i best, rfind_from c i best s = best.
Proof.
  induction s as [|x s IH]; cbn [existsb rfind_from]; intros H i best.
  - reflexivity.
  - apply orb_false_elim in H as [Hx Hs]. rewrite Hx. apply IH. exact Hs.
Qed.

Lemma rfind_last (c : ascii) (a b : list ascii) :
  existsb (fun x => Ascii.eqb x c) b = false ->
  rfind c (a ++ c :: b) = Z.of_nat (length a).
Proof.
  intros Hb. unfold rfind. rewrite rfind_from_app. cbn [rfind_from].
  rewrite Ascii.eqb_refl, rfind_from_absent by exact Hb. lia.
Qed.

Lemma py_slice_middle {A} (a b c : list A) :
  py_slice (a ++ b ++ c) (Z.of_nat (length a))
    (Z.of_nat (length a) + Z.of_nat (length b)) = b.
Proof.
  unfold py_slice. rewrite !length_app.
  destruct (Z.ltb_spec (Z.of_nat (length a)) 0); [lia|].
  destruct (Z.ltb_spec (Z.of_nat (length a) + Z.of_nat (length b)) 0); [lia|].
  rewrite !Z.min_l by lia. rewrite Nat2Z.id.
  rewrite skipn_app, skipn_all, Nat.sub_diag. cbn [skipn app].
  replace (Z.to_nat (Z.of_nat (length a) + Z.of_nat (length b)
                     - Z.of_nat (length a))) with (length b) by lia.
  rewrite firstn_app, firstn_all, Nat.sub_diag. cbn [firstn].
  apply app_nil_r.
Qed.

(** A directory part: nothing, or a text that ends with a slash. *)
Lemma rfind_sep_dir (dir rest : list ascii) :
  dir = [] \/ (exists d, dir = d ++ ["/"%char]) ->
  existsb (fun x => Ascii.eqb x "/") rest = false ->
  rfind "/" (dir ++ rest) + 1 = Z.of_nat (length dir).
Proof.
  intros [-> | [d ->]] Hrest.
  - unfold rfind. cbn [app]. rewrite rfind_from_absent by exact Hrest.
    reflexivity.
  - rewrite <- app_assoc. cbn [app]. rewrite rfind_last by exact Hrest.
    rewrite length_app. cbn [length]. lia.
Qed.

Lemma splitext_txt (dir stem : list ascii) :
  dir_part dir ->
  existsb (fun x => Ascii.eqb x "/") stem = false ->
  splitext_ext (dir ++ stem ++ list_ascii_of_string ".txt")
  = if existsb (fun c => negb (Ascii.eqb c ".")) stem
    then list_ascii_of_string ".txt" else [].
Proof.
  intros Hdir Hstem. unfold splitext_ext.
  assert (Hsep : rfind "/" (dir ++ stem ++ list_ascii_of_string ".txt")
                 = Z.of_nat (length dir) - 1).
  { pose proof (rfind_sep_dir dir (stem ++ list_ascii_of_string ".txt") Hdir)
      as H. rewrite existsb_app, Hstem in H. specialize (H eq_refl). lia. }
  assert (Hdot : rfind "." (dir ++ stem ++ list_ascii_of_string ".txt")
                 = Z.of_nat (length dir) + Z.of_nat (length stem)).
  { rewrite app_assoc. change (list_ascii_of_string ".txt")
      with ("."%char :: list_ascii_of_string "txt").
    rewrite rfind_last by reflexivity. rewrite length_app. lia. }
  rewrite Hsep, Hdot.
  destruct (Z.ltb_spec (Z.of_nat (length dir) - 1)
              (Z.of_nat (length dir) + Z.of_nat (length stem))); [|lia].
  replace (Z.of_nat (length dir) - 1 + 1) with (Z.of_nat (length dir)) by lia.
  rewrite py_slice_middle.
  destruct (existsb (fun c => negb (Ascii.eqb c ".")) stem); [|reflexivity].
  rewrite app_assoc, skipn_app, skipn_all2 by (rewrite length_app; lia).
  rewrite length_app.
  replace (Z.to_nat (Z.of_nat (length dir) + Z.of_nat (length stem))
           - (length dir + length stem))%nat with 0%nat by lia.
  reflexivity.
Qed.

Lemma image_parse_opens (fs : filesystem) (file_name : string) :
  extension file_name = ".txt"%string ->
  snd (zl_eeprom_image_parse fs file_name) = [file_name].
Proof.
  intros Hext. unfold zl_eeprom_image_parse, image_parse_try.
  rewrite Hext. cbn [String.eqb negb].
  change (String.eqb ".txt" ".txt") with true. cbn [negb].
  destruct (fs file_name) as [m|m|m|lines|e0|lines e0]; try reflexivity;
    destruct (image_lines lines []); reflexivity.
Qed.

(** X12: which paths ending in [.txt] pass the extension test.  For a path
    made of a directory part, a stem without a slash, and [.txt]: when the
    stem has a character that is not a dot, the extension is [.txt] and the
    file is opened; when the stem is empty or made of dots only (as in
    [.txt] itself, or [dir/.txt]), the extension is empty and the parse
    raises [TypeError] without opening anything. *)
Theorem txt_paths_and_hidden_names (fs : filesystem) (dir stem : list ascii) :
  dir_part dir ->
  existsb (fun x => Ascii.eqb x "/") stem = false ->
  (existsb (fun c => negb (Ascii.eqb c ".")) stem = true ->
   extension (txt_path dir stem) = ".txt"%string
   /\ snd (zl_eeprom_image_parse fs (txt_path dir stem))
      = [txt_path dir stem])
  /\ (existsb (fun c => negb (Ascii.eqb c ".")) stem = false ->
      extension (txt_path dir stem) = EmptyString
      /\ zl_eeprom_image_parse fs (txt_path dir stem)
         = (Raise (TypeError extension_msg), [])).
Proof.
  intros Hdir Hstem.
  assert (E : extension (txt_path dir stem)
              = if existsb (fun c => negb (Ascii.eqb c ".")) stem
                then ".txt"%string else EmptyString).
  { unfold extension, txt_path. rewrite list_ascii_of_string_of_list_ascii.
    rewrite (splitext_txt dir stem Hdir Hstem).
    destruct (existsb (fun c => negb (Ascii.eqb c ".")) stem); reflexivity. }
  split; intros H; rewrite H in E.
  - split; [exact E|]. apply image_parse_opens. exact E.
  - split; [exact E|].
    unfold zl_eeprom_image_parse, image_parse_try. rewrite E. reflexivity.
Qed.

Lemma txt_paths_and_hidden_names_witness :
  (extension (txt_path (list_ascii_of_string "images/")
                (list_ascii_of_string "zl.v2")) = ".txt"%string
   /\ snd (zl_eeprom_image_parse no_files
             (txt_path (list_ascii_of_string "images/")
                (list_ascii_of_string "zl.v2")))
      = [txt_path (list_ascii_of_string "images/")
           (list_ascii_of_string "zl.v2")])
  /\ (extension (txt_path (list_ascii_of_string "images/") [])
      = EmptyString
      /\ zl_eeprom_image_parse no_files
           (txt_path (list_ascii_of_string "images/") [])
         = (Raise (TypeError extension_msg), [])).
Proof.
  split.
  - apply (txt_paths_and_hidden_names no_files
             (list_ascii_of_string "images/") (list_ascii_of_string "zl.v2")
             (or_intror (ex_intro _ (list_ascii_of_string "images") eq_refl))
             eq_refl).
    reflexivity.
  - apply (txt_paths_and_hidden_names no_files
             (list_ascii_of_string "images/") []
             (or_intror (ex_intro _ (list_ascii_of_string "images") eq_refl))
             eq_refl).
    reflexivity.
Defined.

(** ** More on flashing *)

Lemma py_range_from_zero (len ps : Z) :
  0 < ps ->
  py_range 0 len ps
  = Ok (map (fun k => 0 + Z.of_nat k * ps)
          (seq 0 (Z.to_nat ((len + ps - 1) / ps)))).
Proof.
  intros Hps. unfold py_range.
  destruct (Z.eqb_spec ps 0); [lia|].
  destruct (Z.ltb_spec 0 ps); [|lia].
  rewrite Z.sub_0_r. reflexivity.
Qed.

Lemma py_range_empty (ps : Z) : ps <> 0 -> py_range 0 0 ps = Ok [].
Proof.
  intros Hps. unfold py_range.
  destruct (Z.eqb_spec ps 0); [contradiction|].
  destruct (Z.ltb_spec 0 ps); rewrite Z.div_small by lia; reflexivity.
Qed.

(** X13: the slices that the loop of [file_mode] writes cut the image into
    pages: for a positive page size, every index the loop visits is a
    multiple of the page size inside the image, its slice has at least one
    byte and at most [page_size] bytes and ends inside the image, the
    slices in order make up the image, and there are len / page_size of
    them, rounded up. *)
Theorem flash_slices_partition (image : bytes) (ps : Z) (indices : list Z) :
  0 < ps ->
  py_range 0 (Z.of_nat (length image)) ps = Ok indices ->
  Forall (fun i =>
            0 <= i < Z.of_nat (length image)
            /\ i mod ps = 0
            /\ 0 < Z.of_nat (length (py_slice image i (i + ps))) <= ps
            /\ i + Z.of_nat (length (py_slice image i (i + ps)))
               <= Z.of_nat (length image))
         indices
  /\ concat (map (fun i => py_slice image i (i + ps)) indices) = image
  /\ Z.of_nat (length indices) = (Z.of_nat (length image) + ps - 1) / ps.
Proof.
  intros Hps Hr. rewrite py_range_from_zero in Hr by exact Hps.
  injection Hr as <-. fold (page_count ps image).
  pose proof (page_count_bounds image ps Hps) as (Hhi & Hlo & _).
  split; [|split].
  - apply Forall_forall. intros i Hi.
    apply in_map_iff in Hi as (k & <- & Hk). apply in_seq in Hk.
    cbv beta. rewrite <- (Z.add_0_l (Z.of_nat k * ps)).
    rewrite py_slice_page by exact Hps.
    pose proof (nth_page_length image ps k Hps) as Hl.
    assert (Z.of_nat k * ps < Z.of_nat (length image)) by nia.
    split; [nia|]. split; [rewrite Z.add_0_l; apply Z.mod_mul; lia|]. lia.
  - rewrite map_map.
    rewrite (map_ext _ (fun k => snd (nth_page ps image k)))
      by (intros k; apply py_slice_page; exact Hps).
    rewrite <- (map_map (nth_page ps image) snd).
    apply concat_pages. exact Hps.
  - rewrite length_map, length_seq. unfold page_count.
    apply Z2Nat.id. apply Z.div_pos; lia.
Qed.

Lemma flash_slices_partition_witness :
  Forall (fun i =>
            0 <= i < Z.of_nat (length (repeat x41 40))
            /\ i mod 32 = 0
            /\ 0 < Z.of_nat (length (py_slice (repeat x41 40) i (i + 32)))
               <= 32
            /\ i + Z.of_nat (length (py_slice (repeat x41 40) i (i + 32)))
               <= Z.of_nat (length (repeat x41 40)))
         [0; 32]
  /\ concat (map (fun i => py_slice (repeat x41 40) i (i + 32)) [0; 32])
     = repeat x41 40
  /\ Z.of_nat (length [0; 32])
     = (Z.of_nat (length (repeat x41 40)) + 32 - 1) / 32.
Proof.
  apply (flash_slices_partition (repeat x41 40) 32 [0; 32]); reflexivity.
Defined.

(** X14: when no image came with the arguments and the file typed by the
    user does not parse, [file_mode] raises the exception of the parse; by
    then the device has been configured (the configuration write of the
    ZL30267 has been sent), and no page is written and nothing is read. *)
Theorem file_mode_unreadable_image (fs : filesystem) (typed : string)
    (args : Namespace) (p : I2cPort) (e : exn) :
  args_image args = None ->
  fst (zl_eeprom_image_parse fs typed) = Raise e ->
  acks_all p ->
  file_mode fs typed args p
  = (Raise e, after p (config_events (args_device args)))
  /\ (device (args_device args) = "ZL30267"%string ->
      history (snd (file_mode fs typed args p))
      = history p ++ [EvWrite [x02; x00; x00; x80]]).
Proof.
  intros Himg Hparse Hack.
  assert (E : file_mode fs typed args p
              = (Raise e, after p (config_events (args_device args)))).
  { unfold file_mode, writing.
    unfold bind at 1. unfold bind at 1. rewrite (config_run args p Hack).
    unfold bind. rewrite Himg. unfold lift. rewrite Hparse. reflexivity. }
  split; [exact E|].
  intros Hdev. rewrite E. unfold config_events. rewrite Hdev. reflexivity.
Qed.

Lemma file_mode_unreadable_image_witness :
  file_mode no_files "image.txt" (mkArgs (descriptor "ZL30267") None)
    (ideal_port [])
  = (Raise (ValueError "Error: The file 'image.txt' was not found."),
     after (ideal_port []) (config_events (descriptor "ZL30267")))
  /\ history (snd (file_mode no_files "image.txt"
                     (mkArgs (descriptor "ZL30267") None) (ideal_port [])))
     = history (ideal_port []) ++ [EvWrite [x02; x00; x00; x80]].
Proof.
  pose proof (file_mode_unreadable_image no_files "image.txt"
                (mkArgs (descriptor "ZL30267") None) (ideal_port [])
                (ValueError "Error: The file 'image.txt' was not found.")
                eq_refl eq_refl (fun _ _ => eq_refl)) as (H1 & H2).
  split; [exact H1|]. apply H2. reflexivity.
Defined.

(** X15: flashing an empty image on a port that acknowledges every write:
    the device is configured, no page is written, the pointer is set to
    00 00 and zero bytes are read; the outcome is the success text exactly
    when the port answers the read with no bytes.  The page size need only
    be other than zero, and the ["Page Write"] entry is not looked up. *)
Theorem file_mode_empty_image (fs : filesystem) (typed : string)
    (args : Namespace) (p : I2cPort) (read : action * option bytes)
    (got : bytes) :
  image_of fs typed args [] ->
  page_size (args_device args) <> 0 ->
  getitem (commands (args_device args)) "Read" = Ok read ->
  acks_all p ->
  let pointer := or_empty (snd read) ++ [x00; x00] in
  on_read p (history p ++ config_events (args_device args)
             ++ [EvWrite pointer]) 0 = Ok got ->
  file_mode fs typed args p
  = (Ok (match got with [] => success_msg | _ :: _ => mismatch_msg end),
     after p (config_events (args_device args)
              ++ [EvWrite pointer; EvRead 0])).
Proof.
  intros Himg Hps Hrd Hack pointer Hread.
  assert (W : writing fs typed args p
              = (Ok [], after p (config_events (args_device args)))).
  { unfold writing.
    unfold bind at 1. rewrite (config_run args p Hack).
    unfold bind at 1. rewrite (image_source fs typed args [] _ Himg).
    unfold bind, lift, ret. cbn [length Z.of_nat].
    rewrite (py_range_empty _ Hps). reflexivity. }
  unfold file_mode, bind. rewrite W.
  rewrite (verify_run args [] read _ Hrd) by (apply acks_all_after; exact Hack).
  fold pointer. cbn [history after length Z.of_nat].
  change (on_read (after p (config_events (args_device args))))
    with (on_read p).
  rewrite <- app_assoc, Hread, after_after.
  destruct got; reflexivity.
Qed.

Lemma file_mode_empty_image_witness :
  file_mode no_files "image.txt" (mkArgs (descriptor "24LC32") (Some []))
    (ideal_port [])
  = (Ok success_msg, after (ideal_port []) [EvWrite [x00; x00]; EvRead 0]).
Proof.
  apply (file_mode_empty_image no_files "image.txt"
           (mkArgs (descriptor "24LC32") (Some [])) (ideal_port [])
           (ReadAction None, None) [] eq_refl ltac:(discriminate) eq_refl
           (fun _ _ => eq_refl) eq_refl).
Defined.

(** ** A flash that the port interrupts *)

Lemma fails_at_now (p : I2cPort) (e : exn) (out : bytes) :
  fails_at p 0 e -> port_write out p = (Raise e, after p [EvWrite out]).
Proof.
  intros [_ Hf]. apply port_write_failed. apply Hf. lia.
Qed.

Lemma fails_at_later (p : I2cPort) (n : nat) (e : exn) (out : bytes) :
  fails_at p (S n) e ->
  port_write out p = (Ok tt, after p [EvWrite out])
  /\ fails_at (after p [EvWrite out]) n e.
Proof.
  intros [Ha Hf]. split.
  - apply port_write_acked. apply Ha. lia.
  - split; intros h o Hh; cbn [after history on_write] in *;
      rewrite length_app in Hh; cbn [length] in Hh.
    + apply Ha. lia.
    + apply Hf. lia.
Qed.

Lemma fails_at_after_nil (p : I2cPort) (n : nat) (e : exn) :
  fails_at p n e -> fails_at (after p []) n e.
Proof. rewrite after_nil. exact (fun H => H). Qed.

(** One page write on a port that refuses its [n]-th next write. *)
Lemma eeprom_page_write_interrupted (p : I2cPort) (address data : bytes)
    (command : option bytes) (we : bool * bytes) (n : nat) (e : exn) :
  fails_at p n e ->
  let calls := enable_events we
               ++ [EvWrite (or_empty command ++ address ++ data)] in
  ((n < length calls)%nat ->
   eeprom_page_write address data command we p
   = (Raise e, after p (firstn (S n) calls)))
  /\ ((length calls <= n)%nat ->
      eeprom_page_write address data command we p
      = (match int_to_bytes (int_from_bytes address + Z.of_nat (length data))
                            (length address) with
         | Ok next => Ok (data, next)
         | Raise e' => Raise e'
         end,
         after p calls)
      /\ fails_at (after p calls) (n - length calls) e).
Proof.
  intros Hf calls. unfold calls, enable_events, eeprom_page_write.
  destruct (fst we); cbn [app length].
  - destruct n as [|[|n]].
    + split; [intros _|lia]. unfold bind.
      rewrite (fails_at_now p e _ Hf). reflexivity.
    + split; [intros _|lia].
      destruct (fails_at_later p 0 e (snd we) Hf) as [E1 Hf1].
      unfold bind at 1. rewrite E1. unfold bind at 1.
      rewrite (fails_at_now _ e _ Hf1), after_after. reflexivity.
    + split; [lia|intros _].
      destruct (fails_at_later p (S n) e (snd we) Hf) as [E1 Hf1].
      destruct (fails_at_later _ n e (or_empty command ++ address ++ data) Hf1)
        as [E2 Hf2].
      unfold bind at 1. rewrite E1. unfold bind at 1. rewrite E2.
      rewrite after_after in *. cbn [app] in *.
      split.
      * unfold bind, lift, ret. destruct (int_to_bytes _ _); reflexivity.
      * replace (S (S n) - 2)%nat with n by lia. exact Hf2.
  - destruct n as [|n].
    + split; [intros _|lia]. unfold bind at 1. unfold ret at 1.
      unfold bind at 1. rewrite (fails_at_now p e _ Hf). reflexivity.
    + split; [lia|intros _].
      destruct (fails_at_later p n e (or_empty command ++ address ++ data) Hf)
        as [E1 Hf1].
      unfold bind at 1. unfold ret at 1. unfold bind at 1. rewrite E1.
      split.
      * unfold bind, lift, ret. destruct (int_to_bytes _ _); reflexivity.
      * replace (S n - 1)%nat with n by lia. exact Hf1.
Qed.

Lemma firstn_app_short {A} (n : nat) (a b : list A) :
  (n <= length a)%nat -> firstn n (a ++ b) = firstn n a.
Proof.
  intros H. rewrite firstn_app.
  replace (n - length a)%nat with 0%nat by lia.
  rewrite firstn_O. apply app_nil_r.
Qed.

Lemma firstn_app_long {A} (n : nat) (a b : list A) :
  (length a <= n)%nat -> firstn n (a ++ b) = a ++ firstn (n - length a) b.
Proof.
  intros H. rewrite firstn_app, firstn_all2 by lia. reflexivity.
Qed.

Lemma eeprom_i2c_config_interrupted (proto : DeviceProtocol) (p : I2cPort)
    (n : nat) (e : exn) :
  fails_at p n e ->
  ((n < length (config_events proto))%nat ->
   eeprom_i2c_config (device proto) p
   = (Raise e, after p (firstn (S n) (config_events proto))))
  /\ ((length (config_events proto) <= n)%nat ->
      eeprom_i2c_config (device proto) p
      = (Ok tt, after p (config_events proto))
      /\ fails_at (after p (config_events proto))
           (n - length (config_events proto)) e).
Proof.
  intros Hf. unfold eeprom_i2c_config, config_events.
  destruct (String.eqb (device proto) "ZL30267"); cbn [length].
  - destruct n as [|n].
    + split; [intros _|lia]. unfold eeprom_write, bind.
      rewrite (fails_at_now p e _ Hf). reflexivity.
    + split; [lia|intros _].
      destruct (fails_at_later p n e ([x02] ++ [x00; x00] ++ [x80]) Hf)
        as [E1 Hf1].
      unfold eeprom_write. unfold bind at 1. unfold bind at 1.
      cbn [or_empty]. rewrite E1. split; [reflexivity|].
      replace (S n - 1)%nat with n by lia. exact Hf1.
  - split; [lia|intros _]. unfold ret. rewrite after_nil, Nat.sub_0_r.
    split; [reflexivity|exact Hf].
Qed.

Section Interrupted.

Variable fs : filesystem.
Variable typed : string.
Variable args : Namespace.
Variable image : bytes.
Variable page_write : action * option bytes.
Variable e : exn.

Let proto := args_device args.
Let ps := page_size proto.
Let len := Z.of_nat (length image).

Hypothesis page_size_positive : 0 < ps.
Hypothesis image_fits : len < 65536.
Hypothesis has_page_write :
  getitem (commands proto) "Page Write" = Ok page_write.

Lemma write_pages_interrupted :
  forall (m a : nat) (p : I2cPort) (n : nat),
    fails_at p n e ->
    ((0 < m)%nat -> (Z.of_nat a + Z.of_nat m - 1) * ps < len) ->
    len <= (Z.of_nat a + Z.of_nat m) * ps ->
    (n < length (flat_map (page_events proto (snd page_write))
                   (map (nth_page ps image) (seq a m))))%nat ->
    write_pages args image (be_digits 2 (Z.of_nat a * ps))
      (map (fun k => 0 + Z.of_nat k * ps) (seq a m)) p
    = (Raise e,
       after p (firstn (S n)
                  (flat_map (page_events proto (snd page_write))
                     (map (nth_page ps image) (seq a m))))).
Proof.
  induction m as [|m IH]; intros a p n Hf Hlo Hhi Hn.
  - cbn in Hn. lia.
  - cbn [seq map flat_map] in *.
    rewrite (write_pages_cons args image). fold proto ps.
    rewrite has_page_write.
    rewrite py_slice_page by exact page_size_positive.
    unfold page_events at 1 in Hn. unfold page_events at 1. cbn [fst snd] in *.
    change (fst (nth_page ps image a)) with (Z.of_nat a * ps) in *.
    set (calls := enable_events (write_enable proto)
                  ++ [EvWrite (or_empty (snd page_write)
                               ++ be_digits 2 (Z.of_nat a * ps)
                               ++ snd (nth_page ps image a))]) in *.
    destruct (eeprom_page_write_interrupted p (be_digits 2 (Z.of_nat a * ps))
                (snd (nth_page ps image a)) (snd page_write)
                (write_enable proto) n e Hf) as [Hstop Hgo].
    fold calls in Hstop, Hgo.
    destruct (Nat.lt_ge_cases n (length calls)) as [Hlt|Hge].
    + rewrite (Hstop Hlt). rewrite (firstn_app_short (S n) calls) by lia.
      reflexivity.
    + destruct (Hgo Hge) as [E Hf'].
      rewrite E. clear E Hstop Hgo.
      assert (Ha : Z.of_nat a * ps < len) by (specialize (Hlo ltac:(lia)); nia).
      rewrite be_digits_length, int_from_be_digits
        by (rewrite two_bytes_range; nia).
      pose proof (nth_page_length image ps a page_size_positive) as Hl.
      fold len in Hl.
      rewrite int_to_bytes_ok by (rewrite two_bytes_range; lia).
      cbn [snd].
      rewrite length_app in Hn.
      destruct m as [|m];
        [cbn [seq map flat_map length] in Hn; lia|].
      specialize (Hlo ltac:(lia)).
      replace (Z.of_nat a * ps + Z.of_nat (length (snd (nth_page ps image a))))
        with (Z.of_nat (S a) * ps) by nia.
      rewrite (IH (S a) _ (n - length calls)%nat Hf'); try lia.
      rewrite after_after, (firstn_app_long (S n) calls) by lia.
      replace (S n - length calls)%nat with (S (n - length calls)) by lia.
      reflexivity.
Qed.

Lemma writing_interrupted (p : I2cPort) (n : nat) :
  image_of fs typed args image ->
  fails_at p n e ->
  (n < length (flash_writes proto (snd page_write) image))%nat ->
  writing fs typed args p
  = (Raise e,
     after p (firstn (S n) (flash_writes proto (snd page_write) image))).
Proof.
  intros Himg Hf Hn. unfold flash_writes in *. fold ps in Hn |- *.
  unfold writing. fold proto ps.
  destruct (eeprom_i2c_config_interrupted proto p n e Hf) as [Hstop Hgo].
  destruct (Nat.lt_ge_cases n (length (config_events proto))) as [Hlt|Hge].
  - unfold bind at 1. rewrite (Hstop Hlt), firstn_app_short by lia.
    reflexivity.
  - destruct (Hgo Hge) as [E Hf'].
    unfold bind at 1. rewrite E.
    unfold bind at 1. rewrite (image_source fs typed args image _ Himg).
    unfold bind at 1. unfold lift at 1. fold len.
    pose proof (py_range_pages args image page_size_positive) as Hr.
    fold proto in Hr. fold ps in Hr. fold len in Hr. rewrite Hr. clear Hr.
    pose proof (page_count_bounds image ps page_size_positive)
      as (Hhi & Hlo & _).
    fold len in Hhi, Hlo.
    rewrite length_app in Hn.
    unfold bind. change [x00; x00] with (be_digits 2 (Z.of_nat 0 * ps)).
    unfold pages in *.
    rewrite (write_pages_interrupted (page_count ps image) 0 _
               (n - length (config_events proto))%nat Hf'); try lia.
    rewrite after_after, (firstn_app_long (S n) (config_events proto))
      by lia.
    replace (S n - length (config_events proto))%nat
      with (S (n - length (config_events proto))) by lia.
    reflexivity.
Qed.

(** X16: the flash stops at the first write that the port refuses.  For an
    image shorter than 65536 bytes, if the port acknowledges the first [n]
    writes of the flash (the configuration write, and for each page its
    write-enable and its frame) and refuses the next with the exception
    [e], then [file_mode] raises [e], that write is the last call made, and
    neither a later page nor the read-back follows. *)
Theorem flash_stops_at_first_refusal (p : I2cPort) (n : nat) :
  image_of fs typed args image ->
  fails_at p n e ->
  (n < length (flash_writes proto (snd page_write) image))%nat ->
  file_mode fs typed args p
  = (Raise e,
     after p (firstn (S n) (flash_writes proto (snd page_write) image))).
Proof.
  intros Himg Hf Hn. unfold file_mode, bind.
  rewrite (writing_interrupted p n Himg Hf Hn). reflexivity.
Qed.

End Interrupted.

Lemma flash_stops_at_first_refusal_witness :
  file_mode no_files "image.txt"
    (mkArgs (descriptor "ZL30267") (Some (repeat x41 40))) (deaf_after 3)
  = (Raise nack,
     after (deaf_after 3)
       [EvWrite [x02; x00; x00; x80];
        EvWrite [x06]; EvWrite ([x02; x00; x00] ++ repeat x41 32);
        EvWrite [x06]]).
Proof.
  apply (flash_stops_at_first_refusal no_files "image.txt"
           (mkArgs (descriptor "ZL30267") (Some (repeat x41 40)))
           (repeat x41 40)
           (PageWriteAction (Some [x02]) (true, [x06]), Some [x02])
           nack eq_refl eq_refl eq_refl (deaf_after 3) 3 eq_refl).
  - split; intros h out Hh; cbn [deaf_after on_write history length] in *.
    + destruct (Nat.ltb_spec (length h) 3); [reflexivity|lia].
    + destruct (Nat.ltb_spec (length h) 3); [lia|reflexivity].
  - vm_compute. lia.
Defined.

(** ** The menus *)

Lemma numeric_char_facts (c : ascii) :
  isnumeric_char c = true ->
  int_isspace c = false
  /\ Ascii.eqb c "_" = false
  /\ (forall r, int_sign (c :: r) = (1, c :: r))
  /\ (is_digit c = true /\ dec_digit c = Some (code c - 48)
      \/ is_digit c = false /\ dec_digit c = None).
Proof.
  destruct c as [[] [] [] [] [] [] [] []]; intros H;
    try discriminate H;
    (split; [reflexivity|split; [reflexivity|split; [reflexivity|]]]);
    first [left; split; reflexivity | right; split; reflexivity].
Qed.

Lemma digit_is_numeric (c : ascii) :
  is_digit c = true -> isnumeric_char c = true.
Proof.
  unfold is_digit, isnumeric_char. cbv zeta. intros ->. reflexivity.
Qed.

Lemma scan_decimal_digits (ds : list ascii) :
  forall (count : nat) (acc : Z),
    forallb is_digit ds = true ->
    scan_decimal false count acc ds
    = Some (fold_left (fun acc c => 10 * acc + (code c - 48)) ds acc,
            (count + length ds)%nat, []).
Proof.
  induction ds as [|c r IH]; intros count acc Hds.
  - cbn [scan_decimal fold_left length]. rewrite Nat.add_0_r. reflexivity.
  - cbn [forallb] in Hds. apply andb_prop in Hds as [Hc Hr].
    destruct (numeric_char_facts c (digit_is_numeric c Hc))
      as (_ & Hus & _ & [[_ Hd] | [Hx _]]); [|congruence].
    cbn [scan_decimal fold_left length]. rewrite Hus, Hd.
    rewrite (IH _ _ Hr). f_equal. f_equal. f_equal. lia.
Qed.

(** On a text of numeric characters the scan stops at the first one that is
    not a decimal digit. *)
Lemma scan_decimal_numeric (s : list ascii) :
  forall (count : nat) (acc : Z),
    forallb isnumeric_char s = true ->
    forallb is_digit s = false ->
    exists v n c rest,
      scan_decimal false count acc s = Some (v, n, c :: rest)
      /\ int_isspace c = false.
Proof.
  induction s as [|c r IH]; intros count acc Hs Hd; [discriminate Hd|].
  cbn [forallb] in Hs, Hd. apply andb_prop in Hs as [Hc Hr].
  destruct (numeric_char_facts c Hc) as (Hsp & Hus & _ & [[Hy Hv] | [Hn Hv]]).
  - rewrite Hy in Hd. cbn [andb] in Hd.
    cbn [scan_decimal]. rewrite Hus, Hv. apply IH; assumption.
  - exists acc, count, c, r. cbn [scan_decimal]. rewrite Hus, Hv.
    split; [reflexivity|exact Hsp].
Qed.

Lemma py_int10_digits (ds : list ascii) :
  ds <> [] ->
  forallb is_digit ds = true ->
  (length ds <= max_str_digits)%nat ->
  py_int10 ds = Ok (decimal_value ds).
Proof.
  intros Hne Hds Hlen. destruct ds as [|c r]; [contradiction|].
  pose proof (scan_decimal_digits (c :: r) 0 0 Hds) as Hscan.
  cbn [forallb] in Hds. apply andb_prop in Hds as [Hc Hr].
  destruct (numeric_char_facts c (digit_is_numeric c Hc))
    as (Hsp & Hus & Hsign & _).
  unfold py_int10. cbv zeta. cbn [drop_while]. rewrite Hsp, Hsign.
  cbn [starts_with_underscore]. rewrite Hus, Hscan.
  cbn [length Nat.add Nat.eqb].
  destruct (Nat.ltb_spec max_str_digits (S (length r)));
    [cbn [length] in Hlen; lia|].
  cbn [drop_while]. unfold decimal_value.
  destruct (fold_left _ (c :: r) 0); reflexivity.
Qed.

Lemma py_int10_too_long (ds : list ascii) :
  forallb is_digit ds = true ->
  (max_str_digits < length ds)%nat ->
  py_int10 ds = Raise (ValueError (limit_msg (length ds))).
Proof.
  intros Hds Hlen. destruct ds as [|c r]; [cbn [length] in Hlen; lia|].
  pose proof (scan_decimal_digits (c :: r) 0 0 Hds) as Hscan.
  cbn [forallb] in Hds. apply andb_prop in Hds as [Hc Hr].
  destruct (numeric_char_facts c (digit_is_numeric c Hc))
    as (Hsp & Hus & Hsign & _).
  unfold py_int10. cbv zeta. cbn [drop_while]. rewrite Hsp, Hsign.
  cbn [starts_with_underscore]. rewrite Hus, Hscan.
  cbn [length Nat.add Nat.eqb].
  destruct (Nat.ltb_spec max_str_digits (S (length r)));
    [reflexivity|cbn [length] in Hlen; lia].
Qed.

(** A numeric text with a character that is not a decimal digit, such as a
    superscript two or a fraction, is no literal for [int]. *)
Lemma py_int10_numeric_raises (s : list ascii) :
  forallb isnumeric_char s = true ->
  forallb is_digit s = false ->
  exists e, py_int10 s = Raise e.
Proof.
  intros Hs Hd. destruct s as [|c r]; [discriminate Hd|].
  destruct (scan_decimal_numeric (c :: r) 0 0 Hs Hd)
    as (v & n & x & rest & Hscan & Hx).
  cbn [forallb] in Hs. apply andb_prop in Hs as [Hc Hr].
  destruct (numeric_char_facts c Hc) as (Hsp & Hus & Hsign & _).
  unfold py_int10. cbv zeta. cbn [drop_while]. rewrite Hsp, Hsign.
  cbn [starts_with_underscore]. rewrite Hus, Hscan.
  destruct (n =? 0)%nat; [eexists; reflexivity|].
  destruct (max_str_digits <? n)%nat; [eexists; reflexivity|].
  cbn [drop_while]. rewrite Hx. eexists; reflexivity.
Qed.

Lemma item_in (opts : list string) (numopt : Z) :
  0 <= numopt < Z.of_nat (length opts) -> In (item opts numopt) opts.
Proof. intros H. unfold item. apply nth_In. lia. Qed.

(** X17: [parse_options] never raises.  When it returns, the answer is
    ["q"] or one of the options, at least one line has been read, and every
    line read before the last one was a numeric text; it fails to return
    only when the input ends, after numeric lines only. *)
Theorem parse_options_answers (choice : string) (opts stdin : list string) :
  match parse_options choice opts stdin with
  | (Returns x, rest) =>
      (x = "q"%string \/ In x opts)
      /\ exists skipped line,
           stdin = skipped ++ line :: rest
           /\ Forall (fun l => numeric_line l = true) skipped
  | (Hangs, rest) =>
      rest = [] /\ Forall (fun l => numeric_line l = true) stdin
  | (Raises _, _) | (EndOfInput, _) => False
  end.
Proof.
  induction stdin as [|opt more IH].
  - cbn [parse_options]. split; [reflexivity|constructor].
  - cbn [parse_options].
    destruct (py_isnumeric (list_ascii_of_string opt)) eqn:Hnum.
    + assert (Again :
        match parse_options choice opts more with
        | (Returns x, rest) =>
            (x = "q"%string \/ In x opts)
            /\ exists skipped line,
                 opt :: more = skipped ++ line :: rest
                 /\ Forall (fun l => numeric_line l = true) skipped
        | (Hangs, rest) =>
            rest = []
            /\ Forall (fun l => numeric_line l = true) (opt :: more)
        | (Raises _, _) | (EndOfInput, _) => False
        end).
      { destruct (parse_options choice opts more) as [[x| | |] rest];
          try exact IH.
        - destruct IH as (Hx & skipped & line & -> & Hsk).
          split; [exact Hx|]. exists (opt :: skipped), line.
          split; [reflexivity|]. constructor; assumption.
        - destruct IH as (-> & Hall). split; [reflexivity|].
          constructor; assumption. }
      destruct (py_int10 (list_ascii_of_string opt)) as [n|e]; [|exact Again].
      destruct ((0 <=? n - 1) && (n - 1 <? Z.of_nat (length opts))) eqn:Hin;
        [|exact Again].
      apply andb_prop in Hin as [Hlo Hhi].
      apply Z.leb_le in Hlo. apply Z.ltb_lt in Hhi.
      split; [right; apply item_in; lia|].
      exists [], opt. split; [reflexivity|constructor].
    + split; [left; reflexivity|].
      exists [], opt. split; [reflexivity|constructor].
Qed.

Lemma numeric_line_split (line : string) :
  numeric_line line = true ->
  list_ascii_of_string line <> []
  /\ forallb isnumeric_char (list_ascii_of_string line) = true.
Proof.
  unfold numeric_line, py_isnumeric.
  destruct (list_ascii_of_string line) as [|c r]; [discriminate|].
  intros H. split; [discriminate|exact H].
Qed.

Lemma digit_line_numeric (line : string) :
  line <> EmptyString ->
  forallb is_digit (list_ascii_of_string line) = true ->
  numeric_line line = true.
Proof.
  intros Hne Hds. unfold numeric_line, py_isnumeric.
  destruct line as [|c r]; [contradiction|].
  cbn [list_ascii_of_string] in *. 
  apply forallb_forall. intros x Hx.
  apply digit_is_numeric. revert x Hx. apply forallb_forall. exact Hds.
Qed.

Lemma length_list_ascii (s : string) :
  length (list_ascii_of_string s) = String.length s.
Proof. induction s as [|c r IH]; [reflexivity|]. cbn. f_equal. exact IH. Qed.

(** X18: what one answer to the menu does.  A line that is not a numeric
    text (a letter, the empty line, a number with a sign or with a space
    around it) is the answer ["q"].  A line of at most 4300 decimal digits
    whose value k is between 1 and the number of options picks the k-th
    option.  Every other numeric line (a value of 0 or above the number of
    options, more than 4300 digits, a superscript digit or a fraction) is
    dropped and the next line is read as the answer. *)
Theorem parse_options_choice (choice : string) (opts : list string)
    (line : string) (rest : list string) :
  (numeric_line line = false ->
   parse_options choice opts (line :: rest) = (Returns "q"%string, rest))
  /\ (numeric_line line = true ->
      digit_lineb line = true ->
      1 <= line_value line <= Z.of_nat (length opts) ->
      parse_options choice opts (line :: rest)
      = (Returns (item opts (line_value line - 1)), rest))
  /\ (numeric_line line = true ->
      digit_lineb line = false
      \/ line_value line < 1 \/ Z.of_nat (length opts) < line_value line ->
      parse_options choice opts (line :: rest)
      = parse_options choice opts rest).
Proof.
  split; [|split].
  - intros Hnum. cbn [parse_options]. fold (numeric_line line).
    rewrite Hnum. reflexivity.
  - intros Hnum Hdig Hk. cbn [parse_options]. fold (numeric_line line).
    rewrite Hnum. apply andb_prop in Hdig as [Hds Hlen].
    apply Nat.leb_le in Hlen. rewrite <- length_list_ascii in Hlen.
    destruct (numeric_line_split line Hnum) as [Hne _].
    rewrite (py_int10_digits _ Hne Hds Hlen). fold (line_value line).
    cbv zeta.
    destruct (Z.leb_spec 0 (line_value line - 1)); [|lia].
    destruct (Z.ltb_spec (line_value line - 1) (Z.of_nat (length opts)));
      [|lia].
    reflexivity.
  - intros Hnum Hbad. cbn [parse_options]. fold (numeric_line line).
    rewrite Hnum.
    destruct (numeric_line_split line Hnum) as [Hne Hall].
    destruct (forallb is_digit (list_ascii_of_string line)) eqn:Hds.
    + destruct (Nat.leb_spec (String.length line) max_str_digits) as [Hlen|Hlen].
      * rewrite <- length_list_ascii in Hlen.
        rewrite (py_int10_digits _ Hne Hds Hlen). fold (line_value line).
        cbv zeta.
        destruct Hbad as [Hbad | Hbad].
        { unfold digit_lineb in Hbad. rewrite Hds in Hbad.
          rewrite length_list_ascii in Hlen.
          apply Nat.leb_le in Hlen. rewrite Hlen in Hbad. discriminate Hbad. }
        destruct (Z.leb_spec 0 (line_value line - 1));
          [|reflexivity].
        destruct (Z.ltb_spec (line_value line - 1) (Z.of_nat (length opts)));
          [lia|reflexivity].
      * rewrite <- length_list_ascii in Hlen.
        rewrite (py_int10_too_long _ Hds Hlen). reflexivity.
    + destruct (py_int10_numeric_raises _ Hall Hds) as [e ->]. reflexivity.
Qed.

Lemma parse_options_choice_witness :
  parse_options menu_question ["Page Write"; "Read"]%string
    [" 1"; "2"]%string
  = (Returns "q"%string, ["2"]%string)
  /\ parse_options menu_question ["Page Write"; "Read"]%string
       ["002"; "1"]%string
     = (Returns "Read"%string, ["1"]%string)
  /\ parse_options menu_question ["Page Write"; "Read"]%string
       ["3"; "1"]%string
     = parse_options menu_question ["Page Write"; "Read"]%string
         ["1"]%string.
Proof.
  split; [|split].
  - apply (proj1 (parse_options_choice menu_question
                    ["Page Write"; "Read"]%string " 1" ["2"]%string)).
    reflexivity.
  - apply (proj1 (proj2 (parse_options_choice menu_question
                    ["Page Write"; "Read"]%string "002" ["1"]%string))).
    + reflexivity.
    + reflexivity.
    + vm_compute. split; discriminate.
  - apply (proj2 (proj2 (parse_options_choice menu_question
                    ["Page Write"; "Read"]%string "3" ["1"]%string))).
    + reflexivity.
    + right; right. vm_compute. reflexivity.
Defined.

Lemma parse_options_reads (choice : string) (opts stdin : list string) :
  match parse_options choice opts stdin with
  | (Returns _, rest) => (length rest < length stdin)%nat
  | (Hangs, rest) => rest = []
  | (Raises _, _) | (EndOfInput, _) => False
  end.
Proof.
  induction stdin as [|opt more IH]; [reflexivity|].
  cbn [parse_options].
  assert (Again :
    match parse_options choice opts more with
    | (Returns _, rest) => (length rest < length (opt :: more))%nat
    | (Hangs, rest) => rest = []
    | (Raises _, _) | (EndOfInput, _) => False
    end).
  { destruct (parse_options choice opts more) as [[x| | |] rest];
      try exact IH. cbn [length]. lia. }
  destruct (py_isnumeric _); [|cbn [length]; lia].
  destruct (py_int10 _) as [n|e]; [|exact Again].
  destruct (_ && _); [cbn [length]; lia|exact Again].
Qed.

(** A menu entry reads lines and gives none back; when the input ends
    under it, nothing is left; it always ends. *)
Lemma run_action_reads (act : action) (stdin : list string) (p : I2cPort) :
  match run_action act stdin p with
  | (Returns _, rest, _) | (Raises _, rest, _) =>
      (length rest <= length stdin)%nat
  | (EndOfInput, rest, _) => rest = []
  | (Hangs, _, _) => False
  end.
Proof.
  destruct act as [command we | command | command];
    unfold run_action, io_bind, io_input, io_result, io_port;
    (destruct stdin as [|a [|d rest]]; [reflexivity| |]);
    (destruct (byte_address_parse a _) as [address|e];
      [|cbn [length]; lia]).
  - reflexivity.
  - destruct (bytes_fromhex _) as [data|e]; [|cbn [length]; lia].
    destruct (eeprom_page_write _ _ _ _ _) as [[out|e] p'];
      cbn [length]; lia.
  - reflexivity.
  - destruct (byte_address_parse d _) as [data|e]; [|cbn [length]; lia].
    destruct (eeprom_write _ _ _ _) as [[out|e] p'];
      cbn [length]; lia.
  - reflexivity.
  - destruct (py_int10 _) as [n|e]; [|cbn [length]; lia].
    destruct (eeprom_read _ _ _ _) as [[out|e] p'];
      cbn [length]; lia.
Qed.

(** One turn of the loop of [manual_mode], written out. *)
Lemma manual_loop_step (args : Namespace) (fuel : nat) (cur : bytes)
    (stdin : list string) (p : I2cPort) :
  manual_loop (S fuel) args cur stdin p
  = match parse_options menu_question
            (map fst (commands (args_device args))) stdin with
    | (Returns opt, rest) =>
        if String.eqb opt "q" then (Returns quit_msg, rest, p)
        else
          match getitem (commands (args_device args)) opt with
          | Raise e => (Raises e, rest, p)
          | Ok entry =>
              match run_action (fst entry) rest p with
              | (Returns out, rest', p') =>
                  manual_loop fuel args (snd out) rest' p'
              | (Raises e, rest', p') => (Raises e, rest', p')
              | (EndOfInput, rest', p') => (EndOfInput, rest', p')
              | (Hangs, rest', p') => (Hangs, rest', p')
              end
          end
    | (Raises e, rest) => (Raises e, rest, p)
    | (EndOfInput, rest) => (EndOfInput, rest, p)
    | (Hangs, rest) => (Hangs, rest, p)
    end.
Proof.
  cbn [manual_loop]. unfold io_bind at 1. unfold io_menu.
  destruct (parse_options _ _ stdin) as [[opt| | |] rest]; try reflexivity.
  destruct (String.eqb opt "q"); [reflexivity|].
  unfold io_bind at 1. unfold io_result.
  destruct (getitem _ opt) as [entry|e]; reflexivity.
Qed.

(** The loop of [manual_mode] reads at least one line in every turn, so
    its result is the same for every number of turns above the number of
    lines. *)
Lemma manual_loop_fuel (args : Namespace) (f1 : nat) :
  forall (f2 : nat) (cur : bytes) (stdin : list string) (p : I2cPort),
    (length stdin < f1)%nat -> (length stdin < f2)%nat ->
    manual_loop f1 args cur stdin p = manual_loop f2 args cur stdin p.
Proof.
  induction f1 as [|f1 IH]; intros f2 cur stdin p H1 H2; [lia|].
  destruct f2 as [|f2]; [lia|].
  rewrite !manual_loop_step.
  pose proof (parse_options_reads menu_question
                (map fst (commands (args_device args))) stdin) as Hm.
  destruct (parse_options _ _ stdin) as [[opt| | |] rest]; try reflexivity.
  destruct (String.eqb opt "q"); [reflexivity|].
  destruct (getitem _ opt) as [entry|e]; [|reflexivity].
  pose proof (run_action_reads (fst entry) rest p) as Hr.
  destruct (run_action (fst entry) rest p) as [[[out| | |] rest'] p'];
    try reflexivity.
  apply IH; lia.
Qed.

(** Lines put behind the input do not change an answer already given. *)
Lemma parse_options_more (choice : string) (opts stdin more : list string) :
  match parse_options choice opts stdin with
  | (Returns x, rest) =>
      parse_options choice opts (stdin ++ more) = (Returns x, rest ++ more)
  | _ =>
      parse_options choice opts (stdin ++ more)
      = parse_options choice opts more
  end.
Proof.
  induction stdin as [|opt r IH]; [reflexivity|].
  cbn [app parse_options].
  destruct (py_isnumeric _); [|reflexivity].
  destruct (py_int10 _) as [n|e]; [|exact IH].
  destruct (_ && _); [reflexivity|exact IH].
Qed.

(** A menu entry that ended without the end of the input ends in the same
    way when lines are put behind the input; one that met the end of the
    input takes the next line for its question. *)
Lemma run_action_more (act : action) (stdin : list string) (p : I2cPort)
    (more : list string) :
  match run_action act stdin p with
  | (Returns out, rest, p') =>
      run_action act (stdin ++ more) p = (Returns out, rest ++ more, p')
  | (Raises e, rest, p') =>
      run_action act (stdin ++ more) p = (Raises e, rest ++ more, p')
  | (EndOfInput, _, _) =>
      forall line,
        match run_action act (stdin ++ [line]) p with
        | (Returns _, rest, _) => rest = []
        | (Hangs, _, _) => False
        | _ => True
        end
  | (Hangs, _, _) => False
  end.
Proof.
  destruct act as [command we | command | command];
    unfold run_action, io_bind, io_input, io_result, io_port;
    (destruct stdin as [|a [|d rest]]; cbn [app]).
  all: try (intros line;
            destruct (byte_address_parse line _) as [address|e]; exact I).
  all: destruct (byte_address_parse a _) as [address|e]; try reflexivity.
  - intros line. destruct (bytes_fromhex _) as [data|e]; [|exact I].
    destruct (eeprom_page_write _ _ _ _ _) as [[out|e] p']; [reflexivity|exact I].
  - destruct (bytes_fromhex _) as [data|e]; [|reflexivity].
    destruct (eeprom_page_write _ _ _ _ _) as [[out|e] p']; reflexivity.
  - intros line. destruct (byte_address_parse line _) as [data|e]; [|exact I].
    destruct (eeprom_write _ _ _ _) as [[out|e] p']; [reflexivity|exact I].
  - destruct (byte_address_parse d _) as [data|e]; [|reflexivity].
    destruct (eeprom_write _ _ _ _) as [[out|e] p']; reflexivity.
  - intros line. destruct (py_int10 _) as [n|e]; [|exact I].
    destruct (eeprom_read _ _ _ _) as [[out|e] p']; [reflexivity|exact I].
  - destruct (py_int10 _) as [n|e]; [|reflexivity].
    destruct (eeprom_read _ _ _ _) as [[out|e] p']; reflexivity.
Qed.

Lemma manual_loop_waits (args : Namespace) (fuel : nat) :
  forall (cur : bytes) (stdin : list string) (p : I2cPort),
    (length stdin < fuel)%nat ->
    match manual_loop fuel args cur stdin p with
    | (Returns r, _, _) => r = quit_msg
    | (Raises _, _, _) => True
    | (EndOfInput, rest, _) =>
        rest = [] /\ stdin <> []
        /\ forall line fuel',
             match manual_loop fuel' args cur (stdin ++ [line]) p with
             | (Returns _, _, _) => False
             | _ => True
             end
    | (Hangs, rest, p') =>
        rest = []
        /\ forall line more fuel',
             numeric_line line = false ->
             (length (stdin ++ line :: more) < fuel')%nat ->
             manual_loop fuel' args cur (stdin ++ line :: more) p
             = (Returns quit_msg, more, p')
    end.
Proof.
  induction fuel as [|fuel IH]; intros cur stdin p Hlen; [lia|].
  rewrite manual_loop_step.
  pose proof (parse_options_reads menu_question
                (map fst (commands (args_device args))) stdin) as Hm.
  pose proof (parse_options_more menu_question
                (map fst (commands (args_device args))) stdin) as Hmore.
  destruct (parse_options _ _ stdin) as [[opt| | |] rest];
    try contradiction.
  - destruct (String.eqb opt "q") eqn:Hq; [reflexivity|].
    destruct (getitem _ opt) as [entry|e] eqn:Hget; [|exact I].
    pose proof (run_action_reads (fst entry) rest p) as Hr.
    pose proof (run_action_more (fst entry) rest p) as Hrm.
    destruct (run_action (fst entry) rest p) as [[[out| | |] rest'] p'];
      try contradiction; [|exact I|].
    + specialize (IH (snd out) rest' p' ltac:(lia)).
      destruct (manual_loop fuel args (snd out) rest' p')
        as [[[r| | |] rest''] p'']; try exact IH.
      * destruct IH as (-> & Hne & IH). split; [reflexivity|].
        split; [intros ->; cbn [length] in Hm; lia|].
        intros line [|fuel']; [exact I|].
        rewrite manual_loop_step, (Hmore [line]), Hq, Hget, (Hrm [line]).
        apply IH.
      * destruct IH as (-> & IH). split; [reflexivity|].
        intros line more [|fuel'] Hnum Hlen'; [lia|].
        rewrite manual_loop_step, (Hmore (line :: more)), Hq, Hget,
          (Hrm (line :: more)).
        apply IH; [exact Hnum|].
        rewrite length_app in *. cbn [length] in *. lia.
    + subst rest'. split; [reflexivity|].
      split; [intros ->; cbn [length] in Hm; lia|].
      intros line [|fuel']; [exact I|].
      rewrite manual_loop_step, (Hmore [line]), Hq, Hget.
      specialize (Hrm [] line). cbn [app] in Hrm.
      destruct (run_action (fst entry) (rest ++ [line]) p)
        as [[[out2| | |] rest2] p2]; try exact I.
      subst rest2. destruct fuel' as [|fuel']; [exact I|].
      rewrite manual_loop_step. cbn [parse_options]. exact I.
  - subst rest. split; [reflexivity|].
    intros line more [|fuel'] Hnum Hlen'; [lia|].
    rewrite manual_loop_step, (Hmore (line :: more)).
    cbn [parse_options]. fold (numeric_line line). rewrite Hnum.
    reflexivity.
Qed.

Lemma manual_mode_loop (args : Namespace) (stdin : list string)
    (p : I2cPort) :
  manual_mode args stdin p
  = match eeprom_i2c_config (device (args_device args)) p with
    | (Ok _, p0) =>
        manual_loop (S (length stdin)) args [x00; x00] stdin p0
    | (Raise e, p0) => (Raises e, stdin, p0)
    end.
Proof.
  unfold manual_mode, io_bind, io_port.
  destruct (eeprom_i2c_config _ p) as [[u|e] p0]; reflexivity.
Qed.

(** X19: how [manual_mode] can end.  The only value it returns is
    ["Program quit"].  When the [EOFError] of [input()] comes out of it,
    every line has been read and the input ended inside a command, at the
    question for the address, the data or the count: with one more line,
    whatever it is, that line goes to the command and the session still
    does not return.  When [manual_mode] fails to end, every line has been
    read and the input ended at the menu: with one more line that is no
    numeric text, that line is the answer to the menu and the session
    returns ["Program quit"] with the port as it was left. *)
Theorem manual_mode_ends (args : Namespace) (stdin : list string)
    (p : I2cPort) :
  match manual_mode args stdin p with
  | (Returns r, _, _) => r = quit_msg
  | (Raises _, _, _) => True
  | (EndOfInput, rest, _) =>
      rest = [] /\ stdin <> []
      /\ forall line,
           match manual_mode args (stdin ++ [line]) p with
           | (Returns _, _, _) => False
           | _ => True
           end
  | (Hangs, rest, p') =>
      rest = []
      /\ forall line more,
           numeric_line line = false ->
           manual_mode args (stdin ++ line :: more) p
           = (Returns quit_msg, more, p')
  end.
Proof.
  rewrite manual_mode_loop.
  destruct (eeprom_i2c_config _ p) as [[u|e] p0] eqn:Hcfg; [|exact I].
  pose proof (manual_loop_waits args (S (length stdin)) [x00; x00] stdin p0
                (Nat.lt_succ_diag_r _)) as W.
  destruct (manual_loop _ args _ stdin p0) as [[[r| | |] rest] p'].
  - exact W.
  - exact I.
  - destruct W as (-> & Hne & W). split; [reflexivity|].
    split; [exact Hne|]. intros line.
    rewrite manual_mode_loop, Hcfg. apply W.
  - destruct W as (-> & W). split; [reflexivity|].
    intros line more Hnum.
    rewrite manual_mode_loop, Hcfg. apply W; [exact Hnum|].
    apply Nat.lt_succ_diag_r.
Qed.

Lemma manual_mode_ends_witness :
  manual_mode (mkArgs (descriptor "ZL30267") None)
    (["1"; "0x0010"; "aa"]%string ++ ["q"; "1"]%string) (ideal_port [])
  = (Returns quit_msg, ["1"]%string,
     after (ideal_port [])
       [EvWrite [x02; x00; x00; x80]; EvWrite [x06];
        EvWrite [x02; x00; x10; xaa]])
  /\ match manual_mode (mkArgs (descriptor "ZL30267") None)
             (["1"; "0x0010"]%string ++ ["q"]%string) (ideal_port []) with
     | (Returns _, _, _) => False
     | _ => True
     end.
Proof.
  split.
  - pose proof (manual_mode_ends (mkArgs (descriptor "ZL30267") None)
                  ["1"; "0x0010"; "aa"]%string (ideal_port [])) as W.
    change (manual_mode (mkArgs (descriptor "ZL30267") None)
              ["1"; "0x0010"; "aa"]%string (ideal_port []))
      with (@Hangs string, @nil string,
            after (ideal_port [])
              [EvWrite [x02; x00; x00; x80]; EvWrite [x06];
               EvWrite [x02; x00; x10; xaa]]) in W.
    destruct W as [_ W]. apply W. reflexivity.
  - pose proof (manual_mode_ends (mkArgs (descriptor "ZL30267") None)
                  ["1"; "0x0010"]%string (ideal_port [])) as W.
    change (manual_mode (mkArgs (descriptor "ZL30267") None)
              ["1"; "0x0010"]%string (ideal_port []))
      with (@EndOfInput string, @nil string,
            after (ideal_port []) [EvWrite [x02; x00; x00; x80]]) in W.
    destruct W as (_ & _ & W). apply W.
Defined.

Lemma manual_mode_configured (args : Namespace) (stdin : list string)
    (p : I2cPort) :
  acks_all p ->
  manual_mode args stdin p
  = manual_loop (S (length stdin)) args [x00; x00] stdin
      (after p (config_events (args_device args))).
Proof.
  intros Hack. unfold manual_mode, io_bind, io_port.
  rewrite (config_run args p Hack). reflexivity.
Qed.

(** X20: on a port that acknowledges its writes, an answer to the first
    menu that is not a numeric text ends [manual_mode] with
    ["Program quit"]: the device has been configured, nothing else has been
    sent, and the lines after the answer have not been read. *)
Theorem manual_mode_quit (args : Namespace) (line : string)
    (rest : list string) (p : I2cPort) :
  acks_all p ->
  numeric_line line = false ->
  manual_mode args (line :: rest) p
  = (Returns quit_msg, rest, after p (config_events (args_device args))).
Proof.
  intros Hack Hnum. rewrite (manual_mode_configured args _ p Hack).
  rewrite manual_loop_step. cbn [parse_options].
  fold (numeric_line line). rewrite Hnum. reflexivity.
Qed.

Lemma manual_mode_quit_witness :
  manual_mode (mkArgs (descriptor "ZL30267") None)
    ["quit"; "1"]%string (ideal_port [])
  = (Returns quit_msg, ["1"]%string,
     after (ideal_port []) [EvWrite [x02; x00; x00; x80]]).
Proof.
  apply (manual_mode_quit (mkArgs (descriptor "ZL30267") None)
           "quit" ["1"]%string (ideal_port [])).
  - intros h out. reflexivity.
  - reflexivity.
Defined.

Lemma getitem_nodup {V} (d : list (string * V)) :
  forall (i : nat) (k : string) (v : V),
    NoDup (map fst d) ->
    nth_error d i = Some (k, v) ->
    getitem d k = Ok v.
Proof.
  induction d as [|[k0 v0] d IH]; intros i k v Hnd Hi.
  - destruct i; discriminate Hi.
  - cbn [map fst] in Hnd. inversion Hnd as [|? ? Hnotin Hnd']; subst.
    cbn [getitem]. destruct i as [|i].
    + cbn [nth_error] in Hi. injection Hi as -> ->.
      rewrite String.eqb_refl. reflexivity.
    + cbn [nth_error] in Hi.
      destruct (String.eqb_spec k0 k) as [->|Hne].
      * exfalso. apply Hnotin.
        apply nth_error_In in Hi.
        apply (in_map fst) in Hi. exact Hi.
      * apply (IH i); assumption.
Qed.

Lemma parse_options_picks (choice : string) (opts : list string)
    (line name : string) (rest : list string) :
  numeric_line line = true ->
  digit_lineb line = true ->
  1 <= line_value line ->
  nth_error opts (Z.to_nat (line_value line - 1)) = Some name ->
  parse_options choice opts (line :: rest) = (Returns name, rest).
Proof.
  intros Hnum Hdig Hk Hnth. cbn [parse_options]. fold (numeric_line line).
  rewrite Hnum. apply andb_prop in Hdig as [Hds Hlen].
  apply Nat.leb_le in Hlen. rewrite <- length_list_ascii in Hlen.
  destruct (numeric_line_split line Hnum) as [Hne _].
  rewrite (py_int10_digits _ Hne Hds Hlen). fold (line_value line).
  cbv zeta.
  assert (Hlt : (Z.to_nat (line_value line - 1) < length opts)%nat).
  { apply nth_error_Some. rewrite Hnth. discriminate. }
  destruct (Z.leb_spec 0 (line_value line - 1)); [|lia].
  destruct (Z.ltb_spec (line_value line - 1) (Z.of_nat (length opts)));
    [|lia].
  unfold item. rewrite (nth_error_nth _ _ _ Hnth). reflexivity.
Qed.

(** One turn of the loop of [manual_mode] on a line that picks an entry. *)
Lemma manual_turn (args : Namespace) (fuel : nat) (cur : bytes)
    (line name : string) (entry : action * option bytes)
    (rest : list string) (p : I2cPort) :
  NoDup (map fst (commands (args_device args))) ->
  picks (args_device args) line name entry ->
  name <> "q"%string ->
  manual_loop (S fuel) args cur (line :: rest) p
  = match run_action (fst entry) rest p with
    | (Returns out, rest', p') => manual_loop fuel args (snd out) rest' p'
    | (Raises e, rest', p') => (Raises e, rest', p')
    | (EndOfInput, rest', p') => (EndOfInput, rest', p')
    | (Hangs, rest', p') => (Hangs, rest', p')
    end.
Proof.
  intros Hnd (Hnum & Hdig & Hk & Hnth) Hq.
  rewrite manual_loop_step.
  rewrite (parse_options_picks _ _ line name rest Hnum Hdig Hk).
  - destruct (String.eqb_spec name "q") as [E|_]; [contradiction|].
    rewrite (getitem_nodup _ _ _ _ Hnd Hnth). reflexivity.
  - rewrite nth_error_map, Hnth. reflexivity.
Qed.

(** X21: a page write in [manual_mode], then the end.  On a port that
    acknowledges its writes, the number of an entry that writes pages,
    then an address text that [byte_address_parse] reads as [address] under
    the bound 2^12, then a data text that [bytes.fromhex] reads as [data],
    send the write-enable of the entry (if it has one) and one frame: the
    command of the entry, the address and all of the data, whatever the
    page size.  If the address after the data still fits the width of
    [address], the menu comes back and the next answer ends the session;
    if it does not, the [OverflowError] comes out of [manual_mode] after
    the frame has been sent. *)
Theorem manual_page_write (args : Namespace) (p : I2cPort)
    (line a d last name : string) (rest : list string)
    (command extra : option bytes) (we : bool * bytes)
    (address data : bytes) :
  acks_all p ->
  NoDup (map fst (commands (args_device args))) ->
  picks (args_device args) line name (PageWriteAction command we, extra) ->
  name <> "q"%string ->
  byte_address_parse a (Some (2 ^ 12)) = Ok address ->
  bytes_fromhex (list_ascii_of_string d) = Ok data ->
  numeric_line last = false ->
  let sent := config_events (args_device args) ++ enable_events we
              ++ [EvWrite (or_empty command ++ address ++ data)] in
  manual_mode args (line :: a :: d :: last :: rest) p
  = match int_to_bytes (int_from_bytes address + Z.of_nat (length data))
                       (length address) with
    | Ok _ => (Returns quit_msg, rest, after p sent)
    | Raise e => (Raises e, last :: rest, after p sent)
    end.
Proof.
  intros Hack Hnd Hpick Hq Ha Hd Hlast sent.
  rewrite (manual_mode_configured args _ p Hack).
  cbn [length].
  rewrite (manual_turn args _ _ line name _ _ _ Hnd Hpick Hq).
  cbn [fst run_action]. unfold io_bind, io_input, io_result, io_port.
  rewrite Ha, Hd.
  rewrite eeprom_page_write_run.
  - rewrite after_after. fold sent.
    destruct (int_to_bytes _ _) as [next|e]; [|reflexivity].
    rewrite manual_loop_step. cbn [parse_options].
    fold (numeric_line last). rewrite Hlast. reflexivity.
  - intros _. apply Hack.
  - apply Hack.
Qed.

Lemma manual_page_write_witness :
  manual_mode (mkArgs (descriptor "ZL30267") None)
    ["1"; "0x0010"; "aa bb cc"; "q"; "1"]%string (ideal_port [])
  = (Returns quit_msg, ["1"]%string,
     after (ideal_port [])
       [EvWrite [x02; x00; x00; x80]; EvWrite [x06];
        EvWrite [x02; x00; x10; xaa; xbb; xcc]]).
Proof.
  pose proof (manual_page_write (mkArgs (descriptor "ZL30267") None)
                (ideal_port []) "1" "0x0010" "aa bb cc" "q" "Page Write"
                ["1"]%string (Some [x02]) (Some [x02]) (true, [x06])
                [x00; x10] [xaa; xbb; xcc]) as W.
  cbv zeta in W. apply W.
  - intros h out. reflexivity.
  - vm_compute. repeat constructor; intros H; cbn in H; intuition discriminate.
  - split; [reflexivity|split; [reflexivity|split; [|reflexivity]]].
    vm_compute. discriminate.
  - discriminate.
  - reflexivity.
  - reflexivity.
  - reflexivity.
Defined.

(** X22: an address that [byte_address_parse] refuses under the bound 2^12
    ends [manual_mode], whichever entry was picked: the exception comes out
    of [manual_mode], the menu is not shown again, the line after the
    address is not read, and nothing is sent after the configuration.  The
    bound is 2^12 in every entry of both devices, so an address of 0x1000
    or more is refused. *)
Theorem manual_address_refused (args : Namespace) (p : I2cPort)
    (line a name : string) (rest : list string)
    (entry : action * option bytes) (e : exn) :
  acks_all p ->
  NoDup (map fst (commands (args_device args))) ->
  picks (args_device args) line name entry ->
  name <> "q"%string ->
  byte_address_parse a (Some (2 ^ 12)) = Raise e ->
  manual_mode args (line :: a :: rest) p
  = (Raises e, rest, after p (config_events (args_device args))).
Proof.
  intros Hack Hnd Hpick Hq Ha.
  rewrite (manual_mode_configured args _ p Hack).
  cbn [length].
  rewrite (manual_turn args _ _ line name _ _ _ Hnd Hpick Hq).
  destruct entry as [[command we | command | command] extra];
    cbn [fst run_action]; unfold io_bind, io_input, io_result;
    rewrite Ha; reflexivity.
Qed.

Lemma manual_address_refused_witness :
  manual_mode (mkArgs (descriptor "ZL30267") None)
    ["2"; "1000"; "4"]%string (ideal_port [])
  = (Raises (ValueError range_msg), ["4"]%string,
     after (ideal_port []) [EvWrite [x02; x00; x00; x80]]).
Proof.
  apply (manual_address_refused (mkArgs (descriptor "ZL30267") None)
           (ideal_port []) "2" "1000" "Read" ["4"]%string
           (ReadAction (Some [x03]), Some [x03]) (ValueError range_msg)).
  - intros h out. reflexivity.
  - vm_compute. repeat constructor; intros H; cbn in H; intuition discriminate.
  - split; [reflexivity|split; [reflexivity|split; [|reflexivity]]].
    vm_compute. discriminate.
  - discriminate.
  - reflexivity.
Defined.

(** X23: a single write in [manual_mode], then the end.  The data text is
    read by [byte_address_parse] without a bound, so it may hold any number
    of bytes; all of them are sent in one frame after the address, and the
    address shown next is the address plus one.  If that address does not
    fit the width of [address], the [OverflowError] comes out of
    [manual_mode] after the frame has been sent. *)
Theorem manual_single_write (args : Namespace) (p : I2cPort)
    (line a d last name : string) (rest : list string)
    (command extra : option bytes) (address data : bytes) :
  acks_all p ->
  NoDup (map fst (commands (args_device args))) ->
  picks (args_device args) line name (SingleWriteAction command, extra) ->
  name <> "q"%string ->
  byte_address_parse a (Some (2 ^ 12)) = Ok address ->
  byte_address_parse d None = Ok data ->
  numeric_line last = false ->
  let sent := config_events (args_device args)
              ++ [EvWrite (or_empty command ++ address ++ data)] in
  manual_mode args (line :: a :: d :: last :: rest) p
  = match int_to_bytes (int_from_bytes address + 1) (length address) with
    | Ok _ => (Returns quit_msg, rest, after p sent)
    | Raise e => (Raises e, last :: rest, after p sent)
    end.
Proof.
  intros Hack Hnd Hpick Hq Ha Hd Hlast sent.
  rewrite (manual_mode_configured args _ p Hack).
  cbn [length].
  rewrite (manual_turn args _ _ line name _ _ _ Hnd Hpick Hq).
  cbn [fst run_action]. unfold io_bind, io_input, io_result, io_port.
  rewrite Ha, Hd.
  rewrite eeprom_write_run by apply Hack.
  rewrite after_after. fold sent.
  destruct (int_to_bytes _ _) as [next|e]; [|reflexivity].
  rewrite manual_loop_step. cbn [parse_options].
  fold (numeric_line last). rewrite Hlast. reflexivity.
Qed.

Lemma manual_single_write_witness :
  manual_mode (mkArgs (descriptor "24LC32") None)
    ["2"; "0010"; "0xaabb"; ""; "1"]%string (ideal_port [])
  = (Returns quit_msg, ["1"]%string,
     after (ideal_port []) [EvWrite [x00; x10; xaa; xbb]]).
Proof.
  pose proof (manual_single_write (mkArgs (descriptor "24LC32") None)
                (ideal_port []) "2" "0010" "0xaabb" EmptyString
                "Single Write" ["1"]%string None None
                [x00; x10] [xaa; xbb]) as W.
  cbv zeta in W. apply W.
  - intros h out. reflexivity.
  - vm_compute. repeat constructor; intros H; cbn in H; intuition discriminate.
  - split; [reflexivity|split; [reflexivity|split; [|reflexivity]]].
    vm_compute. discriminate.
  - discriminate.
  - reflexivity.
  - reflexivity.
  - reflexivity.
Defined.

(** X24: a read in [manual_mode], then the end.  The count is read by
    [int], and is passed on as it is, whatever its sign: the pointer is
    set with one write (the command of the entry, then the address) and
    [n] bytes are asked of the port.  An exception of the read, or the
    [OverflowError] of an address plus [n] that does not fit the width of
    [address] (or is below zero), comes out of [manual_mode] after both
    calls have been made. *)
Theorem manual_read (args : Namespace) (p : I2cPort)
    (line a d last name : string) (rest : list string)
    (command extra : option bytes) (address : bytes) (n : Z) :
  acks_all p ->
  NoDup (map fst (commands (args_device args))) ->
  picks (args_device args) line name (ReadAction command, extra) ->
  name <> "q"%string ->
  byte_address_parse a (Some (2 ^ 12)) = Ok address ->
  py_int10 (list_ascii_of_string d) = Ok n ->
  numeric_line last = false ->
  let pointer := EvWrite (or_empty command ++ address) in
  let sent := config_events (args_device args) ++ [pointer; EvRead n] in
  manual_mode args (line :: a :: d :: last :: rest) p
  = match on_read p (history p ++ config_events (args_device args)
                     ++ [pointer]) n with
    | Raise e => (Raises e, last :: rest, after p sent)
    | Ok _ =>
        match int_to_bytes (int_from_bytes address + n) (length address) with
        | Ok _ => (Returns quit_msg, rest, after p sent)
        | Raise e => (Raises e, last :: rest, after p sent)
        end
    end.
Proof.
  intros Hack Hnd Hpick Hq Ha Hd Hlast pointer sent.
  rewrite (manual_mode_configured args _ p Hack).
  cbn [length].
  rewrite (manual_turn args _ _ line name _ _ _ Hnd Hpick Hq).
  cbn [fst run_action]. unfold io_bind, io_input, io_result, io_port.
  rewrite Ha, Hd.
  rewrite eeprom_read_run by apply Hack.
  rewrite after_after. fold pointer. fold sent.
  cbn [after on_read history]. rewrite <- app_assoc.
  destruct (on_read p _ n) as [got|e]; [|reflexivity].
  destruct (int_to_bytes _ _) as [next|e]; [|reflexivity].
  rewrite manual_loop_step. cbn [parse_options].
  fold (numeric_line last). rewrite Hlast. reflexivity.
Qed.

Lemma manual_read_witness :
  manual_mode (mkArgs (descriptor "ZL30267") None)
    ["2"; "0x0010"; " +1_6 "; "q"; "1"]%string (ideal_port [x41])
  = (Returns quit_msg, ["1"]%string,
     after (ideal_port [x41])
       [EvWrite [x02; x00; x00; x80];
        EvWrite [x03; x00; x10]; EvRead 16]).
Proof.
  pose proof (manual_read (mkArgs (descriptor "ZL30267") None)
                (ideal_port [x41]) "2" "0x0010" " +1_6 " "q"
                "Read" ["1"]%string (Some [x03]) (Some [x03])
                [x00; x10] 16) as W.
  cbv zeta in W. apply W.
  - intros h out. reflexivity.
  - vm_compute. repeat constructor; intros H; cbn in H; intuition discriminate.
  - split; [reflexivity|split; [reflexivity|split; [|reflexivity]]].
    vm_compute. discriminate.
  - discriminate.
  - reflexivity.
  - reflexivity.
  - reflexivity.
Defined.
